(** * informix_fdw: a shallow embedding of the cache, scan, marshaling and
      pushdown code

    The development follows the three C files of the wrapper:

    - [ConnCache] : ifx_conncache.c, the backend-local connection cache and
      foreign-table cache;
    - [Fdw]       : ifx_fdw.c, option validation, identifier generation and
      the row iteration of a foreign scan;
    - [Conv]      : ifx_conv.c, the Informix-to-PostgreSQL datum conversion
      routines and their catalog lookups;
    - [Pushdown]  : ifx_conv.c, the predicate walker that collects the
      expressions handed to the remote server.

    C integers are [Z], C strings are [string], nullable pointers are
    [option], arrays are lists indexed by a [Z] index whose out-of-range
    reads are reported as a fault, and hash tables are [gmap]s.  [ereport]
    and [elog(ERROR)] leave the function: they are the error alternative of
    the result type of each function. *)

From Stdlib Require Import ZArith Lia String Ascii List Bool.
From stdpp Require Import base option list strings gmap fin_maps.
Import ListNotations.

#[local] Set Warnings "-register-all".

Local Open Scope string_scope.
Local Open Scope list_scope.
Local Open Scope Z_scope.

(** ** Shared C-level helpers *)

Abbreviation Oid := Z (only parsing).

(** [a[i]] for a C array held as a list: [None] outside [0 .. length-1]. *)
Definition zidx {A : Type} (a : list A) (i : Z) : option A :=
  if i <? 0 then None else a !! Z.to_nat i.

(** [a[i] = x], when [i] is in range. *)
Definition zset {A : Type} (a : list A) (i : Z) (x : A) : option (list A) :=
  if (0 <=? i) && (i <? Z.of_nat (length a)) then Some (<[Z.to_nat i := x]> a)
  else None.

(** A 32-bit C [int]: the value after wrap-around. *)
Definition INT_MAX : Z := 2147483647.
Definition wrap_int (z : Z) : Z := (z + 2 ^ 31) mod 2 ^ 32 - 2 ^ 31.

(** Character arrays.  A [char] array is a list of characters; a C string
    inside it ends at the first NUL. *)
Definition NUL : ascii := Ascii.zero.

Definition strlen (s : string) : nat := String.length s.

Fixpoint cstring (buf : list ascii) : string :=
  match buf with
  | [] => EmptyString
  | c :: rest => if Ascii.eqb c NUL then EmptyString else String c (cstring rest)
  end.

(** ** ifx_conncache.c *)

Module ConnCache.

(** The scan mode a caller passes in its connection info.  Only
    [IFX_PLAN_SCAN] is named in the code of the cache; every other value of
    the enumeration is kept with its tag. *)
Inductive IfxForeignScanMode : Type :=
| IFX_PLAN_SCAN
| IFX_SCAN_MODE_OTHER (tag : Z).

Definition is_plan_scan (m : IfxForeignScanMode) : bool :=
  match m with IFX_PLAN_SCAN => true | IFX_SCAN_MODE_OTHER _ => false end.

(** [IfxConnectionInfo], the caller's struct.  The [char *] members are
    nullable. *)
Record IfxConnectionInfo : Type := mkConnInfo {
  conname       : string;
  servername    : option string;
  informixdir   : option string;
  username      : option string;
  database      : option string;
  db_locale     : option string;
  client_locale : option string;
  tx_enabled    : Z;
  db_ansi       : Z;
  scan_mode     : IfxForeignScanMode
}.

(** The members of a cached entry that [ifxConnCache_add] writes.  The key of
    the hash entry (the connection name) is the key of the map below. *)
Record IfxCachedConnection : Type := mkCached {
  establishedByOid  : Oid;
  con_servername    : string;
  con_informixdir   : string;
  con_username      : string;
  con_database      : string;
  con_tx_enabled    : Z;
  con_db_ansi       : Z;
  con_tx_in_progress : Z;
  con_tx_num_commit  : Z;
  con_tx_num_rollback : Z;
  con_db_locale     : option string;
  con_client_locale : option string;
  con_usage         : Z
}.

(** [item->con.usage++] *)
Definition usage_incr (item : IfxCachedConnection) : IfxCachedConnection :=
  {| establishedByOid := establishedByOid item;
     con_servername := con_servername item;
     con_informixdir := con_informixdir item;
     con_username := con_username item;
     con_database := con_database item;
     con_tx_enabled := con_tx_enabled item;
     con_db_ansi := con_db_ansi item;
     con_tx_in_progress := con_tx_in_progress item;
     con_tx_num_commit := con_tx_num_commit item;
     con_tx_num_rollback := con_tx_num_rollback item;
     con_db_locale := con_db_locale item;
     con_client_locale := con_client_locale item;
     con_usage := wrap_int (con_usage item + 1) |}.

(** An entry of the foreign-table cache: the table and the bytes of its
    [ifx_connection_name] member. *)
Record IfxFTCacheItem : Type := mkFTItem {
  foreignTableOid     : Oid;
  ifx_connection_name : list ascii
}.

(** The backend-local state the file works on: the initialisation flag, the
    two hash tables ([None] before [hash_create]) and the strings that
    [pstrdup] has placed in [TopMemoryContext], oldest first. *)
Record Backend : Type := mkBackend {
  IfxCacheIsInitialized : bool;
  connections : option (gmap string IfxCachedConnection);
  tables      : option (gmap Z IfxFTCacheItem);
  TopMemoryContext : list string
}.

Definition backend_start : Backend :=
  {| IfxCacheIsInitialized := false; connections := None; tables := None;
     TopMemoryContext := [] |}.

Inductive fault : Type :=
| NullPointer      (* a NULL pointer handed to strlen/pstrdup/hash_search *)
| BufferOverrun.   (* a write past the end of a character array *)

Inductive outcome (A : Type) : Type :=
| Done (a : A)
| Crash (f : fault).
Arguments Done {A} a.
Arguments Crash {A} f.

Definition bind {A B : Type} (m : outcome A) (k : A -> outcome B) : outcome B :=
  match m with Done a => k a | Crash f => Crash f end.

Notation "x <- m ;; k" := (bind m (fun x => k))
  (at level 100, m at next level, right associativity).

(** [ifxFTCache_init], [ifxConnCache_init]: [hash_create] of an empty table. *)
Definition ifxFTCache_init (b : Backend) : Backend :=
  {| IfxCacheIsInitialized := IfxCacheIsInitialized b;
     connections := connections b; tables := Some ∅;
     TopMemoryContext := TopMemoryContext b |}.

Definition ifxConnCache_init (b : Backend) : Backend :=
  {| IfxCacheIsInitialized := IfxCacheIsInitialized b;
     connections := Some ∅; tables := tables b;
     TopMemoryContext := TopMemoryContext b |}.

Definition InformixCacheInit (b : Backend) : Backend :=
  if IfxCacheIsInitialized b then b
  else
    let b1 := ifxFTCache_init b in
    let b2 := ifxConnCache_init b1 in
    {| IfxCacheIsInitialized := true; connections := connections b2;
       tables := tables b2; TopMemoryContext := TopMemoryContext b2 |}.

(** [pstrdup(s)] under [TopMemoryContext]: a new copy owned by that context;
    a NULL argument is dereferenced by [strlen]. *)
Definition pstrdup (s : option string) (mem : list string)
  : outcome (string * list string) :=
  match s with
  | Some v => Done (v, mem ++ [v])
  | None => Crash NullPointer
  end.

(** The optional members: copied when present, NULL otherwise. *)
Definition pstrdup_opt (s : option string) (mem : list string)
  : option string * list string :=
  match s with
  | Some v => (Some v, mem ++ [v])
  | None => (None, mem)
  end.

(** [ifxConnCache_add].  The result is the pointer to the hash entry, given
    by the key of the entry, the value written to [*found], and the backend
    state afterwards.  The key is the connection name; it fits the key size,
    since [ifxMakeConnectionInfo] cuts it to [IFX_CONNAME_LEN]. *)
Definition ifxConnCache_add (foreignTableOid : Oid) (coninfo : IfxConnectionInfo)
    (b : Backend) : outcome (string * bool * Backend) :=
  match connections b with
  | None => Crash NullPointer
  | Some conns =>
    let key := conname coninfo in
    match conns !! key with
    | None =>
      r1 <- pstrdup (servername coninfo) (TopMemoryContext b) ;;
      let '(sn, m1) := r1 in
      r2 <- pstrdup (informixdir coninfo) m1 ;;
      let '(dir, m2) := r2 in
      r3 <- pstrdup (username coninfo) m2 ;;
      let '(un, m3) := r3 in
      r4 <- pstrdup (database coninfo) m3 ;;
      let '(db, m4) := r4 in
      let '(dbl, m5) := pstrdup_opt (db_locale coninfo) m4 in
      let '(cll, m6) := pstrdup_opt (client_locale coninfo) m5 in
      let item :=
        {| establishedByOid := foreignTableOid;
           con_servername := sn; con_informixdir := dir;
           con_username := un; con_database := db;
           con_tx_enabled := tx_enabled coninfo;
           con_db_ansi := db_ansi coninfo;
           con_tx_in_progress := 0;
           con_tx_num_commit := 0;
           con_tx_num_rollback := 0;
           con_db_locale := dbl; con_client_locale := cll;
           con_usage := 1 |} in
      Done (key, false,
            {| IfxCacheIsInitialized := IfxCacheIsInitialized b;
               connections := Some (<[key := item]> conns);
               tables := tables b; TopMemoryContext := m6 |})
    | Some item =>
      if is_plan_scan (scan_mode coninfo) then
        Done (key, true,
              {| IfxCacheIsInitialized := IfxCacheIsInitialized b;
                 connections := Some (<[key := usage_incr item]> conns);
                 tables := tables b;
                 TopMemoryContext := TopMemoryContext b |})
      else Done (key, true, b)
    end
  end.

(** [ifxConnCache_exists]: [HASH_FIND]. *)
Definition ifxConnCache_exists (name : string) (b : Backend)
  : outcome (option IfxCachedConnection * bool) :=
  match connections b with
  | None => Crash NullPointer
  | Some conns =>
    match conns !! name with
    | Some item => Done (Some item, true)
    | None => Done (None, false)
    end
  end.

(** [ifxConnCache_rm]: [HASH_REMOVE]; the removed entry is returned. *)
Definition ifxConnCache_rm (name : string) (b : Backend)
  : outcome (option IfxCachedConnection * bool * Backend) :=
  match connections b with
  | None => Crash NullPointer
  | Some conns =>
    match conns !! name with
    | Some item =>
      Done (Some item, true,
            {| IfxCacheIsInitialized := IfxCacheIsInitialized b;
               connections := Some (delete name conns);
               tables := tables b;
               TopMemoryContext := TopMemoryContext b |})
    | None => Done (None, false, b)
    end
  end.

(** [bzero(buf, n)] *)
Definition bzero (buf : list ascii) (n : nat) : outcome (list ascii) :=
  if (n <=? length buf)%nat then Done (replicate n NUL ++ drop n buf)
  else Crash BufferOverrun.

(** [strncpy(dst, src, n)]: exactly [n] bytes are written, the characters of
    [src] and then NULs when [src] is shorter than [n]; no NUL is written
    when [src] has [n] characters or more. *)
Definition strncpy (dst : list ascii) (src : string) (n : nat)
  : outcome (list ascii) :=
  if (n <=? length dst)%nat then
    Done (take n (list_ascii_of_string src ++ replicate n NUL) ++ drop n dst)
  else Crash BufferOverrun.

(** PostgreSQL's [StrNCpy(dst, src, len)] macro (c.h):
    [if (len > 0) { strncpy(dst, src, len); dst[len-1] = 0; }] *)
Definition StrNCpy (dst : list ascii) (src : string) (len : nat)
  : outcome (list ascii) :=
  if (0 <? len)%nat then
    d <- strncpy dst src len ;;
    Done (<[(len - 1)%nat := NUL]> d)
  else Done dst.

(** [ifxFTCache_add].  [IFX_CONNAME_LEN] is the constant of the header;
    [raw] is the [ifx_connection_name] member of a new hash entry as
    [hash_search] hands it out, with whatever bytes it holds.  The result is
    the pointer to the entry, given by its key, and the backend state. *)
Definition ifxFTCache_add (IFX_CONNAME_LEN : nat) (raw : list ascii)
    (foreignTableOid : Oid) (conname : string) (b : Backend)
  : outcome (Oid * Backend) :=
  match tables b with
  | None => Crash NullPointer
  | Some tbl =>
    match tbl !! foreignTableOid with
    | Some item => Done (foreignTableOid, b)
    | None =>
      zeroed <- bzero raw IFX_CONNAME_LEN ;;
      name <- StrNCpy zeroed conname (strlen conname) ;;
      let item := {| foreignTableOid := foreignTableOid;
                     ifx_connection_name := name |} in
      Done (foreignTableOid,
            {| IfxCacheIsInitialized := IfxCacheIsInitialized b;
               connections := connections b;
               tables := Some (<[foreignTableOid := item]> tbl);
               TopMemoryContext := TopMemoryContext b |})
    end
  end.

(** *** Vocabulary of the statements about the cache *)

(** The entry [ifxConnCache_add] writes for a connection that is not cached
    yet. *)
Definition new_entry (foreignTableOid : Oid) (coninfo : IfxConnectionInfo)
    (sn dir un db : string) : IfxCachedConnection :=
  {| establishedByOid := foreignTableOid;
     con_servername := sn; con_informixdir := dir;
     con_username := un; con_database := db;
     con_tx_enabled := tx_enabled coninfo;
     con_db_ansi := db_ansi coninfo;
     con_tx_in_progress := 0;
     con_tx_num_commit := 0;
     con_tx_num_rollback := 0;
     con_db_locale := db_locale coninfo;
     con_client_locale := client_locale coninfo;
     con_usage := 1 |}.

(** The strings of a connection info that the cache copies, in the order of
    the copies. *)
Definition copied (coninfo : IfxConnectionInfo) (sn dir un db : string)
  : list string :=
  [sn; dir; un; db]
  ++ match db_locale coninfo with Some l => [l] | None => [] end
  ++ match client_locale coninfo with Some l => [l] | None => [] end.

(** The same entry with another usage counter. *)
Definition with_usage (item : IfxCachedConnection) (u : Z) : IfxCachedConnection :=
  {| establishedByOid := establishedByOid item;
     con_servername := con_servername item;
     con_informixdir := con_informixdir item;
     con_username := con_username item;
     con_database := con_database item;
     con_tx_enabled := con_tx_enabled item;
     con_db_ansi := con_db_ansi item;
     con_tx_in_progress := con_tx_in_progress item;
     con_tx_num_commit := con_tx_num_commit item;
     con_tx_num_rollback := con_tx_num_rollback item;
     con_db_locale := con_db_locale item;
     con_client_locale := con_client_locale item;
     con_usage := u |}.

(** A connection info with every required parameter, and one optional
    locale. *)
Definition demo_coninfo : IfxConnectionInfo :=
  {| conname := "bob-stores-ol_srv";
     servername := Some "ol_srv"; informixdir := Some "/opt/informix";
     username := Some "bob"; database := Some "stores";
     db_locale := None; client_locale := Some "en_US.utf8";
     tx_enabled := 1; db_ansi := 0; scan_mode := IFX_PLAN_SCAN |}.

(** The characters of a C string but the last one. *)
Definition without_last_char (s : string) : string :=
  string_of_list_ascii (removelast (list_ascii_of_string s)).

(** A string has no NUL inside. *)
Definition nul_free (s : string) : Prop :=
  Forall (fun c => c <> NUL) (list_ascii_of_string s).

(** *** Runs of calls *)

(** [ifxConnCache_add] called once for each connection info of [calls], in
    order, for the same table. *)
Fixpoint ifxConnCache_add_each (foreignTableOid : Oid)
    (calls : list IfxConnectionInfo) (b : Backend) : outcome Backend :=
  match calls with
  | [] => Done b
  | coninfo :: rest =>
    r <- ifxConnCache_add foreignTableOid coninfo b ;;
    ifxConnCache_add_each foreignTableOid rest (snd r)
  end.

(** How many of [calls] announce a new scan. *)
Fixpoint plan_scans (calls : list IfxConnectionInfo) : Z :=
  match calls with
  | [] => 0
  | coninfo :: rest =>
    (if is_plan_scan (scan_mode coninfo) then 1 else 0) + plan_scans rest
  end.

(** The connection info of a plain lookup of [demo_coninfo]'s connection. *)
Definition demo_lookup : IfxConnectionInfo :=
  {| conname := "bob-stores-ol_srv";
     servername := None; informixdir := None;
     username := None; database := None;
     db_locale := None; client_locale := None;
     tx_enabled := 0; db_ansi := 0; scan_mode := IFX_SCAN_MODE_OTHER 1 |}.

(** The backend after [demo_coninfo] was added for table 16384. *)
Definition demo_connections : gmap string IfxCachedConnection :=
  <[conname demo_coninfo :=
      new_entry 16384 demo_coninfo "ol_srv" "/opt/informix" "bob" "stores"]> ∅.

Definition demo_backend : Backend :=
  {| IfxCacheIsInitialized := true;
     connections := Some demo_connections;
     tables := Some ∅;
     TopMemoryContext :=
       ["ol_srv"; "/opt/informix"; "bob"; "stores"; "en_US.utf8"] |}.

End ConnCache.

(** ** ifx_fdw.c *)

Module Fdw.

Inductive fault : Type :=
| OutOfBounds          (* an array index outside the array *)
| NullPointer          (* a NULL pointer dereferenced *)
| WildPointer          (* a pointer cell read before anything was stored *)
| ReadOnlyWrite.       (* a store into a string literal *)

Inductive sqlerrcode : Type :=
| ERRCODE_FDW_INVALID_OPTION_NAME
| ERRCODE_SYNTAX_ERROR
| ERRCODE_INTERNAL_ERROR.      (* what elog(ERROR, ...) reports *)

Record ErrorData : Type := mkError {
  errcode : sqlerrcode;
  errmsg  : string;
  errhint : option string
}.

Definition elog_ERROR (msg : string) : ErrorData :=
  {| errcode := ERRCODE_INTERNAL_ERROR; errmsg := msg; errhint := None |}.

(** What a call ends with: a return, an error raised through
    [ereport]/[elog], or a memory fault. *)
Inductive result (A : Type) : Type :=
| OK (a : A)
| ERROR (e : ErrorData)
| FAULT (f : fault).
Arguments OK {A} a.
Arguments ERROR {A} e.
Arguments FAULT {A} f.

Definition bind {A B : Type} (m : result A) (k : A -> result B) : result B :=
  match m with
  | OK a => k a
  | ERROR e => ERROR e
  | FAULT f => FAULT f
  end.

Notation "x <- m ;; k" := (bind m (fun x => k))
  (at level 100, m at next level, right associativity).

(** A pointer cell of an array of pointers. *)
Inductive ptr (A : Type) : Type :=
| Wild             (* never written since palloc *)
| Null
| Ptr (a : A).
Arguments Wild {A}.
Arguments Null {A}.
Arguments Ptr {A} a.

(** [a[i]] and [a[i] = x] with the bounds written out. *)
Definition rd {A : Type} (a : list A) (i : Z) : result A :=
  match zidx a i with
  | Some x => OK x
  | None => FAULT OutOfBounds
  end.

Definition wr {A : Type} (a : list A) (i : Z) (x : A) : result (list A) :=
  match zset a i x with
  | Some a' => OK a'
  | None => FAULT OutOfBounds
  end.

(** *** Options *)

(** A float as far as this file looks at it: the class of its sign. *)
Inductive cfloat : Type := FZero | FPositive | FNegative | FNaN.

Definition float_lt0 (f : cfloat) : bool :=
  match f with FNegative => true | _ => false end.

(** The C library call of the file that is left open.  [strtof] gives the
    value and the number of characters it consumed ([endp - val]). *)
Record Libc : Type := mkLibc {
  strtof : string -> cfloat * nat
}.

Definition strcmp (a b : string) : Z :=
  match String.compare a b with
  | Eq => 0
  | Lt => -1
  | Gt => 1
  end.

Definition dquote : string := String (ascii_of_nat 34) EmptyString.

Record DefElem : Type := mkDefElem {
  defname : string;
  arg     : string
}.

Definition defGetString (def : DefElem) : string := arg def.

Record IfxPlanData : Type := mkPlanData {
  estimated_rows   : cfloat;
  connection_costs : cfloat
}.

Record IfxConnectionInfo : Type := mkConnInfo {
  conname    : string;
  servername : option string;
  database   : option string;
  username   : option string;
  password   : option string;
  query      : option string;
  tablename  : option string;
  planData   : IfxPlanData
}.

(** [IfxConnectionInfo coninfo = {0}] *)
Definition coninfo_zero : IfxConnectionInfo :=
  {| conname := EmptyString; servername := None; database := None;
     username := None; password := None; query := None; tablename := None;
     planData := {| estimated_rows := FZero; connection_costs := FZero |} |}.

Definition set_servername (c : IfxConnectionInfo) (v : string) :=
  {| conname := conname c; servername := Some v; database := database c;
     username := username c; password := password c; query := query c;
     tablename := tablename c; planData := planData c |}.
Definition set_database (c : IfxConnectionInfo) (v : string) :=
  {| conname := conname c; servername := servername c; database := Some v;
     username := username c; password := password c; query := query c;
     tablename := tablename c; planData := planData c |}.
Definition set_username (c : IfxConnectionInfo) (v : string) :=
  {| conname := conname c; servername := servername c; database := database c;
     username := Some v; password := password c; query := query c;
     tablename := tablename c; planData := planData c |}.
Definition set_password (c : IfxConnectionInfo) (v : string) :=
  {| conname := conname c; servername := servername c; database := database c;
     username := username c; password := Some v; query := query c;
     tablename := tablename c; planData := planData c |}.
Definition set_tablename (c : IfxConnectionInfo) (v : string) :=
  {| conname := conname c; servername := servername c; database := database c;
     username := username c; password := password c; query := query c;
     tablename := Some v; planData := planData c |}.
Definition set_estimated_rows (c : IfxConnectionInfo) (f : cfloat) :=
  {| conname := conname c; servername := servername c; database := database c;
     username := username c; password := password c; query := query c;
     tablename := tablename c;
     planData := {| estimated_rows := f;
                    connection_costs := connection_costs (planData c) |} |}.
Definition set_connection_costs (c : IfxConnectionInfo) (f : cfloat) :=
  {| conname := conname c; servername := servername c; database := database c;
     username := username c; password := password c; query := query c;
     tablename := tablename c;
     planData := {| estimated_rows := estimated_rows (planData c);
                    connection_costs := f |} |}.

(** [if (p)] on a pointer. *)
Definition non_null {A : Type} (p : option A) : bool :=
  match p with Some _ => true | None => false end.

Definition redundant (code : sqlerrcode) (what : string) (def : DefElem)
  : ErrorData :=
  {| errcode := code;
     errmsg := "conflicting or redundant options: " +:+ what +:+ "("
               +:+ defGetString def +:+ ")";
     errhint := None |}.

(** [ifxGetOptionDups]: the eight [if (strcmp(def->defname, ...) == 0)]
    blocks, in the order of the file. *)
Definition ifxGetOptionDups (libc : Libc) (coninfo : IfxConnectionInfo)
    (def : DefElem) : result IfxConnectionInfo :=
  c1 <- (if strcmp (defname def) "servername" =? 0 then
           if non_null (servername coninfo)
           then ERROR (redundant ERRCODE_FDW_INVALID_OPTION_NAME "servername" def)
           else OK (set_servername coninfo (defGetString def))
         else OK coninfo) ;;
  c2 <- (if strcmp (defname def) "database" =? 0 then
           if non_null (database c1)
           then ERROR (redundant ERRCODE_FDW_INVALID_OPTION_NAME "database" def)
           else OK (set_database c1 (defGetString def))
         else OK c1) ;;
  c3 <- (if strcmp (defname def) "username" =? 0 then
           if non_null (database c2)
           then ERROR (redundant ERRCODE_FDW_INVALID_OPTION_NAME "username" def)
           else OK (set_username c2 (defGetString def))
         else OK c2) ;;
  c4 <- (if strcmp (defname def) "password" =? 0 then
           if non_null (password c3)
           then ERROR (redundant ERRCODE_FDW_INVALID_OPTION_NAME "password" def)
           else OK (set_password c3 (defGetString def))
         else OK c3) ;;
  c5 <- (if strcmp (defname def) "query" =? 0 then
           if non_null (tablename c4)
           then ERROR {| errcode := ERRCODE_SYNTAX_ERROR;
                         errmsg := "conflicting options: query cannot be used with table";
                         errhint := None |}
           else if non_null (query c4)
           then ERROR {| errcode := ERRCODE_SYNTAX_ERROR;
                         errmsg := "conflicting or redundant options: query ("
                                   +:+ defGetString def +:+ ")";
                         errhint := None |}
           else OK (set_tablename c4 (defGetString def))
         else OK c4) ;;
  c6 <- (if strcmp (defname def) "table" =? 0 then
           if non_null (query c5)
           then ERROR {| errcode := ERRCODE_SYNTAX_ERROR;
                         errmsg := "conflicting options: query cannot be used with query";
                         errhint := None |}
           else if non_null (tablename c5)
           then ERROR (redundant ERRCODE_FDW_INVALID_OPTION_NAME "table" def)
           else OK (set_tablename c5 (defGetString def))
         else OK c5) ;;
  c7 <- (if strcmp (defname def) "estimated_rows" =? 0 then
           let val := defGetString def in
           let '(f, used) := strtof libc val in
           let c := set_estimated_rows c6 f in
           if (used =? 0)%nat && float_lt0 (estimated_rows (planData c))
           then ERROR {| errcode := ERRCODE_SYNTAX_ERROR;
                         errmsg := dquote +:+ val +:+ dquote
                           +:+ " is not a valid number for parameter "
                           +:+ dquote +:+ "estimated_rows" +:+ dquote;
                         errhint := None |}
           else OK c
         else OK c6) ;;
  (if strcmp (defname def) "connection_costs" =? 0 then
     let val := defGetString def in
     let '(f, used) := strtof libc val in
     let c := set_connection_costs c7 f in
     if (used =? 0)%nat && float_lt0 (connection_costs (planData c))
     then ERROR {| errcode := ERRCODE_SYNTAX_ERROR;
                   errmsg := dquote +:+ val +:+ dquote
                     +:+ " is not a valid number for parameter "
                     +:+ dquote +:+ "estimated_rows" +:+ dquote;
                   errhint := None |}
     else OK c
   else OK c7).

(** The catalogs an option may belong to (pg_foreign_server, pg_user_mapping,
    pg_foreign_table). *)
Definition ForeignServerRelationId : Oid := 1417.
Definition UserMappingRelationId : Oid := 1418.
Definition ForeignTableRelationId : Oid := 3118.

(** [ifx_valid_options], without the terminating NULL entry. *)
Definition ifx_valid_options : list (string * Oid) :=
  [ ("informixserver",   ForeignServerRelationId);
    ("user",             UserMappingRelationId);
    ("password",         UserMappingRelationId);
    ("database",         ForeignTableRelationId);
    ("query",            ForeignTableRelationId);
    ("table",            ForeignTableRelationId);
    ("estimated_rows",   ForeignTableRelationId);
    ("connection_costs", ForeignTableRelationId) ].

(** [ifxIsValidOption]: the loop compares each entry's name with itself. *)
Fixpoint ifxIsValidOption_from (opts : list (string * Oid))
    (option : string) (context : Oid) : bool :=
  match opts with
  | [] => false
  | (optname, optcontext) :: rest =>
    if (context =? optcontext) && (strcmp optname optname =? 0) then true
    else ifxIsValidOption_from rest option context
  end.

Definition ifxIsValidOption (option : string) (context : Oid) : bool :=
  ifxIsValidOption_from ifx_valid_options option context.

Fixpoint ifxFdwOptionsToStringBuf_from (opts : list (string * Oid))
    (context : Oid) (buf : string) : string :=
  match opts with
  | [] => buf
  | (optname, optcontext) :: rest =>
    let buf' :=
      if context =? optcontext then
        buf +:+ (if (0 <? String.length buf)%nat then "," else "") +:+ optname
      else buf in
    ifxFdwOptionsToStringBuf_from rest context buf'
  end.

Definition ifxFdwOptionsToStringBuf (context : Oid) : string :=
  ifxFdwOptionsToStringBuf_from ifx_valid_options context EmptyString.

Fixpoint ifx_fdw_validator_from (libc : Libc) (options : list DefElem)
    (catalogOid : Oid) (coninfo : IfxConnectionInfo) : result unit :=
  match options with
  | [] => OK tt
  | def :: rest =>
    if negb (ifxIsValidOption (defname def) catalogOid) then
      let buf := ifxFdwOptionsToStringBuf catalogOid in
      ERROR {| errcode := ERRCODE_FDW_INVALID_OPTION_NAME;
               errmsg := "invalid option " +:+ dquote +:+ defname def +:+ dquote;
               errhint := Some ("Valid options in this context are: "
                                +:+ (if (0 <? String.length buf)%nat then buf
                                    else "<none>")) |}
    else
      coninfo' <- ifxGetOptionDups libc coninfo def ;;
      ifx_fdw_validator_from libc rest catalogOid coninfo'
  end.

(** [ifx_fdw_validator(options, catalog)] *)
Definition ifx_fdw_validator (libc : Libc) (ifx_options_list : list DefElem)
    (catalogOid : Oid) : result unit :=
  ifx_fdw_validator_from libc ifx_options_list catalogOid coninfo_zero.

(** *** Statement and cursor names *)

(** [snprintf(dst, size, format, ...)] called with a string literal for
    [dst]: whatever is printed, a call with a size other than 0 stores at
    least the terminating NUL, and a string literal may not be stored
    into. *)
Definition snprintf_into_literal (literal : string) (size : nat)
    (format : string) (args : list Z) : result unit :=
  if (0 <? size)%nat then FAULT ReadOnlyWrite else OK tt.

(** [ifxGenStatementName]: the buffer is allocated and zeroed; the
    [snprintf] call then names the format literal as its destination, the
    length as its size and the connection name as its format. *)
Definition ifxGenStatementName (coninfo : IfxConnectionInfo)
    (MyBackendId : Z) : result (list ascii) :=
  let stmt_name_len := (strlen (conname coninfo) + 10)%nat in
  let stmt_name := replicate (stmt_name_len + 1) NUL in
  printed <- snprintf_into_literal "%s_%d" stmt_name_len (conname coninfo)
                                   [MyBackendId] ;;
  OK stmt_name.

(** [ifxGenCursorName]: the same, with the literal of the cursor format. *)
Definition ifxGenCursorName (coninfo : IfxConnectionInfo)
    (MyBackendId : Z) : result (list ascii) :=
  let len := (strlen (conname coninfo) + 10)%nat in
  let cursor_name := replicate (len + 1) NUL in
  printed <- snprintf_into_literal "%s_%d_cur" len (conname coninfo)
                                   [MyBackendId] ;;
  OK cursor_name.

(** The two identifiers [ifxBeginForeignScan] stores in the statement info,
    the statement name first.  [cached] is the entry of the connection cache
    the scan is bound to; the generators are called with the connection info
    alone. *)
Definition ifxBeginForeignScan_names (cached : ConnCache.IfxCachedConnection)
    (coninfo : IfxConnectionInfo) (MyBackendId : Z)
  : result (list ascii * list ascii) :=
  stmt_name <- ifxGenStatementName coninfo MyBackendId ;;
  cursor_name <- ifxGenCursorName coninfo MyBackendId ;;
  OK (stmt_name, cursor_name).

(** *** Local column definitions *)

Record PgAttrDef : Type := mkPgAttrDef {
  attnum    : Z;
  atttypid  : Oid;
  atttypmod : Z;
  attname   : string
}.

(** A row of pg_attribute. *)
Record Form_pg_attribute : Type := mkAttr {
  pg_attnum       : Z;
  pg_atttypid     : Oid;
  pg_atttypmod    : Z;
  pg_attname      : string;
  pg_attisdropped : bool
}.

(** The loop of [ifxPgColumnData] over the rows of the catalog scan;
    [attrIndex] is the value before the increment. *)
Fixpoint ifxPgColumnData_loop (tuples : list Form_pg_attribute)
    (attrIndex : Z) (pgAttrCount : Z) (pgAttrDefs : list (ptr PgAttrDef))
  : result (list (ptr PgAttrDef)) :=
  match tuples with
  | [] => OK pgAttrDefs
  | attrTuple :: rest =>
    let attrIndex := attrIndex + 1 in
    if pg_attisdropped attrTuple then
      defs <- wr pgAttrDefs (attrIndex - 1) Null ;;
      ifxPgColumnData_loop rest attrIndex pgAttrCount defs
    else if attrIndex >=? pgAttrCount then
      ERROR (elog_ERROR "unexpected number of attributes in foreign table")
    else
      cell <- rd pgAttrDefs (attrIndex - 1) ;;
      match cell with
      | Wild => FAULT WildPointer
      | Null => FAULT NullPointer
      | Ptr _ =>
        defs <- wr pgAttrDefs (attrIndex - 1)
                   (Ptr {| attnum := pg_attnum attrTuple;
                           atttypid := pg_atttypid attrTuple;
                           atttypmod := pg_atttypmod attrTuple;
                           attname := pg_attname attrTuple |}) ;;
        ifxPgColumnData_loop rest attrIndex pgAttrCount defs
      end
  end.

(** [ifxPgColumnData].  [relnatts] is [RelationGetNumberOfAttributes] and
    [tuples] the rows the catalog scan returns.  The array is
    [palloc(sizeof(PgAttrDef) * (pgAttrCount + 1))] bytes of pointer cells:
    [cells_per_def] is how many pointers fit in one [PgAttrDef]. *)
Definition ifxPgColumnData (cells_per_def : nat) (relnatts : Z)
    (tuples : list Form_pg_attribute) : result (Z * list (ptr PgAttrDef)) :=
  let pgAttrCount := relnatts in
  let pgAttrDefs := replicate (Z.to_nat (pgAttrCount + 1) * cells_per_def) Wild in
  defs <- wr pgAttrDefs (pgAttrCount + 1) Null ;;
  defs' <- ifxPgColumnData_loop tuples 0 pgAttrCount defs ;;
  OK (pgAttrCount, defs').

(** *** Row iteration *)

Abbreviation Datum := Z (only parsing).

(** [PointerGetDatum(NULL)] *)
Definition NullDatum : Datum := 0.
Definition Int32GetDatum (v : Z) : Datum := v.

(** The Informix type ids the file names, and the others by their number. *)
Inductive IfxSourceType : Type :=
| IFX_INTEGER
| IFX_SERIAL
| IFX_TYPE_OTHER (id : Z).

Inductive IfxIndicatorValue : Type :=
| INDICATOR_NULL
| INDICATOR_NOT_NULL.

Record IfxAttrDef : Type := mkIfxAttrDef {
  type      : IfxSourceType;
  indicator : IfxIndicatorValue
}.

Record IfxValue : Type := mkIfxValue {
  val : Datum;
  def : option IfxAttrDef
}.

Inductive IfxSqlStateClass : Type :=
| IFX_SUCCESS
| IFX_RT_ERROR
| IFX_WARNING
| IFX_ERROR
| IFX_NOT_FOUND
| IFX_CONNECTION_OK
| IFX_CONNECTION_WARN
| IFX_CONNECTION_ERROR.

Definition is_not_found (c : IfxSqlStateClass) : bool :=
  match c with IFX_NOT_FOUND => true | _ => false end.

(** The statement info: the column count and descriptors of the remote
    result set, and the handle of the remote cursor with its current row. *)
Record IfxStatementInfo (Cursor : Type) : Type := mkStmtInfo {
  ifxAttrCount : Z;
  ifxAttrDefs  : list IfxAttrDef;
  cursor       : Cursor
}.
Arguments ifxAttrCount {Cursor} _.
Arguments ifxAttrDefs {Cursor} _.
Arguments cursor {Cursor} _.
Arguments mkStmtInfo {Cursor} _ _ _.

(** The execution state of a scan.  [pgAttrDefs] is the array of pointers
    [ifxPgColumnData] fills, NULL for a dropped column.  A cell of [values]
    is a pointer to an [IfxValue]: [Some v] when it points at one that holds
    [v], [None] when it points at none, as [palloc] and the NULL terminator
    leave it. *)
Record IfxFdwExecutionState (Cursor : Type) : Type := mkState {
  stmt_info   : IfxStatementInfo Cursor;
  pgAttrCount : Z;
  pgAttrDefs  : list (ptr PgAttrDef);
  values      : list (option IfxValue)
}.
Arguments stmt_info {Cursor} _.
Arguments pgAttrCount {Cursor} _.
Arguments pgAttrDefs {Cursor} _.
Arguments values {Cursor} _.
Arguments mkState {Cursor} _ _ _ _.

(** The embedded-SQL calls of the file (ifx_connection.ec): fetching the
    next row, classifying the SQLSTATE it left, and reading an integer
    column of the current row by its 1-based position. *)
Record Esql (Cursor : Type) : Type := mkEsql {
  ifxFetchRowFromCursor : IfxStatementInfo Cursor -> IfxStatementInfo Cursor;
  ifxSetException : IfxStatementInfo Cursor
                    -> IfxSqlStateClass * IfxStatementInfo Cursor;
  ifxGetInt : IfxStatementInfo Cursor -> Z -> Z
}.
Arguments ifxFetchRowFromCursor {Cursor} _ _.
Arguments ifxSetException {Cursor} _ _.
Arguments ifxGetInt {Cursor} _ _ _.

(** The part of a [TupleTableSlot] the scan fills.  A cell of [tts_values]
    or [tts_isnull] is [None] until something is stored in it. *)
Record TupleTableSlot : Type := mkSlot {
  tts_isempty : bool;
  tts_nvalid  : Z;
  tts_values  : list (option Datum);
  tts_isnull  : list (option bool)
}.

Definition with_values {Cursor : Type} (state : IfxFdwExecutionState Cursor)
    (v : list (option IfxValue)) : IfxFdwExecutionState Cursor :=
  {| stmt_info := stmt_info state; pgAttrCount := pgAttrCount state;
     pgAttrDefs := pgAttrDefs state; values := v |}.

Definition with_stmt_info {Cursor : Type} (state : IfxFdwExecutionState Cursor)
    (si : IfxStatementInfo Cursor) : IfxFdwExecutionState Cursor :=
  {| stmt_info := si; pgAttrCount := pgAttrCount state;
     pgAttrDefs := pgAttrDefs state; values := values state |}.

(** [tupleSlot->tts_isnull[i] = b; tupleSlot->tts_values[i] = d;] *)
Definition slot_store (slot : TupleTableSlot) (i : Z) (b : bool) (d : Datum)
  : result TupleTableSlot :=
  nulls <- wr (tts_isnull slot) i (Some b) ;;
  vals <- wr (tts_values slot) i (Some d) ;;
  OK {| tts_isempty := tts_isempty slot; tts_nvalid := tts_nvalid slot;
        tts_values := vals; tts_isnull := nulls |}.

(** [ifxColumnValueByAttNum(state, attnum)]: the value and the descriptor
    are stored through the pointer in [values[attnum - 1]]. *)
Definition ifxColumnValueByAttNum {Cursor : Type} (api : Esql Cursor)
    (state : IfxFdwExecutionState Cursor) (attnum : Z)
  : result (IfxFdwExecutionState Cursor) :=
  d <- rd (ifxAttrDefs (stmt_info state)) (attnum - 1) ;;
  match type d with
  | IFX_INTEGER | IFX_SERIAL =>
    let v := Int32GetDatum (ifxGetInt api (stmt_info state) attnum) in
    cell <- rd (values state) (attnum - 1) ;;
    match cell with
    | None => FAULT NullPointer
    | Some _ =>
      d' <- rd (ifxAttrDefs (stmt_info state)) (attnum - 1) ;;
      vals <- wr (values state) (attnum - 1)
                 (Some {| val := v; def := Some d' |}) ;;
      OK (with_values state vals)
    end
  | IFX_TYPE_OTHER id =>
    ERROR (elog_ERROR (dquote +:+ "%d" +:+ dquote
                       +:+ " is not a known informix type id"))
  end.

(** The body of the [for] loop of [ifxIterateForeignScan], [fuel] more
    rounds from column [i]. *)
Fixpoint ifxIterateForeignScan_loop {Cursor : Type} (api : Esql Cursor)
    (fuel : nat) (i : Z) (state : IfxFdwExecutionState Cursor)
    (tupleSlot : TupleTableSlot)
  : result (TupleTableSlot * IfxFdwExecutionState Cursor) :=
  match fuel with
  | O => OK (tupleSlot, state)
  | S fuel' =>
    state1 <- ifxColumnValueByAttNum api state i ;;
    pgdef <- rd (pgAttrDefs state1) i ;;
    match pgdef with
    | Wild => FAULT WildPointer
    | Null =>
      slot1 <- slot_store tupleSlot i true NullDatum ;;
      ifxIterateForeignScan_loop api fuel' (i + 1) state1 slot1
    | Ptr _ =>
      ifxdef <- rd (ifxAttrDefs (stmt_info state1)) i ;;
      match indicator ifxdef with
      | INDICATOR_NULL =>
        slot1 <- slot_store tupleSlot i true NullDatum ;;
        ifxIterateForeignScan_loop api fuel' (i + 1) state1 slot1
      | INDICATOR_NOT_NULL =>
        cell <- rd (values state1) i ;;
        match cell with
        | None => FAULT NullPointer
        | Some v =>
          slot1 <- slot_store tupleSlot i false (val v) ;;
          ifxIterateForeignScan_loop api fuel' (i + 1) state1 slot1
        end
      end
    end
  end.

(** [ifxIterateForeignScan]: [state] is [node->fdw_state], [tupleSlot] is
    [node->ss.ss_ScanTupleSlot]; the loop runs for
    [i = 0; i < ifxAttrCount - 1; i++]. *)
Definition ifxIterateForeignScan {Cursor : Type} (api : Esql Cursor)
    (state : IfxFdwExecutionState Cursor) (tupleSlot : TupleTableSlot)
  : result (TupleTableSlot * IfxFdwExecutionState Cursor) :=
  let fetched := ifxFetchRowFromCursor api (stmt_info state) in
  let '(errclass, si) := ifxSetException api fetched in
  let state := with_stmt_info state si in
  if is_not_found errclass then
    OK ({| tts_isempty := true; tts_nvalid := 0;
           tts_values := tts_values tupleSlot;
           tts_isnull := tts_isnull tupleSlot |}, state)
  else
    let n := ifxAttrCount (stmt_info state) in
    let state := with_values state (replicate (Z.to_nat n) None ++ [None]) in
    let slot := {| tts_isempty := false; tts_nvalid := n;
                   tts_values := replicate (Z.to_nat n) None;
                   tts_isnull := replicate (Z.to_nat n) None |} in
    ifxIterateForeignScan_loop api (Z.to_nat (n - 1)) 0 state slot.

(** *** Inputs used in the statements about the scan *)

(** A remote side whose fetch succeeds and whose integer columns all hold
    42. *)
Definition demo_api : Esql unit :=
  {| ifxFetchRowFromCursor := fun si => si;
     ifxSetException := fun si => (IFX_SUCCESS, si);
     ifxGetInt := fun _ _ => 42 |}.

Definition int_column : IfxAttrDef :=
  {| type := IFX_INTEGER; indicator := INDICATOR_NOT_NULL |}.

(** A dropped column as pg_attribute lists it. *)
Definition dropped_column (n : Z) : Form_pg_attribute :=
  {| pg_attnum := n; pg_atttypid := 0; pg_atttypmod := -1;
     pg_attname := "........pg.dropped........"; pg_attisdropped := true |}.

(** The execution state of a scan whose remote result set has the columns
    [remote] and whose local columns are [local]. *)
Definition scan_state (remote : list IfxAttrDef) (relnatts : Z)
    (local : list (ptr PgAttrDef)) : IfxFdwExecutionState unit :=
  {| stmt_info := {| ifxAttrCount := Z.of_nat (length remote);
                     ifxAttrDefs := remote; cursor := tt |};
     pgAttrCount := relnatts;
     pgAttrDefs := local;
     values := [] |}.

(** A slot before the first row. *)
Definition fresh_slot : TupleTableSlot :=
  {| tts_isempty := true; tts_nvalid := 0; tts_values := []; tts_isnull := [] |}.

(** A libc whose [strtof] reads nothing. *)
Definition demo_libc : Libc :=
  {| strtof := fun _ => (FZero, 0%nat) |}.

(** *** Reading the options *)

Definition set_query (c : IfxConnectionInfo) (v : string) :=
  {| conname := conname c; servername := servername c; database := database c;
     username := username c; password := password c; query := Some v;
     tablename := tablename c; planData := planData c |}.
Definition set_conname (c : IfxConnectionInfo) (v : string) :=
  {| conname := v; servername := servername c; database := database c;
     username := username c; password := password c; query := query c;
     tablename := tablename c; planData := planData c |}.

(** One round of the [foreach] loop of [ifxGetOptions]: the eight
    [if (strcmp(def->defname, ...) == 0)] blocks in the order of the file.
    [strtof] is called with a NULL end pointer. *)
Definition ifxGetOptions_round (libc : Libc) (coninfo : IfxConnectionInfo)
    (def : DefElem) : IfxConnectionInfo :=
  let c1 := if strcmp (defname def) "informixserver" =? 0
            then set_servername coninfo (defGetString def) else coninfo in
  let c2 := if strcmp (defname def) "database" =? 0
            then set_database c1 (defGetString def) else c1 in
  let c3 := if strcmp (defname def) "username" =? 0
            then set_username c2 (defGetString def) else c2 in
  let c4 := if strcmp (defname def) "password" =? 0
            then set_password c3 (defGetString def) else c3 in
  let c5 := if strcmp (defname def) "table" =? 0
            then set_tablename c4 (defGetString def) else c4 in
  let c6 := if strcmp (defname def) "query" =? 0
            then set_query c5 (defGetString def) else c5 in
  let c7 := if strcmp (defname def) "estimated_rows" =? 0
            then set_estimated_rows c6 (fst (strtof libc (defGetString def)))
            else c6 in
  if strcmp (defname def) "connection_costs" =? 0
  then set_connection_costs c7 (fst (strtof libc (defGetString def)))
  else c7.

(** [ifxGetOptions].  [coninfo] is the caller's struct as it is handed in;
    the three lists are the options of the foreign table, of its server and
    of the user mapping, which the function concatenates in this order. *)
Definition ifxGetOptions (libc : Libc)
    (table_options server_options user_options : list DefElem)
    (coninfo : IfxConnectionInfo) : IfxConnectionInfo :=
  fold_left (ifxGetOptions_round libc)
            (table_options ++ server_options ++ user_options) coninfo.

(** [ifxGenerateConnName]: [appendStringInfo(buf, "%s-%s-%s", ...)].  A NULL
    pointer for a [%s] is read as a string. *)
Definition ifxGenerateConnName (coninfo : IfxConnectionInfo) : result string :=
  match username coninfo, database coninfo, servername coninfo with
  | Some u, Some d, Some s => OK (u +:+ "-" +:+ d +:+ "-" +:+ s)
  | _, _, _ => FAULT NullPointer
  end.

(** [ifxGetDatabaseString]: ["%s@%s"]. *)
Definition ifxGetDatabaseString (coninfo : IfxConnectionInfo) : result string :=
  match database coninfo, servername coninfo with
  | Some d, Some s => OK (d +:+ "@" +:+ s)
  | _, _ => FAULT NullPointer
  end.

(** [ifxConnInfoSetDefaults]: both plan values become 100.0. *)
Definition ifxConnInfoSetDefaults (coninfo : IfxConnectionInfo)
  : IfxConnectionInfo :=
  set_connection_costs (set_estimated_rows coninfo FPositive) FPositive.

(** [ifxMakeConnectionInfo].  [palloced] is the struct as [palloc] hands it
    out: only [conname] is zeroed before the options are read.
    [IFX_CONNAME_LEN] is the constant of the header; [conname] has one
    character more. *)
Definition ifxMakeConnectionInfo (libc : Libc) (IFX_CONNAME_LEN : nat)
    (palloced : IfxConnectionInfo)
    (table_options server_options user_options : list DefElem)
  : result IfxConnectionInfo :=
  let zeroed := replicate (IFX_CONNAME_LEN + 1) NUL in
  let coninfo :=
    ifxGetOptions libc table_options server_options user_options palloced in
  name <- ifxGenerateConnName coninfo ;;
  match ConnCache.StrNCpy zeroed name IFX_CONNAME_LEN with
  | ConnCache.Done buf =>
    OK (ifxConnInfoSetDefaults (set_conname coninfo (cstring buf)))
  | ConnCache.Crash _ => FAULT OutOfBounds
  end.

(** *** The query of a scan *)

(** [snprintf(dst, size, "<text>%s", s)] of the C library: at most
    [size - 1] characters of the output are written, and a NUL after them;
    nothing is written when [size] is 0. *)
Definition snprintf_s (dst : list ascii) (size : nat) (text s : string)
  : result (list ascii) :=
  if (length dst <? size)%nat then FAULT OutOfBounds
  else
    match size with
    | O => OK dst
    | S n =>
      let out := take n (list_ascii_of_string (text +:+ s)) in
      OK (out ++ NUL :: drop (S (length out)) dst)
    end.

(** The query [ifxBeginForeignScan] stores in the statement info: the
    [query] option, or the text printed into a buffer of
    [strlen(tablename) + 15] bytes; [palloced] is that buffer as [palloc]
    hands it out. *)
Definition ifxBeginForeignScan_query (palloced : list ascii)
    (coninfo : IfxConnectionInfo) : result string :=
  match query coninfo with
  | Some q => OK q
  | None =>
    match tablename coninfo with
    | None => FAULT NullPointer
    | Some t =>
      let len := (strlen t + 15)%nat in
      buf <- snprintf_s palloced len "SELECT * FROM " t ;;
      OK (cstring buf)
    end
  end.

(** *** Vocabulary of the statements about the options *)

(** The option names [ifxGetOptionDups] looks at. *)
Definition checked_names : list string :=
  [ "servername"; "database"; "username"; "password"; "query"; "table";
    "estimated_rows"; "connection_costs" ].

(** The option names [ifxGetOptions] looks at. *)
Definition read_names : list string :=
  [ "informixserver"; "database"; "username"; "password"; "table"; "query";
    "estimated_rows"; "connection_costs" ].

(** The value of the last option of [options] named [name]. *)
Fixpoint last_value (name : string) (options : list DefElem) : option string :=
  match options with
  | [] => None
  | def :: rest =>
    match last_value name rest with
    | Some v => Some v
    | None => if String.eqb (defname def) name then Some (arg def) else None
    end
  end.

(** A pointer member after the options were read: the last value given for
    it, or what the member held before. *)
Definition read_member (name : string) (options : list DefElem)
    (before : option string) : option string :=
  match last_value name options with
  | Some v => Some v
  | None => before
  end.

(** The first [n] characters of a string. *)
Definition cut (n : nat) (s : string) : string :=
  string_of_list_ascii (take n (list_ascii_of_string s)).

Definition known_catalog (context : Oid) : Prop :=
  context = ForeignServerRelationId \/ context = UserMappingRelationId
  \/ context = ForeignTableRelationId.

(** A [strtof] as the C library specifies it, as far as the file can see:
    when no character is consumed the value is zero. *)
Definition strtof_zero_when_nothing_read (libc : Libc) : Prop :=
  forall s, snd (strtof libc s) = 0%nat -> fst (strtof libc s) = FZero.

(** A struct that [palloc] left with a stale pointer in each member. *)
Definition stale_coninfo : IfxConnectionInfo :=
  {| conname := "stale"; servername := Some "stale server";
     database := Some "stale database"; username := Some "stale user";
     password := Some "stale password"; query := Some "stale query";
     tablename := Some "stale table";
     planData := {| estimated_rows := FNaN; connection_costs := FNaN |} |}.

(** A cell of [pgAttrDefs] that points at no descriptor. *)
Definition no_descriptor (cell : ptr PgAttrDef) : Prop :=
  cell = Wild \/ cell = Null.

(** A remote side that reports a run-time error for every fetch. *)
Definition failing_api : Esql unit :=
  {| ifxFetchRowFromCursor := fun si => si;
     ifxSetException := fun si => (IFX_RT_ERROR, si);
     ifxGetInt := fun _ _ => 42 |}.

End Fdw.

(** ** ifx_conv.c: datum conversion *)

Module Conv.

(** Type OIDs of pg_type.h. *)
Definition InvalidOid : Oid := 0.
Definition BOOLOID : Oid := 16.
Definition BYTEAOID : Oid := 17.
Definition CHAROID : Oid := 18.
Definition INT8OID : Oid := 20.
Definition INT2OID : Oid := 21.
Definition INT4OID : Oid := 23.
Definition TEXTOID : Oid := 25.
Definition BPCHAROID : Oid := 1042.
Definition VARCHAROID : Oid := 1043.
Definition DATEOID : Oid := 1082.
Definition TIMESTAMPOID : Oid := 1114.
Definition TIMESTAMPTZOID : Oid := 1184.
Definition NUMERICOID : Oid := 1700.

(** [case a: case b: ...] over OIDs. *)
Definition oid_in (t : Oid) (labels : list Oid) : bool :=
  existsb (Z.eqb t) labels.

(** The Informix type ids the conversion routines name. *)
Inductive IfxSourceType : Type :=
| IFX_SMALLINT
| IFX_INTEGER
| IFX_SERIAL
| IFX_INT8
| IFX_SERIAL8
| IFX_INFX_INT8
| IFX_TYPE_OTHER (id : Z).

Definition is_IFX_SMALLINT (t : IfxSourceType) : bool :=
  match t with IFX_SMALLINT => true | _ => false end.
Definition is_IFX_INTEGER (t : IfxSourceType) : bool :=
  match t with IFX_INTEGER => true | _ => false end.
Definition is_IFX_SERIAL (t : IfxSourceType) : bool :=
  match t with IFX_SERIAL => true | _ => false end.
Definition is_IFX_INT8 (t : IfxSourceType) : bool :=
  match t with IFX_INT8 => true | _ => false end.
Definition is_IFX_SERIAL8 (t : IfxSourceType) : bool :=
  match t with IFX_SERIAL8 => true | _ => false end.
Definition is_IFX_INFX_INT8 (t : IfxSourceType) : bool :=
  match t with IFX_INFX_INT8 => true | _ => false end.

Inductive IfxIndicatorValue : Type :=
| INDICATOR_NULL
| INDICATOR_NOT_NULL
| INDICATOR_NOT_VALID.

Abbreviation regproc := Z (only parsing).

(** A [Datum] with the constructor that made it. *)
Inductive Datum : Type :=
| PointerNull                    (* PointerGetDatum(NULL) *)
| Int16Datum (v : Z)
| Int32Datum (v : Z)
| BoolDatum (v : Z)
| CharDatum (v : Z)
| ObjectIdDatum (o : Oid)
| CStringDatum (s : string)
| TextDatum (s : string)         (* cstring_to_text_with_len *)
| ByteaDatum (data : string)     (* a varlena filled by memcpy *)
| FmgrDatum (id : Z).            (* whatever a catalog function returned *)

Record IfxAttrDef : Type := mkIfxAttrDef {
  type      : IfxSourceType;
  indicator : IfxIndicatorValue
}.

Record PgAttrDef : Type := mkPgAttrDef {
  atttypid  : Oid;
  atttypmod : Z
}.

Record IfxValue : Type := mkIfxValue {
  val : Datum
}.

Record IfxStatementInfo : Type := mkStmtInfo {
  ifxAttrDefs : list IfxAttrDef
}.

Record IfxFdwExecutionState : Type := mkState {
  stmt_info  : IfxStatementInfo;
  pgAttrDefs : list PgAttrDef;
  values     : list IfxValue
}.

Record ErrorData : Type := mkError {
  errmsg  : string;
  errargs : list Z
}.

(** What the conversion code does that a caller can observe besides its
    result, in the order it happens. *)
Inductive event : Type :=
| EvRewind                                  (* ifxRewindCallstack(&state->stmt_info) *)
| EvElog (msg : string) (args : list Z)     (* elog(ERROR, ...) of this file *)
| EvReThrow                                 (* PG_RE_THROW() *)
| EvRemote (call : string) (column : Z)     (* a value read from the current row *)
| EvFmgr (fn : regproc).                    (* OidFunctionCallN *)

Inductive res (A : Type) : Type :=
| Ok (a : A)
| Raised (e : ErrorData)       (* left through elog/ereport *)
| Fault.                       (* an array index outside the array *)
Arguments Ok {A} a.
Arguments Raised {A} e.
Arguments Fault {A}.

(** A computation over the execution state that also lists its events. *)
Definition M (A : Type) : Type :=
  IfxFdwExecutionState -> res A * IfxFdwExecutionState * list event.

Definition ret {A : Type} (a : A) : M A := fun s => (Ok a, s, []).

Definition bind {A B : Type} (m : M A) (k : A -> M B) : M B :=
  fun s =>
    match m s with
    | (Ok a, s1, ev1) =>
      match k a s1 with (r, s2, ev2) => (r, s2, ev1 ++ ev2) end
    | (Raised e, s1, ev1) => (Raised e, s1, ev1)
    | (Fault, s1, ev1) => (Fault, s1, ev1)
    end.

Notation "x <- m ;; k" := (bind m (fun x => k))
  (at level 100, m at next level, right associativity).
Notation "m ;;; k" := (bind m (fun _ => k))
  (at level 100, right associativity).

Definition emit (e : event) : M unit := fun s => (Ok tt, s, [e]).
Definition get_state : M IfxFdwExecutionState := fun s => (Ok s, s, []).
Definition fault {A : Type} : M A := fun s => (Fault, s, []).

(** [ifxRewindCallstack(&(state->stmt_info))] *)
Definition ifxRewindCallstack : M unit := emit EvRewind.

(** [elog(ERROR, msg, args)] *)
Definition elog_ERROR {A : Type} (msg : string) (args : list Z) : M A :=
  fun s => (Raised {| errmsg := msg; errargs := args |}, s, [EvElog msg args]).

(** [PG_TRY(); { body } PG_CATCH(); { handler } PG_END_TRY();] *)
Definition PG_TRY {A : Type} (body : M A) (handler : ErrorData -> M A) : M A :=
  fun s =>
    match body s with
    | (Raised e, s1, ev1) =>
      match handler e s1 with (r, s2, ev2) => (r, s2, ev1 ++ ev2) end
    | other => other
    end.

Definition PG_RE_THROW {A : Type} (e : ErrorData) : M A :=
  fun s => (Raised e, s, [EvReThrow]).

(** The handler of every [PG_CATCH] block of the file. *)
Definition rewind_and_rethrow {A : Type} (e : ErrorData) : M A :=
  ifxRewindCallstack ;;; PG_RE_THROW e.

(** The system catalogs and the function manager, as the file calls them. *)
Record Form_pg_type : Type := mkPgType {
  typinput  : regproc;
  typoutput : regproc
}.

Record Catalog : Type := mkCatalog {
  SearchSysCache_TYPEOID : Oid -> option Form_pg_type;
  SearchSysCache_CASTSOURCETARGET : Oid -> Oid -> option regproc;
  fmgr : regproc -> list Datum -> Datum + ErrorData
}.

(** The current row of the remote cursor as the embedded-SQL layer
    (ifx_connection.ec) hands it out, by 0-based column; a [char *] result
    is [None] when the call returns NULL. *)
Record Esql : Type := mkEsql {
  ifxGetDateAsString      : IfxStatementInfo -> Z -> option string;
  ifxGetTimestampAsString : IfxStatementInfo -> Z -> option string;
  ifxGetDecimal           : IfxStatementInfo -> Z -> option string;
  ifxGetInt2              : IfxStatementInfo -> Z -> Z;
  ifxGetInt4              : IfxStatementInfo -> Z -> Z;
  ifxGetInt8              : IfxStatementInfo -> Z -> option string;
  ifxGetBigInt            : IfxStatementInfo -> Z -> option string;
  ifxGetBool              : IfxStatementInfo -> Z -> Z;
  ifxGetTextFromLocator   : IfxStatementInfo -> Z -> string * Z;
  ifxGetText              : IfxStatementInfo -> Z -> string
}.

(** What the routines are given besides the state: the catalogs, the
    current row, and the column mapping of the header. *)
Record Env : Type := mkEnv {
  catalog : Catalog;
  esql    : Esql;
  PG_MAPPED_IFX_ATTNUM : IfxFdwExecutionState -> Z -> Z
}.

(** [OidFunctionCall1/2/3(fn, args)]: the call is an event; an error raised
    inside the function leaves the caller. *)
Definition OidFunctionCall (env : Env) (fn : regproc) (args : list Datum)
  : M Datum :=
  fun s =>
    match fmgr (catalog env) fn args with
    | inl d => (Ok d, s, [EvFmgr fn])
    | inr e => (Raised e, s, [EvFmgr fn])
    end.

(** A value read from the current row. *)
Definition remote {A : Type} (call : string) (column : Z)
    (get : IfxStatementInfo -> Z -> A) : M A :=
  fun s => (Ok (get (stmt_info s) column), s, [EvRemote call column]).

(** Array cells of the state. *)
Definition pg_def (attnum : Z) : M PgAttrDef :=
  fun s =>
    match zidx (pgAttrDefs s) attnum with
    | Some d => (Ok d, s, [])
    | None => (Fault, s, [])
    end.

Definition ifx_def (column : Z) : M IfxAttrDef :=
  fun s =>
    match zidx (ifxAttrDefs (stmt_info s)) column with
    | Some d => (Ok d, s, [])
    | None => (Fault, s, [])
    end.

Definition set_indicator (column : Z) (ind : IfxIndicatorValue)
    (s : IfxFdwExecutionState) : option IfxFdwExecutionState :=
  match zidx (ifxAttrDefs (stmt_info s)) column with
  | Some d =>
    match zset (ifxAttrDefs (stmt_info s)) column
               {| type := type d; indicator := ind |} with
    | Some defs =>
      Some {| stmt_info := {| ifxAttrDefs := defs |};
              pgAttrDefs := pgAttrDefs s; values := values s |}
    | None => None
    end
  | None => None
  end.

Definition set_value (column : Z) (d : Datum)
    (s : IfxFdwExecutionState) : option IfxFdwExecutionState :=
  match zset (values s) column {| val := d |} with
  | Some vals =>
    Some {| stmt_info := stmt_info s; pgAttrDefs := pgAttrDefs s;
            values := vals |}
  | None => None
  end.

(** Modelled from the spec: the macro [PG_ATTRTYPE_P] of ifx_fdw.h, which is
    not among the sources; the type id of the local column [attnum]. *)
Definition PG_ATTRTYPE_P (attnum : Z) : M Oid :=
  d <- pg_def attnum ;; ret (atttypid d).

(** Modelled from the spec: the macro [PG_ATTRTYPEMOD_P] of ifx_fdw.h; the
    typemod of the local column [attnum]. *)
Definition PG_ATTRTYPEMOD_P (attnum : Z) : M Z :=
  d <- pg_def attnum ;; ret (atttypmod d).

(** Modelled from the spec: the macro [IFX_ATTRTYPE_P] of ifx_fdw.h; the
    remote type id of the column mapped to the local column [attnum]. *)
Definition IFX_ATTRTYPE_P (env : Env) (attnum : Z) : M IfxSourceType :=
  s <- get_state ;;
  d <- ifx_def (PG_MAPPED_IFX_ATTNUM env s attnum) ;; ret (type d).

(** Modelled from the spec: the macro [IFX_ATTR_SETNOTVALID_P] of ifx_fdw.h;
    it marks the attribute mapped to [attnum] as not convertible and changes
    nothing else. *)
Definition IFX_ATTR_SETNOTVALID_P (env : Env) (attnum : Z) : M unit :=
  fun s =>
    match set_indicator (PG_MAPPED_IFX_ATTNUM env s attnum)
                        INDICATOR_NOT_VALID s with
    | Some s' => (Ok tt, s', [])
    | None => (Fault, s, [])
    end.

(** Modelled from the spec: the macro [IFX_ATTR_ISNULL_P] of ifx_fdw.h; the
    indicator of the attribute mapped to [attnum] signals SQL NULL. *)
Definition IFX_ATTR_ISNULL_P (env : Env) (attnum : Z) : M bool :=
  s <- get_state ;;
  d <- ifx_def (PG_MAPPED_IFX_ATTNUM env s attnum) ;;
  ret (match indicator d with INDICATOR_NULL => true | _ => false end).

(** Modelled from the spec: the macro [IFX_ATTR_IS_VALID_P] of ifx_fdw.h;
    the attribute mapped to [attnum] is not marked as not convertible. *)
Definition IFX_ATTR_IS_VALID_P (env : Env) (attnum : Z) : M bool :=
  s <- get_state ;;
  d <- ifx_def (PG_MAPPED_IFX_ATTNUM env s attnum) ;;
  ret (match indicator d with INDICATOR_NOT_VALID => false | _ => true end).

(** Modelled from the spec: the macro [IFX_SETVAL_P] of ifx_fdw.h; it keeps
    a datum for the attribute mapped to [attnum]. *)
Definition IFX_SETVAL_P (env : Env) (attnum : Z) (d : Datum) : M unit :=
  fun s =>
    match set_value (PG_MAPPED_IFX_ATTNUM env s attnum) d s with
    | Some s' => (Ok tt, s', [])
    | None => (Fault, s, [])
    end.

(** Modelled from the spec: the macro [IFX_GETVAL_P] of ifx_fdw.h; the
    datum kept for the attribute mapped to [attnum]. *)
Definition IFX_GETVAL_P (env : Env) (attnum : Z) : M Datum :=
  fun s =>
    match zidx (values s) (PG_MAPPED_IFX_ATTNUM env s attnum) with
    | Some v => (Ok (val v), s, [])
    | None => (Fault, s, [])
    end.

(** The column of the current row mapped to [attnum]. *)
Definition mapped (env : Env) (attnum : Z) : M Z :=
  s <- get_state ;; ret (PG_MAPPED_IFX_ATTNUM env s attnum).

(** *** Catalog lookups *)

(** [getTypeOutputFunction] *)
Definition getTypeOutputFunction (env : Env) (inputOid : Oid) : M regproc :=
  match SearchSysCache_TYPEOID (catalog env) inputOid with
  | None =>
    ifxRewindCallstack ;;;
    elog_ERROR "cache lookup failed for output function for type %u" [inputOid]
  | Some type_tuple => ret (typoutput type_tuple)
  end.

(** [getTypeInputFunction] *)
Definition getTypeInputFunction (env : Env) (inputOid : Oid) : M regproc :=
  match SearchSysCache_TYPEOID (catalog env) inputOid with
  | None =>
    ifxRewindCallstack ;;;
    elog_ERROR "cache lookup failed for input function for type %u" [inputOid]
  | Some type_tuple => ret (typinput type_tuple)
  end.

(** [getTypeCastFunction] *)
Definition getTypeCastFunction (env : Env) (sourceOid targetOid : Oid)
  : M regproc :=
  match SearchSysCache_CASTSOURCETARGET (catalog env) sourceOid targetOid with
  | None =>
    ifxRewindCallstack ;;;
    elog_ERROR "cache lookup failed for cast from %u to %u" [sourceOid; targetOid]
  | Some castfunc => ret castfunc
  end.

(** *** Conversion routines *)

(** The three routines that read a formatted string and hand it to the type
    input function share their text but for the [case] labels and the
    remote call. *)
Definition convert_formatted_string (env : Env) (labels : list Oid)
    (call : string) (get : IfxStatementInfo -> Z -> option string)
    (attnum : Z) : M Datum :=
  let result := PointerNull in
  t <- PG_ATTRTYPE_P attnum ;;
  if oid_in t labels then
    let inputOid := t in
    column <- mapped env attnum ;;
    got <- remote call column get ;;
    match got with
    | None => ret result
    | Some val =>
      PG_TRY
        (typeinputfunc <- getTypeInputFunction env inputOid ;;
         typmod <- PG_ATTRTYPEMOD_P attnum ;;
         OidFunctionCall env typeinputfunc
           [CStringDatum val; ObjectIdDatum InvalidOid; Int32Datum typmod])
        rewind_and_rethrow
    end
  else
    IFX_ATTR_SETNOTVALID_P env attnum ;;;
    ret result.

(** [convertIfxDateString] *)
Definition convertIfxDateString (env : Env) (attnum : Z) : M Datum :=
  convert_formatted_string env [TEXTOID; VARCHAROID; BPCHAROID; DATEOID]
    "ifxGetDateAsString" (ifxGetDateAsString (esql env)) attnum.

(** [convertIfxTimestampString] *)
Definition convertIfxTimestampString (env : Env) (attnum : Z) : M Datum :=
  convert_formatted_string env
    [TEXTOID; VARCHAROID; BPCHAROID; TIMESTAMPOID; TIMESTAMPTZOID]
    "ifxGetTimestampAsString" (ifxGetTimestampAsString (esql env)) attnum.

(** [convertIfxDecimal] *)
Definition convertIfxDecimal (env : Env) (attnum : Z) : M Datum :=
  convert_formatted_string env [NUMERICOID]
    "ifxGetDecimal" (ifxGetDecimal (esql env)) attnum.

(** [convertIfxInt] *)
Definition convertIfxInt (env : Env) (attnum : Z) : M Datum :=
  pgdef <- pg_def attnum ;;
  if atttypid pgdef =? INT2OID then
    src <- IFX_ATTRTYPE_P env attnum ;;
    if negb (is_IFX_SMALLINT src) then
      IFX_ATTR_SETNOTVALID_P env attnum ;;;
      ret PointerNull
    else
      column <- mapped env attnum ;;
      val <- remote "ifxGetInt2" column (ifxGetInt2 (esql env)) ;;
      ret (Int16Datum val)
  else if atttypid pgdef =? INT4OID then
    src <- IFX_ATTRTYPE_P env attnum ;;
    if negb (is_IFX_SMALLINT src) && negb (is_IFX_INTEGER src)
       && negb (is_IFX_SERIAL src) then
      IFX_ATTR_SETNOTVALID_P env attnum ;;;
      ret PointerNull
    else
      column <- mapped env attnum ;;
      val <- remote "ifxGetInt4" column (ifxGetInt4 (esql env)) ;;
      ret (Int32Datum val)
  else if oid_in (atttypid pgdef) [INT8OID; TEXTOID; VARCHAROID; BPCHAROID] then
    PG_TRY
      (src <- IFX_ATTRTYPE_P env attnum ;;
       if is_IFX_INT8 src || is_IFX_SERIAL8 src || is_IFX_INFX_INT8 src then
         column <- mapped env attnum ;;
         buf <- match src with
                | IFX_INT8 | IFX_SERIAL8 =>
                  remote "ifxGetInt8" column (ifxGetInt8 (esql env))
                | IFX_INFX_INT8 =>
                  remote "ifxGetBigInt" column (ifxGetBigInt (esql env))
                | _ => ret None
                end ;;
         match buf with
         | None =>
           ifxRewindCallstack ;;;
           elog_ERROR "could not convert informix int8 value" []
         | Some text =>
           t <- PG_ATTRTYPE_P attnum ;;
           typinputfunc <- getTypeInputFunction env t ;;
           OidFunctionCall env typinputfunc
             [CStringDatum text; ObjectIdDatum InvalidOid]
         end
       else
         let sourceOid := if is_IFX_INTEGER src then INT4OID else INT2OID in
         t <- PG_ATTRTYPE_P attnum ;;
         typcastfunc <- getTypeCastFunction env sourceOid t ;;
         column <- mapped env attnum ;;
         if sourceOid =? INT4OID then
           val <- remote "ifxGetInt4" column (ifxGetInt4 (esql env)) ;;
           OidFunctionCall env typcastfunc [Int32Datum val]
         else
           val <- remote "ifxGetInt2" column (ifxGetInt2 (esql env)) ;;
           OidFunctionCall env typcastfunc [Int16Datum val])
      rewind_and_rethrow
  else
    IFX_ATTR_SETNOTVALID_P env attnum ;;;
    ret PointerNull.

(** [BoolGetDatum(X)] of postgres.h: [(X) ? 1 : 0]. *)
Definition BoolGetDatum (v : Z) : Datum :=
  BoolDatum (if v =? 0 then 0 else 1).

(** [convertIfxBoolean]: the value is read first, with [attnum] itself as
    the column. *)
Definition convertIfxBoolean (env : Env) (attnum : Z) : M Datum :=
  let result := PointerNull in
  val <- remote "ifxGetBool" attnum (ifxGetBool (esql env)) ;;
  t <- PG_ATTRTYPE_P attnum ;;
  if oid_in t [BOOLOID; CHAROID] then
    ret (BoolGetDatum val)
  else if oid_in t [TEXTOID; VARCHAROID; BPCHAROID] then
    let sourceOid := BOOLOID in
    let targetOid := t in
    typecastfunc <- getTypeCastFunction env sourceOid targetOid ;;
    OidFunctionCall env typecastfunc [CharDatum val]
  else
    IFX_ATTR_SETNOTVALID_P env attnum ;;;
    ret result.

(** [memcpy(VARDATA(binary_data), val, len)] into a zeroed varlena. *)
Definition bytea_of (val : string) (len : Z) : Datum :=
  ByteaDatum (string_of_list_ascii
                (take (Z.to_nat len)
                      (list_ascii_of_string val ++ replicate (Z.to_nat len) NUL))).

(** [convertIfxSimpleLO]: the inner [switch] has no [break], so the text
    labels run into the bytea block. *)
Definition convertIfxSimpleLO (env : Env) (attnum : Z) : M Datum :=
  let result := PointerNull in
  t <- PG_ATTRTYPE_P attnum ;;
  if oid_in t [TEXTOID; BPCHAROID; VARCHAROID; BYTEAOID] then
    let inputOid := t in
    column <- mapped env attnum ;;
    got <- remote "ifxGetTextFromLocator" column
                  (ifxGetTextFromLocator (esql env)) ;;
    let '(val, buf_size) := got in
    isnull <- IFX_ATTR_ISNULL_P env attnum ;;
    valid <- IFX_ATTR_IS_VALID_P env attnum ;;
    if isnull || negb valid then ret result
    else
      PG_TRY
        (typeinputfunc <- getTypeInputFunction env inputOid ;;
         text_result <-
           (if oid_in inputOid [TEXTOID; VARCHAROID; BPCHAROID] then
              typmod <- PG_ATTRTYPEMOD_P attnum ;;
              if negb (typmod =? -1) then
                OidFunctionCall env typeinputfunc
                  [CStringDatum val; ObjectIdDatum InvalidOid; Int32Datum typmod]
              else
                OidFunctionCall env typeinputfunc
                  [CStringDatum val; ObjectIdDatum InvalidOid]
            else ret result) ;;
         IFX_SETVAL_P env attnum (bytea_of val buf_size) ;;;
         IFX_GETVAL_P env attnum)
        rewind_and_rethrow
  else
    IFX_ATTR_SETNOTVALID_P env attnum ;;;
    ret result.

(** [convertIfxCharacterString] *)
Definition convertIfxCharacterString (env : Env) (attnum : Z) : M Datum :=
  pgdef <- pg_def attnum ;;
  if oid_in (atttypid pgdef) [TEXTOID; VARCHAROID; BPCHAROID; BYTEAOID] then
    column <- mapped env attnum ;;
    val <- remote "ifxGetText" column (ifxGetText (esql env)) ;;
    isnull <- IFX_ATTR_ISNULL_P env attnum ;;
    if isnull then ret PointerNull
    else if (atttypid pgdef =? TEXTOID) || (atttypid pgdef =? BYTEAOID)
            || ((atttypid pgdef =? VARCHAROID) && (atttypmod pgdef =? -1)) then
      t <- PG_ATTRTYPE_P attnum ;;
      if t =? TEXTOID then
        IFX_SETVAL_P env attnum (TextDatum val) ;;;
        IFX_GETVAL_P env attnum
      else
        IFX_SETVAL_P env attnum (bytea_of val (Z.of_nat (strlen val))) ;;;
        IFX_GETVAL_P env attnum
    else
      match SearchSysCache_TYPEOID (catalog env) (atttypid pgdef) with
      | None =>
        IFX_ATTR_SETNOTVALID_P env attnum ;;;
        ret PointerNull
      | Some conv_tuple =>
        PG_TRY
          (let typeinputfunc := typinput conv_tuple in
           OidFunctionCall env typeinputfunc
             [CStringDatum val; ObjectIdDatum InvalidOid;
              Int32Datum (atttypmod pgdef)])
          rewind_and_rethrow
      end
  else
    IFX_ATTR_SETNOTVALID_P env attnum ;;;
    ret PointerNull.

(** The remote-to-local conversion routines of the file. *)
Inductive routine : Type :=
| DateString
| TimestampString
| Decimal
| Int
| Boolean
| SimpleLO
| CharacterString.

Definition convert (r : routine) : Env -> Z -> M Datum :=
  match r with
  | DateString => convertIfxDateString
  | TimestampString => convertIfxTimestampString
  | Decimal => convertIfxDecimal
  | Int => convertIfxInt
  | Boolean => convertIfxBoolean
  | SimpleLO => convertIfxSimpleLO
  | CharacterString => convertIfxCharacterString
  end.

(** The compatibility table: which remote type may reach which local target
    type through which routine.  The rows are the [case] labels and the
    "accepts ..." comments of the routines. *)
Definition compatible (r : routine) (source : IfxSourceType) (target : Oid)
  : bool :=
  match r with
  | DateString => oid_in target [TEXTOID; VARCHAROID; BPCHAROID; DATEOID]
  | TimestampString =>
    oid_in target [TEXTOID; VARCHAROID; BPCHAROID; TIMESTAMPOID; TIMESTAMPTZOID]
  | Decimal => oid_in target [NUMERICOID]
  | Int =>
    match source with
    | IFX_SMALLINT =>
      oid_in target [INT2OID; INT4OID; INT8OID; TEXTOID; VARCHAROID; BPCHAROID]
    | IFX_INTEGER | IFX_SERIAL =>
      oid_in target [INT4OID; INT8OID; TEXTOID; VARCHAROID; BPCHAROID]
    | _ => oid_in target [INT8OID; TEXTOID; VARCHAROID; BPCHAROID]
    end
  | Boolean => oid_in target [BOOLOID; CHAROID; TEXTOID; VARCHAROID; BPCHAROID]
  | SimpleLO => oid_in target [TEXTOID; BPCHAROID; VARCHAROID; BYTEAOID]
  | CharacterString => oid_in target [TEXTOID; VARCHAROID; BPCHAROID; BYTEAOID]
  end.

(** The events a rejected conversion leaves: none, but for the value
    [convertIfxBoolean] reads before it looks at the target type. *)
Definition rejection_events (r : routine) (attnum : Z) : list event :=
  match r with
  | Boolean => [EvRemote "ifxGetBool" attnum]
  | _ => []
  end.

(** Every [elog] and every re-throw of a list of events has the rewind as
    the event just before it; [after_rewind] tells whether the event before
    the list was one. *)
Fixpoint rewind_first (after_rewind : bool) (evs : list event) : bool :=
  match evs with
  | [] => true
  | EvRewind :: rest => rewind_first true rest
  | EvElog _ _ :: rest => after_rewind && rewind_first false rest
  | EvReThrow :: rest => after_rewind && rewind_first false rest
  | _ :: rest => rewind_first false rest
  end.

(** A computation keeps the rewind first when the events of every run of
    it do. *)
Definition rewinds_first {A : Type} (m : M A) : Prop :=
  forall s, rewind_first false (snd (m s)) = true.

(** *** Inputs used in the statements about the conversions *)

(** A backend whose type cache knows no type and no cast, a current row of
    zeros and empty strings, and columns mapped to themselves. *)
Definition demo_env : Env :=
  {| catalog := {| SearchSysCache_TYPEOID := fun _ => None;
                   SearchSysCache_CASTSOURCETARGET := fun _ _ => None;
                   fmgr := fun fn _ => inl (FmgrDatum fn) |};
     esql := {| ifxGetDateAsString := fun _ _ => None;
                ifxGetTimestampAsString := fun _ _ => None;
                ifxGetDecimal := fun _ _ => None;
                ifxGetInt2 := fun _ _ => 0;
                ifxGetInt4 := fun _ _ => 0;
                ifxGetInt8 := fun _ _ => None;
                ifxGetBigInt := fun _ _ => None;
                ifxGetBool := fun _ _ => 0;
                ifxGetTextFromLocator := fun _ _ => (EmptyString, 0);
                ifxGetText := fun _ _ => "abc" |};
     PG_MAPPED_IFX_ATTNUM := fun _ attnum => attnum |}.

(** One column: remote type [source], local type [target]. *)
Definition one_column (source : IfxSourceType) (target : Oid) (typmod : Z)
  : IfxFdwExecutionState :=
  {| stmt_info :=
       {| ifxAttrDefs := [ {| type := source; indicator := INDICATOR_NOT_NULL |} ] |};
     pgAttrDefs := [ {| atttypid := target; atttypmod := typmod |} ];
     values := [ {| val := PointerNull |} ] |}.

(** The same backend over a row whose date column reads as a string. *)
Definition demo_env_with_date : Env :=
  {| catalog := catalog demo_env;
     esql := {| ifxGetDateAsString := fun _ _ => Some "2012-12-24";
                ifxGetTimestampAsString := fun _ _ => None;
                ifxGetDecimal := fun _ _ => None;
                ifxGetInt2 := fun _ _ => 0;
                ifxGetInt4 := fun _ _ => 0;
                ifxGetInt8 := fun _ _ => None;
                ifxGetBigInt := fun _ _ => None;
                ifxGetBool := fun _ _ => 0;
                ifxGetTextFromLocator := fun _ _ => (EmptyString, 0);
                ifxGetText := fun _ _ => "abc" |};
     PG_MAPPED_IFX_ATTNUM := fun _ attnum => attnum |}.

(** The state with the indicator of the attribute mapped to [attnum] set to
    [INDICATOR_NOT_VALID]. *)
Definition marked_not_valid (env : Env) (attnum : Z) (ad : IfxAttrDef)
    (s : IfxFdwExecutionState) : IfxFdwExecutionState :=
  {| stmt_info :=
       {| ifxAttrDefs :=
            <[Z.to_nat (PG_MAPPED_IFX_ATTNUM env s attnum) :=
                {| type := type ad; indicator := INDICATOR_NOT_VALID |}]>
              (ifxAttrDefs (stmt_info s)) |};
     pgAttrDefs := pgAttrDefs s; values := values s |}.

(** *** Vocabulary of the statements about single routines *)

(** The remote call of each of the three routines that read a formatted
    string. *)
Definition formatted_source (env : Env) (r : routine)
  : option (string * (IfxStatementInfo -> Z -> option string)) :=
  match r with
  | DateString => Some ("ifxGetDateAsString", ifxGetDateAsString (esql env))
  | TimestampString =>
    Some ("ifxGetTimestampAsString", ifxGetTimestampAsString (esql env))
  | Decimal => Some ("ifxGetDecimal", ifxGetDecimal (esql env))
  | _ => None
  end.

(** The state with [d] kept for the attribute mapped to [attnum]. *)
Definition with_value (env : Env) (attnum : Z) (d : Datum)
    (s : IfxFdwExecutionState) : IfxFdwExecutionState :=
  {| stmt_info := stmt_info s; pgAttrDefs := pgAttrDefs s;
     values := <[Z.to_nat (PG_MAPPED_IFX_ATTNUM env s attnum) :=
                   {| val := d |}]> (values s) |}.

(** The remote types [convertIfxInt] reads as a string of digits. *)
Definition is_eight_bytes (t : IfxSourceType) : bool :=
  is_IFX_INT8 t || is_IFX_SERIAL8 t || is_IFX_INFX_INT8 t.

(** A backend whose catalogs know every type and every cast and whose
    functions return normally, over a row with a value in every column. *)
Definition full_env : Env :=
  {| catalog := {| SearchSysCache_TYPEOID :=
                     fun t => Some {| typinput := t + 1000;
                                      typoutput := t + 2000 |};
                   SearchSysCache_CASTSOURCETARGET := fun s t => Some (s + t);
                   fmgr := fun fn _ => inl (FmgrDatum fn) |};
     esql := {| ifxGetDateAsString := fun _ _ => Some "2012-12-24";
                ifxGetTimestampAsString := fun _ _ => Some "2012-12-24 18:00:00";
                ifxGetDecimal := fun _ _ => Some "3.14";
                ifxGetInt2 := fun _ _ => 7;
                ifxGetInt4 := fun _ _ => 70000;
                ifxGetInt8 := fun _ _ => None;
                ifxGetBigInt := fun _ _ => None;
                ifxGetBool := fun _ column => column + 1;
                ifxGetTextFromLocator := fun _ _ => ("blob", 4);
                ifxGetText := fun _ _ => "abc" |};
     PG_MAPPED_IFX_ATTNUM := fun _ attnum => attnum |}.

(** The same backend over a row whose boolean columns all read as [v], with
    every local attribute mapped to the remote column five further on. *)
Definition shifted_env (v : Z) : Env :=
  {| catalog := catalog full_env;
     esql := {| ifxGetDateAsString := ifxGetDateAsString (esql full_env);
                ifxGetTimestampAsString :=
                  ifxGetTimestampAsString (esql full_env);
                ifxGetDecimal := ifxGetDecimal (esql full_env);
                ifxGetInt2 := ifxGetInt2 (esql full_env);
                ifxGetInt4 := ifxGetInt4 (esql full_env);
                ifxGetInt8 := ifxGetInt8 (esql full_env);
                ifxGetBigInt := ifxGetBigInt (esql full_env);
                ifxGetBool := fun _ _ => v;
                ifxGetTextFromLocator := ifxGetTextFromLocator (esql full_env);
                ifxGetText := ifxGetText (esql full_env) |};
     PG_MAPPED_IFX_ATTNUM := fun _ attnum => attnum + 5 |}.

(** The same backend with functions that all raise. *)
Definition raising_env : Env :=
  {| catalog := {| SearchSysCache_TYPEOID :=
                     SearchSysCache_TYPEOID (catalog full_env);
                   SearchSysCache_CASTSOURCETARGET :=
                     SearchSysCache_CASTSOURCETARGET (catalog full_env);
                   fmgr := fun _ _ => inr {| errmsg := "invalid input syntax";
                                             errargs := [] |} |};
     esql := esql full_env;
     PG_MAPPED_IFX_ATTNUM := fun _ attnum => attnum |}.

End Conv.

(** ** ifx_conv.c: predicate pushdown *)

Module Pushdown.

(** pg_namespace.h *)
Definition PG_CATALOG_NAMESPACE : Oid := 11.

Inductive BoolExprType : Type :=
| AND_EXPR
| OR_EXPR
| NOT_EXPR
| BOOLOP_OTHER (tag : Z).     (* any other value of the C enum *)

Inductive NullTestType : Type :=
| IS_NULL
| IS_NOT_NULL.

(** The expression nodes the walker tells apart; every other node tag is
    [T_Other]. *)
Inductive Node : Type :=
| T_Var (varno : Z) (varattno : Z) (varlevelsup : Z)
| T_Const (consttype : Oid) (constvalue : string)
| T_OpExpr (opno : Oid) (args : list Node)
| T_BoolExpr (boolop : BoolExprType) (args : list Node)
| T_NullTest (arg : Node) (nulltesttype : NullTestType) (argisrow : bool)
| T_Other (tag : Z).

Inductive IfxOprType : Type :=
| IFX_OPR_EQUAL
| IFX_OPR_NEQUAL
| IFX_OPR_LE
| IFX_OPR_LT
| IFX_OPR_GE
| IFX_OPR_GT
| IFX_OPR_LIKE
| IFX_OPR_AND
| IFX_OPR_OR
| IFX_OPR_NOT
| IFX_OPR_NOT_SUPPORTED
| IFX_IS_NULL
| IFX_IS_NOT_NULL
| IFX_OPR_UNKNOWN.

Definition is_not_supported (t : IfxOprType) : bool :=
  match t with IFX_OPR_NOT_SUPPORTED => true | _ => false end.

(** [IfxPushdownOprInfo]; [type] is [None] while nothing was stored in it
    since [palloc]. *)
Record IfxPushdownOprInfo : Type := mkInfo {
  type        : option IfxOprType;
  expr        : option Node;
  expr_string : option string
}.

Record IfxPushdownOprContext : Type := mkContext {
  foreign_relid : Oid;
  foreign_rtid  : Z;
  predicates    : list IfxPushdownOprInfo;
  count         : Z
}.

Inductive result (A : Type) : Type :=
| OK (a : A)
| ERROR (msg : string).          (* elog(ERROR, msg) *)
Arguments OK {A} a.
Arguments ERROR {A} msg.

Definition bind {A B : Type} (m : result A) (k : A -> result B) : result B :=
  match m with OK a => k a | ERROR e => ERROR e end.

Notation "x <- m ;; k" := (bind m (fun x => k))
  (at level 100, m at next level, right associativity).

(** A row of pg_operator. *)
Record Form_pg_operator : Type := mkOperator {
  oprname      : string;
  oprnamespace : Oid
}.

(** What the walker takes from the backend: the operator cache, the name of
    a relation, and the expression printer of ruleutils.c applied to the
    deparse context made for a relation name and id. *)
Record Backend : Type := mkBackend {
  SearchSysCache_OPEROID : Oid -> option Form_pg_operator;
  get_rel_name : Oid -> option string;
  deparse_expression : Node -> option string * Oid -> string
}.

Definition set_type (info : IfxPushdownOprInfo) (t : IfxOprType)
  : IfxPushdownOprInfo :=
  {| type := Some t; expr := expr info; expr_string := expr_string info |}.

Definition set_expr_string (info : IfxPushdownOprInfo) (text : string)
  : IfxPushdownOprInfo :=
  {| type := type info; expr := expr info; expr_string := Some text |}.

(** [mapPushdownOperator]: the operator type returned and [pushdownInfo]
    afterwards. *)
Definition mapPushdownOperator (be : Backend) (oprid : Oid)
    (pushdownInfo : IfxPushdownOprInfo)
  : result (IfxOprType * IfxPushdownOprInfo) :=
  match SearchSysCache_OPEROID be oprid with
  | None => ERROR "cache lookup failed for operator %u"
  | Some oprForm =>
    let oprname := oprname oprForm in
    if negb (oprnamespace oprForm =? PG_CATALOG_NAMESPACE) then
      OK (IFX_OPR_NOT_SUPPORTED, pushdownInfo)
    else if String.eqb oprname ">=" then
      OK (IFX_OPR_GE, set_type pushdownInfo IFX_OPR_GE)
    else if String.eqb oprname "<=" then
      OK (IFX_OPR_LE, set_type pushdownInfo IFX_OPR_LE)
    else if String.eqb oprname "<" then
      OK (IFX_OPR_LT, set_type pushdownInfo IFX_OPR_LT)
    else if String.eqb oprname ">" then
      OK (IFX_OPR_GT, set_type pushdownInfo IFX_OPR_GT)
    else if String.eqb oprname "=" then
      OK (IFX_OPR_EQUAL, set_type pushdownInfo IFX_OPR_EQUAL)
    else if String.eqb oprname "<>" then
      OK (IFX_OPR_NEQUAL, set_type pushdownInfo IFX_OPR_NEQUAL)
    else if String.eqb oprname "~~" then
      OK (IFX_OPR_LIKE, set_type pushdownInfo IFX_OPR_LIKE)
    else
      OK (IFX_OPR_NOT_SUPPORTED, set_type pushdownInfo IFX_OPR_NOT_SUPPORTED)
  end.

(** [make_deparse_context]: [deparse_context_for(get_rel_name(relid), relid)] *)
Definition make_deparse_context (be : Backend) (foreignRelid : Oid)
  : option string * Oid :=
  (get_rel_name be foreignRelid, foreignRelid).

(** [ChangeVarNodes(node, rt_index, new_index, 0)] of rewriteManip.c on the
    nodes above: a variable of the current query level with range-table
    index [rt_index] gets [new_index]. *)
Fixpoint ChangeVarNodes (node : Node) (rt_index new_index : Z) : Node :=
  match node with
  | T_Var varno varattno varlevelsup =>
    if (varlevelsup =? 0) && (varno =? rt_index)
    then T_Var new_index varattno varlevelsup
    else node
  | T_Const _ _ => node
  | T_OpExpr opno args =>
    T_OpExpr opno (List.map (fun a => ChangeVarNodes a rt_index new_index) args)
  | T_BoolExpr boolop args =>
    T_BoolExpr boolop (List.map (fun a => ChangeVarNodes a rt_index new_index) args)
  | T_NullTest arg nulltesttype argisrow =>
    T_NullTest (ChangeVarNodes arg rt_index new_index) nulltesttype argisrow
  | T_Other _ => node
  end.

(** [IFX_MARK_PREDICATE_ELEM] and [IFX_MARK_PREDICATE_BOOL]: [lappend] and
    [count++]. *)
Definition IFX_MARK_PREDICATE (info : IfxPushdownOprInfo)
    (context : IfxPushdownOprContext) : IfxPushdownOprContext :=
  {| foreign_relid := foreign_relid context;
     foreign_rtid := foreign_rtid context;
     predicates := predicates context ++ [info];
     count := count context + 1 |}.

(** [deparse_predicate_node]: [info] is the last element of the list of the
    context; its text is stored there. *)
Definition deparse_predicate_node (be : Backend) (node : Node)
    (context : IfxPushdownOprContext) (info : IfxPushdownOprInfo)
  : IfxPushdownOprInfo :=
  let copy_obj := node in
  let copy_obj := ChangeVarNodes copy_obj (foreign_rtid context) 1 in
  let dpc := make_deparse_context be (foreign_relid context) in
  set_expr_string info (deparse_expression be copy_obj dpc).

(** The operand test of the walker, for one operand of an [OpExpr]. *)
Definition operand_supported (context : IfxPushdownOprContext) (oprarg : Node)
  : bool :=
  match oprarg with
  | T_Var varno _ varlevelsup =>
    negb (negb (varno =? foreign_rtid context) || negb (varlevelsup =? 0))
  | T_Const _ _ => true
  | _ => false
  end.

(** The [foreach] over the operands: it stops at the first operand that is
    not supported. *)
Fixpoint operands_supported (context : IfxPushdownOprContext)
    (args : list Node) : bool :=
  match args with
  | [] => true
  | oprarg :: rest =>
    if operand_supported context oprarg then operands_supported context rest
    else false
  end.

(** The connective marker pushed between two operands of a [BoolExpr]. *)
Definition bool_marker (boolop : BoolExprType) : result IfxPushdownOprInfo :=
  match boolop with
  | AND_EXPR =>
    OK {| type := Some IFX_OPR_AND; expr := None; expr_string := Some "AND" |}
  | OR_EXPR =>
    OK {| type := Some IFX_OPR_OR; expr := None; expr_string := Some "OR" |}
  | NOT_EXPR =>
    OK {| type := Some IFX_OPR_NOT; expr := None; expr_string := Some "NOT" |}
  | BOOLOP_OTHER _ => ERROR "unsupported boolean expression type"
  end.

(** [ifx_predicate_tree_walker] on a node that is not NULL: the value
    returned and the context afterwards. *)
Fixpoint walk_node (be : Backend) (node : Node)
    (context : IfxPushdownOprContext) : result (bool * IfxPushdownOprContext) :=
  match node with
  | T_BoolExpr boolop args =>
    context' <-
      (fix foreach (cells : list Node) (context : IfxPushdownOprContext)
         : result IfxPushdownOprContext :=
         match cells with
         | [] => OK context
         | bool_arg :: next =>
           walked <- walk_node be bool_arg context ;;
           let context := snd walked in
           match next with
           | [] => foreach next context
           | _ :: _ =>
             info <- bool_marker boolop ;;
             foreach next (IFX_MARK_PREDICATE info context)
           end
         end) args context ;;
    OK (true, context')
  | T_NullTest arg nulltesttype argisrow =>
    let info := {| type := None; expr := Some node; expr_string := None |} in
    if argisrow then OK (true, context)
    else
      let info := match nulltesttype with
                  | IS_NULL => set_type info IFX_IS_NULL
                  | IS_NOT_NULL => set_type info IFX_IS_NOT_NULL
                  end in
      let operand_supported :=
        match arg with
        | T_Var varno _ varlevelsup =>
          negb (negb (varno =? foreign_rtid context) || negb (varlevelsup =? 0))
        | _ => false
        end in
      if negb operand_supported then OK (true, context)
      else
        let info := deparse_predicate_node be node
                      (IFX_MARK_PREDICATE info context) info in
        OK (false, IFX_MARK_PREDICATE info context)
  | T_OpExpr opno args =>
    let info := {| type := None; expr := Some node; expr_string := None |} in
    mapped <- mapPushdownOperator be opno info ;;
    let '(oprtype, info) := mapped in
    if negb (is_not_supported oprtype) then
      if negb (operands_supported context args) then OK (true, context)
      else
        let info := deparse_predicate_node be node
                      (IFX_MARK_PREDICATE info context) info in
        OK (false, IFX_MARK_PREDICATE info context)
    else OK (true, context)
  | _ => OK (false, context)
  end.

(** [ifx_predicate_tree_walker(node, context)]; [None] is the NULL node. *)
Definition ifx_predicate_tree_walker (be : Backend) (node : option Node)
    (context : IfxPushdownOprContext) : result (bool * IfxPushdownOprContext) :=
  match node with
  | None => OK (false, context)
  | Some n => walk_node be n context
  end.

(** The [foreach] loop of the walker over the operands of a [BoolExpr], as
    a function of its own. *)
Fixpoint walk_operands (be : Backend) (boolop : BoolExprType)
    (cells : list Node) (context : IfxPushdownOprContext)
  : result IfxPushdownOprContext :=
  match cells with
  | [] => OK context
  | bool_arg :: next =>
    walked <- walk_node be bool_arg context ;;
    let context := snd walked in
    match next with
    | [] => walk_operands be boolop next context
    | _ :: _ =>
      info <- bool_marker boolop ;;
      walk_operands be boolop next (IFX_MARK_PREDICATE info context)
    end
  end.

(** *** Vocabulary of the statements about the walker *)

(** The operator names that may be pushed down. *)
Definition pushdown_operator_names : list string :=
  [">="; "<="; "<"; ">"; "="; "<>"; "~~"].

(** An operand that may be pushed down: a column of the target relation of the
    current query level, or a constant. *)
Definition plain_operand (context : IfxPushdownOprContext) (oprarg : Node)
  : Prop :=
  (exists varattno, oprarg = T_Var (foreign_rtid context) varattno 0)
  \/ (exists consttype constvalue, oprarg = T_Const consttype constvalue).

(** The context with an empty list. *)
Definition reset (context : IfxPushdownOprContext) : IfxPushdownOprContext :=
  {| foreign_relid := foreign_relid context;
     foreign_rtid := foreign_rtid context;
     predicates := []; count := 0 |}.

(** The context with [infos] appended to its list. *)
Definition push_all (context : IfxPushdownOprContext)
    (infos : list IfxPushdownOprInfo) : IfxPushdownOprContext :=
  {| foreign_relid := foreign_relid context;
     foreign_rtid := foreign_rtid context;
     predicates := predicates context ++ infos;
     count := count context + Z.of_nat (length infos) |}.

(** What walking [node] appends, seen from an empty list. *)
Definition collected (be : Backend) (context : IfxPushdownOprContext)
    (node : Node) : result (list IfxPushdownOprInfo) :=
  match walk_node be node (reset context) with
  | OK (_, context') => OK (predicates context')
  | ERROR msg => ERROR msg
  end.

(** The lists of the operands in order, with [marker] between two
    neighbours. *)
Fixpoint interleave (marker : IfxPushdownOprInfo)
    (parts : list (list IfxPushdownOprInfo)) : list IfxPushdownOprInfo :=
  match parts with
  | [] => []
  | [last] => last
  | part :: rest => part ++ marker :: interleave marker rest
  end.

(** The fragment the walker appends for an accepted comparison or null
    test. *)
Definition fragment (be : Backend) (context : IfxPushdownOprContext)
    (tag : IfxOprType) (node : Node) : IfxPushdownOprInfo :=
  {| type := Some tag; expr := Some node;
     expr_string :=
       Some (deparse_expression be
               (ChangeVarNodes node (foreign_rtid context) 1)
               (get_rel_name be (foreign_relid context),
                foreign_relid context)) |}.

(** The operator type of a name of the list. *)
Definition operator_tag (name : string) : IfxOprType :=
  if String.eqb name ">=" then IFX_OPR_GE
  else if String.eqb name "<=" then IFX_OPR_LE
  else if String.eqb name "<" then IFX_OPR_LT
  else if String.eqb name ">" then IFX_OPR_GT
  else if String.eqb name "=" then IFX_OPR_EQUAL
  else if String.eqb name "<>" then IFX_OPR_NEQUAL
  else if String.eqb name "~~" then IFX_OPR_LIKE
  else IFX_OPR_NOT_SUPPORTED.

(** What a comparison must satisfy to be pushed down. *)
Definition accepted_comparison (context : IfxPushdownOprContext)
    (opr : Form_pg_operator) (args : list Node) : Prop :=
  In (oprname opr) pushdown_operator_names
  /\ oprnamespace opr = PG_CATALOG_NAMESPACE
  /\ Forall (plain_operand context) args.

(** What a walk yields does not depend on the list and the counter it
    starts from: it appends the same fragments to any list. *)
Definition appends (be : Backend) (node : Node) (relid rtid : Z)
    (r : result (bool * list IfxPushdownOprInfo)) : Prop :=
  forall preds cnt,
    walk_node be node {| foreign_relid := relid; foreign_rtid := rtid;
                         predicates := preds; count := cnt |}
    = match r with
      | OK (b, infos) =>
        OK (b, {| foreign_relid := relid; foreign_rtid := rtid;
                  predicates := preds ++ infos;
                  count := cnt + Z.of_nat (length infos) |})
      | ERROR msg => ERROR msg
      end.

(** *** Inputs used in the statements about the walker *)

(** pg_operator: 521 is [int4 > int4], 98 is [text = text]. *)
Definition int4gt : Oid := 521.
Definition texteq : Oid := 98.

(** [a > 5 AND b = 'x'] over the relation with range-table index [rtid];
    [a] and [b] are its first and second column. *)
Definition a_gt_5 (rtid : Z) : Node :=
  T_OpExpr int4gt [T_Var rtid 1 0; T_Const 23 "5"].
Definition b_eq_x (rtid : Z) : Node :=
  T_OpExpr texteq [T_Var rtid 2 0; T_Const 25 "'x'"].
Definition a_gt_5_and_b_eq_x (rtid : Z) : Node :=
  T_BoolExpr AND_EXPR [a_gt_5 rtid; b_eq_x rtid].

(** A printer for the nodes above: columns by position, constants by their
    text, an operator between its two operands. *)
Fixpoint print_node (node : Node) : string :=
  match node with
  | T_Var _ varattno _ =>
    if varattno =? 1 then "a" else if varattno =? 2 then "b" else "?column?"
  | T_Const _ constvalue => "(" +:+ constvalue +:+ ")"
  | T_OpExpr opno [l; r] =>
    "(" +:+ print_node l +:+
    (if opno =? int4gt then " > " else if opno =? texteq then " = " else " ? ")
    +:+ print_node r +:+ ")"
  | _ => "(...)"
  end.

Definition demo_backend : Backend :=
  {| SearchSysCache_OPEROID := fun oprid =>
       if oprid =? int4gt
       then Some {| oprname := ">"; oprnamespace := PG_CATALOG_NAMESPACE |}
       else if oprid =? texteq
       then Some {| oprname := "="; oprnamespace := PG_CATALOG_NAMESPACE |}
       else None;
     get_rel_name := fun _ => Some "customer";
     deparse_expression := fun node _ => print_node node |}.

Definition demo_context : IfxPushdownOprContext :=
  {| foreign_relid := 16384; foreign_rtid := 3; predicates := []; count := 0 |}.

End Pushdown.

(** * Properties *)

(** ** Arrays and integers *)

Lemma zidx_Some_range {A : Type} (a : list A) (i : Z) (x : A) :
  zidx a i = Some x -> 0 <= i < Z.of_nat (length a).
Proof.
  unfold zidx. destruct (Z.ltb_spec i 0) as [Hneg | Hpos]; [discriminate |].
  intros Hl. apply lookup_lt_Some in Hl. lia.
Qed.

Lemma zidx_negative {A : Type} (a : list A) (i : Z) :
  i < 0 -> zidx a i = None.
Proof.
  intros Hneg. unfold zidx. destruct (Z.ltb_spec i 0); [reflexivity | lia].
Qed.

Lemma wrap_int_small (z : Z) : - 2 ^ 31 <= z <= INT_MAX -> wrap_int z = z.
Proof.
  unfold wrap_int, INT_MAX. intros Hz.
  rewrite Z.mod_small; lia.
Qed.

(** ** The connection cache *)

Section ConnCacheFacts.
Import ConnCache.

Lemma usage_incr_below_max (item : IfxCachedConnection) :
  - INT_MAX - 1 <= con_usage item < INT_MAX ->
  usage_incr item = with_usage item (con_usage item + 1).
Proof.
  intros Hu. unfold usage_incr, with_usage.
  rewrite wrap_int_small; [reflexivity | unfold INT_MAX in *; lia].
Qed.

(** C3.  On an initialised cache, [ifxConnCache_add] for a connection name
    that is not cached creates the entry under that name: it reports
    [found = false], the entry holds the table id and the connection
    parameters of the caller, usage 1 and the three transaction counters 0,
    and the copies of the parameters are the only strings added to
    [TopMemoryContext].  For a name that is cached it reports [found = true]
    and returns the entry under the same name, copies nothing, and leaves the
    entry as it was but for the usage counter, which is one higher when
    [scan_mode] is [IFX_PLAN_SCAN]; with any other scan mode the whole
    backend state is as before. *)
Theorem ifxConnCache_add_creates_once_then_reuses :
  forall (oid : Z) (coninfo : IfxConnectionInfo) (b : Backend)
         (conns : gmap string IfxCachedConnection),
    connections b = Some conns ->
    (forall sn dir un db,
        conns !! conname coninfo = None ->
        servername coninfo = Some sn -> informixdir coninfo = Some dir ->
        username coninfo = Some un -> database coninfo = Some db ->
        let item := new_entry oid coninfo sn dir un db in
        ifxConnCache_add oid coninfo b =
          Done (conname coninfo, false,
                {| IfxCacheIsInitialized := IfxCacheIsInitialized b;
                   connections := Some (<[conname coninfo := item]> conns);
                   tables := tables b;
                   TopMemoryContext :=
                     TopMemoryContext b ++ copied coninfo sn dir un db |})
        /\ con_usage item = 1 /\ con_tx_in_progress item = 0
        /\ con_tx_num_commit item = 0 /\ con_tx_num_rollback item = 0)
    /\
    (forall item,
        conns !! conname coninfo = Some item ->
        - INT_MAX - 1 <= con_usage item < INT_MAX ->
        ifxConnCache_add oid coninfo b =
          Done (conname coninfo, true,
                if is_plan_scan (scan_mode coninfo) then
                  {| IfxCacheIsInitialized := IfxCacheIsInitialized b;
                     connections :=
                       Some (<[conname coninfo :=
                                 with_usage item (con_usage item + 1)]> conns);
                     tables := tables b;
                     TopMemoryContext := TopMemoryContext b |}
                else b)).
Proof.
  intros oid coninfo b conns Hinit. split.
  - intros sn dir un db Hnew Hsn Hdir Hun Hdb item.
    unfold ifxConnCache_add. rewrite Hinit, Hnew, Hsn, Hdir, Hun, Hdb.
    cbn [pstrdup bind]. unfold pstrdup_opt, copied.
    split; [| repeat split].
    subst item. unfold new_entry.
    destruct (db_locale coninfo), (client_locale coninfo); cbn;
      rewrite <- ?app_assoc; reflexivity.
  - intros item Hold Husage.
    unfold ifxConnCache_add. rewrite Hinit, Hold.
    destruct (is_plan_scan (scan_mode coninfo)); [| reflexivity].
    rewrite usage_incr_below_max by exact Husage. reflexivity.
Qed.

Lemma ifxConnCache_add_twice :
  let b0 := InformixCacheInit backend_start in
  let item := new_entry 16384 demo_coninfo "ol_srv" "/opt/informix" "bob" "stores" in
  let b1 := {| IfxCacheIsInitialized := true;
               connections := Some (<[conname demo_coninfo := item]> ∅);
               tables := Some ∅;
               TopMemoryContext :=
                 ["ol_srv"; "/opt/informix"; "bob"; "stores"; "en_US.utf8"] |} in
  ifxConnCache_add 16384 demo_coninfo b0
    = Done ("bob-stores-ol_srv", false, b1)
  /\ ifxConnCache_add 16399 demo_coninfo b1
    = Done ("bob-stores-ol_srv", true,
            {| IfxCacheIsInitialized := true;
               connections :=
                 Some (<[conname demo_coninfo := with_usage item 2]>
                         (<[conname demo_coninfo := item]> ∅));
               tables := Some ∅;
               TopMemoryContext :=
                 ["ol_srv"; "/opt/informix"; "bob"; "stores"; "en_US.utf8"] |}).
Proof.
  intros b0 item b1. split.
  - destruct (ifxConnCache_add_creates_once_then_reuses 16384 demo_coninfo b0 ∅
                eq_refl) as [Hnew _].
    destruct (Hnew "ol_srv" "/opt/informix" "bob" "stores"
                eq_refl eq_refl eq_refl eq_refl eq_refl) as [Hcall _].
    exact Hcall.
  - destruct (ifxConnCache_add_creates_once_then_reuses 16399 demo_coninfo b1
                (<[conname demo_coninfo := item]> ∅) eq_refl) as [_ Hold].
    apply (Hold item).
    + vm_compute. reflexivity.
    + vm_compute. split; [intros Hc; discriminate Hc | reflexivity].
Defined.

(** *** The foreign-table cache *)

Lemma length_list_ascii_of_string (s : string) :
  length (list_ascii_of_string s) = String.length s.
Proof. induction s as [| c s IH]; cbn; [reflexivity | now rewrite IH]. Qed.

Lemma cstring_stops_at_NUL (front rest : list ascii) :
  Forall (fun c => c <> NUL) front ->
  cstring (front ++ NUL :: rest) = string_of_list_ascii front.
Proof.
  induction 1 as [| c front Hc Hfront IH]; cbn.
  - reflexivity.
  - destruct (Ascii.eqb_spec c NUL) as [Heq | Hne]; [contradiction |].
    now rewrite IH.
Qed.

Lemma removelast_snoc {A : Type} (l : list A) (x : A) :
  removelast (l ++ [x]) = l.
Proof. apply removelast_last. Qed.

(** [StrNCpy(dst, src, strlen(src))] keeps all characters of [src] but the
    last one: [strncpy] writes the [strlen(src)] characters without a NUL,
    and the macro then puts the NUL on the last of them. *)
Lemma StrNCpy_with_strlen (dst : list ascii) (src : string) :
  (strlen src <= length dst)%nat ->
  nul_free src ->
  src <> EmptyString ->
  exists d, StrNCpy dst src (strlen src) = Done d
            /\ length d = length dst
            /\ cstring d = without_last_char src.
Proof.
  intros Hfit Hfree Hne. unfold StrNCpy, strncpy, strlen, without_last_char in *.
  unfold nul_free in Hfree.
  rewrite <- length_list_ascii_of_string in *.
  destruct (exists_last (l := list_ascii_of_string src)) as (front & c & Hsrc).
  { intros Hnil. apply Hne. destruct src; [reflexivity | discriminate Hnil]. }
  rewrite Hsrc in *. rewrite length_app in *. cbn [length] in *.
  replace (0 <? length front + 1)%nat with true
    by (symmetry; apply Nat.ltb_lt; lia).
  replace (length front + 1 <=? length dst)%nat with true
    by (symmetry; apply Nat.leb_le; lia).
  cbn [bind]. eexists. split; [reflexivity |].
  rewrite take_app_length' by (rewrite length_app; cbn; lia).
  replace (length front + 1 - 1)%nat with (length front) by lia.
  rewrite <- app_assoc. cbn [app].
  rewrite insert_app_r_alt by lia. rewrite Nat.sub_diag. cbn [insert list_insert].
  split.
  - rewrite !length_app. cbn [length]. rewrite length_drop. lia.
  - rewrite removelast_snoc. apply cstring_stops_at_NUL.
    apply Forall_app in Hfree. tauto.
Qed.

(** The part of the contract that holds: a table that is cached keeps its
    entry, whatever connection name a later call passes. *)
Lemma ifxFTCache_add_keeps_existing_entry
    (L : nat) (raw : list ascii) (oid : Z) (conname' : string) (b : Backend)
    (tbl : gmap Z IfxFTCacheItem) (item : IfxFTCacheItem) :
  tables b = Some tbl ->
  tbl !! oid = Some item ->
  ifxFTCache_add L raw oid conname' b = Done (oid, b).
Proof.
  intros Htbl Hold. unfold ifxFTCache_add. now rewrite Htbl, Hold.
Qed.

(** C5.  The first [ifxFTCache_add] for a table creates the entry with the
    table id, but the name it stores is the connection name without its
    last character: for every connection name with no NUL inside that is
    not empty and fits the member, the C string of [ifx_connection_name] is
    [without_last_char conname]. *)
Theorem ifxFTCache_add_stores_name_without_last_char :
  forall (L : nat) (raw : list ascii) (oid : Z) (conname : string)
         (b : Backend) (tbl : gmap Z IfxFTCacheItem),
    tables b = Some tbl ->
    tbl !! oid = None ->
    (L <= length raw)%nat ->
    (strlen conname <= length raw)%nat ->
    nul_free conname ->
    conname <> EmptyString ->
    exists item,
      ifxFTCache_add L raw oid conname b =
        Done (oid, {| IfxCacheIsInitialized := IfxCacheIsInitialized b;
                      connections := connections b;
                      tables := Some (<[oid := item]> tbl);
                      TopMemoryContext := TopMemoryContext b |})
      /\ foreignTableOid item = oid
      /\ cstring (ifx_connection_name item) = without_last_char conname.
Proof.
  intros L raw oid conname b tbl Htbl Hnew HL Hfit Hfree Hne.
  unfold ifxFTCache_add. rewrite Htbl, Hnew. unfold bzero.
  replace (L <=? length raw)%nat with true by (symmetry; apply Nat.leb_le; lia).
  cbn [bind].
  destruct (StrNCpy_with_strlen (replicate L NUL ++ drop L raw) conname)
    as (d & Hcopy & _ & Hname); [| assumption | assumption |].
  { rewrite length_app, length_replicate, length_drop. lia. }
  rewrite Hcopy. cbn [bind]. eexists. split; [reflexivity |].
  split; [reflexivity | exact Hname].
Qed.

Lemma ifxFTCache_add_abc :
  exists item,
    ifxFTCache_add 63 (replicate 64 "x"%char) 16384 "abc"
                   (InformixCacheInit backend_start) =
      Done (16384, {| IfxCacheIsInitialized := true;
                      connections := Some ∅;
                      tables := Some (<[16384 := item]> ∅);
                      TopMemoryContext := [] |})
    /\ foreignTableOid item = 16384
    /\ cstring (ifx_connection_name item) = "ab".
Proof.
  apply (ifxFTCache_add_stores_name_without_last_char 63 (replicate 64 "x"%char)
           16384 "abc" (InformixCacheInit backend_start) ∅).
  - reflexivity.
  - reflexivity.
  - cbn. lia.
  - cbn. lia.
  - unfold nul_free. cbn. repeat constructor; intros Hc; discriminate Hc.
  - intros Hc; discriminate Hc.
Defined.

End ConnCacheFacts.

(** ** Option validation *)

Section FdwFacts.
Import Fdw.

(** C9.  [ifx_fdw_validator] accepts a list that gives [username] twice: the
    check of the option looks at [coninfo->database], which is not set, so
    neither value is reported. *)
Theorem ifx_fdw_validator_accepts_username_twice :
  forall (libc : Libc) (first second : string),
    ifx_fdw_validator libc
      [ {| defname := "username"; arg := first |};
        {| defname := "username"; arg := second |} ]
      UserMappingRelationId
    = OK tt.
Proof. intros libc first second. reflexivity. Qed.

(** The sibling options are reported when given twice, each under its own
    name; [query] given twice is reported as a conflict with [table],
    because its value is stored in [tablename]. *)
Lemma ifx_fdw_validator_reports_other_duplicates :
  forall (libc : Libc) (v w : string),
    ifx_fdw_validator libc
      [ {| defname := "servername"; arg := v |};
        {| defname := "servername"; arg := w |} ] ForeignServerRelationId
    = ERROR {| errcode := ERRCODE_FDW_INVALID_OPTION_NAME;
               errmsg := "conflicting or redundant options: servername("
                         +:+ w +:+ ")";
               errhint := None |}
    /\ ifx_fdw_validator libc
         [ {| defname := "database"; arg := v |};
           {| defname := "database"; arg := w |} ] ForeignTableRelationId
       = ERROR {| errcode := ERRCODE_FDW_INVALID_OPTION_NAME;
                  errmsg := "conflicting or redundant options: database("
                            +:+ w +:+ ")";
                  errhint := None |}
    /\ ifx_fdw_validator libc
         [ {| defname := "password"; arg := v |};
           {| defname := "password"; arg := w |} ] UserMappingRelationId
       = ERROR {| errcode := ERRCODE_FDW_INVALID_OPTION_NAME;
                  errmsg := "conflicting or redundant options: password("
                            +:+ w +:+ ")";
                  errhint := None |}
    /\ ifx_fdw_validator libc
         [ {| defname := "table"; arg := v |};
           {| defname := "table"; arg := w |} ] ForeignTableRelationId
       = ERROR {| errcode := ERRCODE_FDW_INVALID_OPTION_NAME;
                  errmsg := "conflicting or redundant options: table("
                            +:+ w +:+ ")";
                  errhint := None |}
    /\ ifx_fdw_validator libc
         [ {| defname := "query"; arg := v |};
           {| defname := "query"; arg := w |} ] ForeignTableRelationId
       = ERROR {| errcode := ERRCODE_SYNTAX_ERROR;
                  errmsg := "conflicting options: query cannot be used with table";
                  errhint := None |}
    /\ ifx_fdw_validator libc
         [ {| defname := "table"; arg := v |};
           {| defname := "query"; arg := w |} ] ForeignTableRelationId
       = ERROR {| errcode := ERRCODE_SYNTAX_ERROR;
                  errmsg := "conflicting options: query cannot be used with table";
                  errhint := None |}.
Proof. intros libc v w. repeat split. Qed.

(** A user name given once after a database is reported as redundant. *)
Lemma ifx_fdw_validator_rejects_username_after_database :
  forall (libc : Libc) (db user : string),
    ifx_fdw_validator libc
      [ {| defname := "database"; arg := db |};
        {| defname := "username"; arg := user |} ] ForeignTableRelationId
    = ERROR {| errcode := ERRCODE_FDW_INVALID_OPTION_NAME;
               errmsg := "conflicting or redundant options: username("
                         +:+ user +:+ ")";
               errhint := None |}.
Proof. intros libc db user. reflexivity. Qed.

(** ** Statement and cursor names *)

(** C2.  No statement name and no cursor name is ever generated: for every
    connection info and backend id, and so for every session a scan is
    bound to and every value of its usage counter, [ifxGenStatementName] and
    [ifxGenCursorName] end in the store into their format literal, and with
    them the name generation of [ifxBeginForeignScan]. *)
Theorem scan_name_generators_store_into_their_literal :
  forall (coninfo : IfxConnectionInfo) (MyBackendId : Z)
         (cached : ConnCache.IfxCachedConnection),
    ifxGenStatementName coninfo MyBackendId = FAULT ReadOnlyWrite
    /\ ifxGenCursorName coninfo MyBackendId = FAULT ReadOnlyWrite
    /\ ifxBeginForeignScan_names cached coninfo MyBackendId
       = FAULT ReadOnlyWrite.
Proof.
  intros coninfo MyBackendId cached.
  assert (Hsize : forall n, (0 <? n + 10)%nat = true).
  { intros n. apply Nat.ltb_lt. lia. }
  assert (Hstmt : ifxGenStatementName coninfo MyBackendId = FAULT ReadOnlyWrite).
  { unfold ifxGenStatementName, snprintf_into_literal. now rewrite Hsize. }
  assert (Hcur : ifxGenCursorName coninfo MyBackendId = FAULT ReadOnlyWrite).
  { unfold ifxGenCursorName, snprintf_into_literal. now rewrite Hsize. }
  split; [exact Hstmt |]. split; [exact Hcur |].
  unfold ifxBeginForeignScan_names. now rewrite Hstmt.
Qed.

(** ** Row iteration *)

(** The attribute number 0 makes [ifxColumnValueByAttNum] read
    [ifxAttrDefs[-1]]. *)
Lemma ifxColumnValueByAttNum_zero
    {Cursor : Type} (api : Esql Cursor) (state : IfxFdwExecutionState Cursor) :
  ifxColumnValueByAttNum api state 0 = FAULT OutOfBounds.
Proof. reflexivity. Qed.

(** An attribute number between 1 and the column count stays inside
    [ifxAttrDefs]. *)
Lemma ifxColumnValueByAttNum_descriptor_in_range
    {Cursor : Type} (api : Esql Cursor) (state : IfxFdwExecutionState Cursor)
    (attnum : Z) :
  1 <= attnum <= Z.of_nat (length (ifxAttrDefs (stmt_info state))) ->
  exists d, rd (ifxAttrDefs (stmt_info state)) (attnum - 1) = OK d.
Proof.
  intros Hrange. unfold rd, zidx.
  destruct (Z.ltb_spec (attnum - 1) 0) as [Hneg | _]; [lia |].
  destruct (lookup_lt_is_Some_2 (ifxAttrDefs (stmt_info state))
              (Z.to_nat (attnum - 1))) as [d Hd]; [lia |].
  rewrite Hd. now exists d.
Qed.

(** C10.  When the fetch finds a row of two or more columns, the first
    attribute number [ifxIterateForeignScan] passes is 0, for which
    [ifxColumnValueByAttNum] reads [ifxAttrDefs[-1]]: the iteration ends in
    the out-of-bounds fault. *)
Theorem ifxIterateForeignScan_reads_before_the_descriptors :
  forall (Cursor : Type) (api : Esql Cursor)
         (state : IfxFdwExecutionState Cursor) (tupleSlot : TupleTableSlot)
         (errclass : IfxSqlStateClass) (si : IfxStatementInfo Cursor),
    ifxSetException api (ifxFetchRowFromCursor api (stmt_info state))
      = (errclass, si) ->
    is_not_found errclass = false ->
    2 <= ifxAttrCount si ->
    ifxIterateForeignScan api state tupleSlot = FAULT OutOfBounds.
Proof.
  intros Cursor api state tupleSlot errclass si Hfetch Hfound Hcount.
  unfold ifxIterateForeignScan. rewrite Hfetch, Hfound.
  cbn [with_stmt_info stmt_info].
  destruct (Z.to_nat (ifxAttrCount si - 1)) as [| fuel] eqn:Hfuel; [lia |].
  reflexivity.
Qed.

Lemma ifxIterateForeignScan_two_integer_columns :
  ifxIterateForeignScan demo_api
    (scan_state [int_column; int_column] 2 [Null; Null]) fresh_slot
  = FAULT OutOfBounds.
Proof.
  apply (ifxIterateForeignScan_reads_before_the_descriptors unit demo_api
           (scan_state [int_column; int_column] 2 [Null; Null]) fresh_slot
           IFX_SUCCESS
           (stmt_info (scan_state [int_column; int_column] 2 [Null; Null]))).
  - reflexivity.
  - reflexivity.
  - vm_compute. intros Hc; discriminate Hc.
Defined.

(** A row that [ifxIterateForeignScan] returns has no cell of [tts_isnull]
    or [tts_values] assigned: the loop stops one column early, and a result
    set of two or more columns does not get past its first column. *)
Lemma ifxIterateForeignScan_assigns_no_cell
    {Cursor : Type} (api : Esql Cursor) (state state' : IfxFdwExecutionState Cursor)
    (tupleSlot slot' : TupleTableSlot) :
  ifxIterateForeignScan api state tupleSlot = OK (slot', state') ->
  tts_isempty slot' = false ->
  tts_nvalid slot' = ifxAttrCount (stmt_info state')
  /\ tts_isnull slot' = replicate (Z.to_nat (tts_nvalid slot')) None
  /\ tts_values slot' = replicate (Z.to_nat (tts_nvalid slot')) None.
Proof.
  unfold ifxIterateForeignScan.
  destruct (ifxSetException api (ifxFetchRowFromCursor api (stmt_info state)))
    as [errclass si] eqn:Hfetch.
  destruct (is_not_found errclass) eqn:Hfound.
  - intros Hrow Hempty. injection Hrow as <- <-. discriminate Hempty.
  - cbn [with_stmt_info with_values stmt_info].
    destruct (Z.to_nat (ifxAttrCount si - 1)) as [| fuel] eqn:Hfuel.
    + cbn [ifxIterateForeignScan_loop]. intros Hrow _.
      injection Hrow as <- <-. cbn. repeat split.
    + intros Hrow. discriminate Hrow.
Qed.

(** C1.  For a local table whose only column is dropped and a remote result
    set of one column, the row [ifxIterateForeignScan] returns has one
    column and nothing stored for it, neither a value nor the null flag; for
    a local table of two dropped columns over the same result set the row
    has one column, not two.  The local column arrays are those
    [ifxPgColumnData] builds, with a [PgAttrDef] three pointers wide. *)
Theorem ifxIterateForeignScan_leaves_dropped_column_unassigned :
  ifxPgColumnData 3 1 [dropped_column 1]
    = OK (1, [Null; Wild; Null; Wild; Wild; Wild])
  /\ ifxIterateForeignScan demo_api
       (scan_state [int_column] 1 [Null; Wild; Null; Wild; Wild; Wild])
       fresh_slot
     = OK ({| tts_isempty := false; tts_nvalid := 1;
              tts_values := [None]; tts_isnull := [None] |},
           with_values
             (scan_state [int_column] 1 [Null; Wild; Null; Wild; Wild; Wild])
             [None; None])
  /\ ifxPgColumnData 3 2 [dropped_column 1; dropped_column 2]
     = OK (2, [Null; Null; Wild; Null; Wild; Wild; Wild; Wild; Wild])
  /\ ifxIterateForeignScan demo_api
       (scan_state [int_column] 2
          [Null; Null; Wild; Null; Wild; Wild; Wild; Wild; Wild])
       fresh_slot
     = OK ({| tts_isempty := false; tts_nvalid := 1;
              tts_values := [None]; tts_isnull := [None] |},
           with_values
             (scan_state [int_column] 2
                [Null; Null; Wild; Null; Wild; Wild; Wild; Wild; Wild])
             [None; None]).
Proof. repeat split. Qed.

End FdwFacts.

(** ** Conversion routines *)

Section ConvFacts.
Import Conv.

Lemma zset_of_zidx {A : Type} (a : list A) (i : Z) (x y : A) :
  zidx a i = Some x -> zset a i y = Some (<[Z.to_nat i := y]> a).
Proof.
  intros Hx. pose proof (zidx_Some_range a i x Hx) as Hr. unfold zset.
  destruct (Z.leb_spec 0 i); [| lia].
  destruct (Z.ltb_spec i (Z.of_nat (length a))); [reflexivity | lia].
Qed.

Lemma zidx_insert_same {A : Type} (a : list A) (i : Z) (x y : A) :
  zidx a i = Some x -> zidx (<[Z.to_nat i := y]> a) i = Some y.
Proof.
  intros Hx. pose proof (zidx_Some_range a i x Hx) as Hr. unfold zidx.
  destruct (Z.ltb_spec i 0); [lia |].
  apply list_lookup_insert_eq. lia.
Qed.

Lemma zidx_insert_other {A : Type} (a : list A) (i j : Z) (y : A) :
  0 <= i -> j <> i -> zidx (<[Z.to_nat i := y]> a) j = zidx a j.
Proof.
  intros Hi Hne. unfold zidx.
  destruct (Z.ltb_spec j 0); [reflexivity |].
  apply list_lookup_insert_ne. lia.
Qed.

Lemma IFX_ATTR_SETNOTVALID_P_in_range (env : Env) (attnum : Z)
    (s : IfxFdwExecutionState) (ad : IfxAttrDef) :
  zidx (ifxAttrDefs (stmt_info s)) (PG_MAPPED_IFX_ATTNUM env s attnum) = Some ad ->
  IFX_ATTR_SETNOTVALID_P env attnum s
  = (Ok tt,
     {| stmt_info :=
          {| ifxAttrDefs :=
               <[Z.to_nat (PG_MAPPED_IFX_ATTNUM env s attnum) :=
                   {| type := type ad; indicator := INDICATOR_NOT_VALID |}]>
                 (ifxAttrDefs (stmt_info s)) |};
        pgAttrDefs := pgAttrDefs s; values := values s |},
     []).
Proof.
  intros Had. unfold IFX_ATTR_SETNOTVALID_P, set_indicator.
  rewrite Had. erewrite zset_of_zidx by exact Had. reflexivity.
Qed.

(** The tests of a [case] list that a rejected target type fails. *)
Ltac split_false H :=
  cbn [oid_in existsb] in H;
  repeat match type of H with
         | (_ || _) = false =>
           let H1 := fresh "Hne" in apply orb_false_elim in H as [H1 H]
         end.

Ltac use_tests :=
  cbn [oid_in existsb];
  repeat match goal with
         | H : (?a =? ?b) = false |- _ => rewrite !H; clear H
         end.

(** One run of the monadic text up to the next test. *)
Ltac step_conv Hpd Had Hmark :=
  repeat first
    [ rewrite Hpd | rewrite Had | rewrite Hmark
    | progress cbv beta iota
    | progress cbn [orb andb negb app type indicator atttypid atttypmod
                    is_IFX_SMALLINT is_IFX_INTEGER is_IFX_SERIAL
                    is_IFX_INT8 is_IFX_SERIAL8 is_IFX_INFX_INT8]
    | progress unfold bind, PG_ATTRTYPE_P, PG_ATTRTYPEMOD_P, IFX_ATTRTYPE_P,
        pg_def, ifx_def, get_state, mapped, remote, ret ].

(** What every routine does with a combination outside its table. *)
Lemma convert_rejects (r : routine) (env : Env) (s : IfxFdwExecutionState)
    (attnum : Z) (pd : PgAttrDef) (ad : IfxAttrDef) :
  zidx (pgAttrDefs s) attnum = Some pd ->
  zidx (ifxAttrDefs (stmt_info s)) (PG_MAPPED_IFX_ATTNUM env s attnum) = Some ad ->
  compatible r (type ad) (atttypid pd) = false ->
  convert r env attnum s
  = (Ok PointerNull,
     {| stmt_info :=
          {| ifxAttrDefs :=
               <[Z.to_nat (PG_MAPPED_IFX_ATTNUM env s attnum) :=
                   {| type := type ad; indicator := INDICATOR_NOT_VALID |}]>
                 (ifxAttrDefs (stmt_info s)) |};
        pgAttrDefs := pgAttrDefs s; values := values s |},
     rejection_events r attnum).
Proof.
  intros Hpd Had Hcompat.
  pose proof (IFX_ATTR_SETNOTVALID_P_in_range env attnum s ad Had) as Hmark.
  destruct ad as [src ind].
  destruct r; cbn [convert compatible rejection_events type] in *;
    unfold convertIfxDateString, convertIfxTimestampString, convertIfxDecimal,
      convert_formatted_string, convertIfxInt, convertIfxBoolean,
      convertIfxSimpleLO, convertIfxCharacterString;
    try (destruct src); split_false Hcompat;
    step_conv Hpd Had Hmark; use_tests; step_conv Hpd Had Hmark;
    try reflexivity;
    repeat (match goal with
            | |- context [if (?a =? ?b) then _ else _] => destruct (a =? b)
            end; step_conv Hpd Had Hmark);
    reflexivity.
Qed.

(** C8.  For every conversion routine and every pair of a remote type and a
    local target type outside its compatibility table, the routine returns
    the null datum and raises nothing; the state afterwards differs from
    the state before in the indicator of that attribute alone, which is
    [INDICATOR_NOT_VALID]: the local column definitions, the values and the
    descriptors of all other attributes are as before.  The only event is
    the value [convertIfxBoolean] reads before it looks at the target. *)
Theorem rejected_conversion_marks_one_attribute :
  forall (r : routine) (env : Env) (s : IfxFdwExecutionState) (attnum : Z)
         (pd : PgAttrDef) (ad : IfxAttrDef),
    zidx (pgAttrDefs s) attnum = Some pd ->
    zidx (ifxAttrDefs (stmt_info s)) (PG_MAPPED_IFX_ATTNUM env s attnum)
      = Some ad ->
    compatible r (type ad) (atttypid pd) = false ->
    exists s',
      convert r env attnum s = (Ok PointerNull, s', rejection_events r attnum)
      /\ pgAttrDefs s' = pgAttrDefs s
      /\ values s' = values s
      /\ length (ifxAttrDefs (stmt_info s')) = length (ifxAttrDefs (stmt_info s))
      /\ zidx (ifxAttrDefs (stmt_info s')) (PG_MAPPED_IFX_ATTNUM env s attnum)
         = Some {| type := type ad; indicator := INDICATOR_NOT_VALID |}
      /\ forall j, j <> PG_MAPPED_IFX_ATTNUM env s attnum ->
           zidx (ifxAttrDefs (stmt_info s')) j
           = zidx (ifxAttrDefs (stmt_info s)) j.
Proof.
  intros r env s attnum pd ad Hpd Had Hcompat.
  eexists. split; [apply (convert_rejects r env s attnum pd ad); assumption |].
  cbn [pgAttrDefs values stmt_info ifxAttrDefs].
  pose proof (zidx_Some_range _ _ _ Had) as Hrange.
  repeat split.
  - apply length_insert.
  - apply (zidx_insert_same _ _ ad). exact Had.
  - intros j Hj. apply zidx_insert_other; [lia | exact Hj].
Qed.

Lemma convertIfxInt_rejects_int8_for_int4 :
  exists s',
    convert Int demo_env 0 (one_column IFX_INT8 INT4OID (-1))
      = (Ok PointerNull, s', [])
    /\ pgAttrDefs s' = [ {| atttypid := INT4OID; atttypmod := -1 |} ]
    /\ values s' = [ {| val := PointerNull |} ]
    /\ length (ifxAttrDefs (stmt_info s')) = 1%nat
    /\ zidx (ifxAttrDefs (stmt_info s')) 0
       = Some {| type := IFX_INT8; indicator := INDICATOR_NOT_VALID |}
    /\ forall j, j <> 0 ->
         zidx (ifxAttrDefs (stmt_info s')) j
         = zidx [ {| type := IFX_INT8; indicator := INDICATOR_NOT_NULL |} ] j.
Proof.
  apply (rejected_conversion_marks_one_attribute Int demo_env
           (one_column IFX_INT8 INT4OID (-1)) 0
           {| atttypid := INT4OID; atttypmod := -1 |}
           {| type := IFX_INT8; indicator := INDICATOR_NOT_NULL |});
    reflexivity.
Defined.

(** *** The rewind before an error leaves *)

Lemma rewind_first_weaken (evs : list event) (b : bool) :
  rewind_first false evs = true -> rewind_first b evs = true.
Proof.
  destruct evs as [| e evs]; [reflexivity |].
  destruct e, b; cbn; auto; discriminate.
Qed.

Lemma rewind_first_app (ev1 ev2 : list event) (b : bool) :
  rewind_first b ev1 = true ->
  rewind_first false ev2 = true ->
  rewind_first b (ev1 ++ ev2) = true.
Proof.
  revert b. induction ev1 as [| e ev1 IH]; intros b H1 H2.
  - cbn. now apply rewind_first_weaken.
  - destruct e; cbn in *; try (apply IH; assumption).
    + apply andb_prop in H1 as [-> H1]. cbn. now apply IH.
    + apply andb_prop in H1 as [-> H1]. cbn. now apply IH.
Qed.

Lemma rewinds_first_ret {A : Type} (a : A) : rewinds_first (ret a).
Proof. intros s. reflexivity. Qed.

Lemma rewinds_first_bind {A B : Type} (m : M A) (k : A -> M B) :
  rewinds_first m -> (forall a, rewinds_first (k a)) -> rewinds_first (bind m k).
Proof.
  intros Hm Hk s. unfold bind. specialize (Hm s).
  destruct (m s) as [[[a | e |] s1] ev1]; cbn in *; try assumption.
  specialize (Hk a s1). destruct (k a s1) as [[r s2] ev2]. cbn in *.
  now apply rewind_first_app.
Qed.

Lemma rewinds_first_PG_TRY {A : Type} (body : M A) (handler : ErrorData -> M A) :
  rewinds_first body -> (forall e, rewinds_first (handler e)) ->
  rewinds_first (PG_TRY body handler).
Proof.
  intros Hb Hh s. unfold PG_TRY. specialize (Hb s).
  destruct (body s) as [[[a | e |] s1] ev1]; cbn in *; try assumption.
  specialize (Hh e s1). destruct (handler e s1) as [[r s2] ev2]. cbn in *.
  now apply rewind_first_app.
Qed.

Lemma rewinds_first_rewind_and_rethrow {A : Type} (e : ErrorData) :
  rewinds_first (@rewind_and_rethrow A e).
Proof. intros s. reflexivity. Qed.

Lemma rewinds_first_rewind_elog {A : Type} (msg : string) (args : list Z) :
  rewinds_first (ifxRewindCallstack ;;; @elog_ERROR A msg args).
Proof. intros s. reflexivity. Qed.

Lemma rewinds_first_remote {A : Type} (call : string) (column : Z)
    (get : IfxStatementInfo -> Z -> A) :
  rewinds_first (remote call column get).
Proof. intros s. reflexivity. Qed.

Lemma rewinds_first_OidFunctionCall (env : Env) (fn : Z) (args : list Datum) :
  rewinds_first (OidFunctionCall env fn args).
Proof.
  intros s. unfold OidFunctionCall. destruct (fmgr _ _ _); reflexivity.
Qed.

Lemma rewinds_first_silent {A : Type} (m : M A) :
  (forall s, snd (m s) = []) -> rewinds_first m.
Proof. intros Hm s. now rewrite Hm. Qed.

Lemma pg_def_silent (attnum : Z) s : snd (pg_def attnum s) = [].
Proof. unfold pg_def. destruct (zidx _ _); reflexivity. Qed.

Lemma ifx_def_silent (column : Z) s : snd (ifx_def column s) = [].
Proof. unfold ifx_def. destruct (zidx _ _); reflexivity. Qed.

Lemma rewinds_first_pg_def (attnum : Z) : rewinds_first (pg_def attnum).
Proof. apply rewinds_first_silent, pg_def_silent. Qed.

Lemma rewinds_first_ifx_def (column : Z) : rewinds_first (ifx_def column).
Proof. apply rewinds_first_silent, ifx_def_silent. Qed.

Lemma rewinds_first_get_state : rewinds_first get_state.
Proof. intros s. reflexivity. Qed.

Lemma rewinds_first_SETNOTVALID (env : Env) (attnum : Z) :
  rewinds_first (IFX_ATTR_SETNOTVALID_P env attnum).
Proof.
  intros s. unfold IFX_ATTR_SETNOTVALID_P. destruct (set_indicator _ _ _); reflexivity.
Qed.

Lemma rewinds_first_SETVAL (env : Env) (attnum : Z) (d : Datum) :
  rewinds_first (IFX_SETVAL_P env attnum d).
Proof.
  intros s. unfold IFX_SETVAL_P. destruct (set_value _ _ _); reflexivity.
Qed.

Lemma rewinds_first_GETVAL (env : Env) (attnum : Z) :
  rewinds_first (IFX_GETVAL_P env attnum).
Proof.
  intros s. unfold IFX_GETVAL_P. destruct (zidx _ _); reflexivity.
Qed.

Create HintDb rewind discriminated.
#[local] Hint Resolve
  rewinds_first_ret rewinds_first_bind rewinds_first_PG_TRY
  rewinds_first_rewind_and_rethrow rewinds_first_rewind_elog
  rewinds_first_remote rewinds_first_OidFunctionCall
  rewinds_first_pg_def rewinds_first_ifx_def rewinds_first_get_state
  rewinds_first_SETNOTVALID rewinds_first_SETVAL rewinds_first_GETVAL : rewind.

(** The structure of a routine, followed down to the calls above. *)
Ltac rewind_walk :=
  repeat first
    [ apply rewinds_first_rewind_elog
    | apply rewinds_first_rewind_and_rethrow
    | apply rewinds_first_bind; [| intros ?]
    | apply rewinds_first_PG_TRY; [| intros ?]
    | solve [auto with rewind]
    | match goal with
      | |- rewinds_first (if ?c then _ else _) => destruct c
      | |- rewinds_first (match ?x with _ => _ end) => destruct x
      | |- rewinds_first (let '(_, _) := ?x in _) => destruct x
      end
    | progress unfold PG_ATTRTYPE_P, PG_ATTRTYPEMOD_P, IFX_ATTRTYPE_P,
        IFX_ATTR_ISNULL_P, IFX_ATTR_IS_VALID_P, mapped ].

Lemma rewinds_first_getTypeInputFunction (env : Env) (oid : Z) :
  rewinds_first (getTypeInputFunction env oid).
Proof. unfold getTypeInputFunction. rewind_walk. Qed.

Lemma rewinds_first_getTypeOutputFunction (env : Env) (oid : Z) :
  rewinds_first (getTypeOutputFunction env oid).
Proof. unfold getTypeOutputFunction. rewind_walk. Qed.

Lemma rewinds_first_getTypeCastFunction (env : Env) (src tgt : Z) :
  rewinds_first (getTypeCastFunction env src tgt).
Proof. unfold getTypeCastFunction. rewind_walk. Qed.

#[local] Hint Resolve rewinds_first_getTypeInputFunction
  rewinds_first_getTypeOutputFunction rewinds_first_getTypeCastFunction : rewind.

Lemma rewinds_first_convert (r : routine) (env : Env) (attnum : Z) :
  rewinds_first (convert r env attnum).
Proof.
  destruct r; cbn [convert];
    unfold convertIfxDateString, convertIfxTimestampString, convertIfxDecimal,
      convert_formatted_string, convertIfxInt, convertIfxBoolean,
      convertIfxSimpleLO, convertIfxCharacterString;
    rewind_walk.
Qed.

(** An error caught by a [PG_CATCH] block of the file leaves again after
    the rewind. *)
Lemma caught_error_leaves_after_rewind {A : Type} (body : M A)
    (s s1 : IfxFdwExecutionState) (e : ErrorData) (ev1 : list event) :
  body s = (Raised e, s1, ev1) ->
  PG_TRY body rewind_and_rethrow s = (Raised e, s1, ev1 ++ [EvRewind; EvReThrow]).
Proof. intros Hbody. unfold PG_TRY. rewrite Hbody. reflexivity. Qed.

(** The type lookup [convertIfxCharacterString] makes itself: when it fails,
    the attribute is marked and the null datum returned. *)
Lemma convertIfxCharacterString_lookup_failure (env : Env) (attnum : Z)
    (s : IfxFdwExecutionState) (pd : PgAttrDef) (ad : IfxAttrDef) :
  zidx (pgAttrDefs s) attnum = Some pd ->
  zidx (ifxAttrDefs (stmt_info s)) (PG_MAPPED_IFX_ATTNUM env s attnum) = Some ad ->
  atttypid pd = BPCHAROID \/ (atttypid pd = VARCHAROID /\ atttypmod pd <> -1) ->
  indicator ad <> INDICATOR_NULL ->
  SearchSysCache_TYPEOID (catalog env) (atttypid pd) = None ->
  convertIfxCharacterString env attnum s
  = (Ok PointerNull, marked_not_valid env attnum ad s,
     [EvRemote "ifxGetText" (PG_MAPPED_IFX_ATTNUM env s attnum)]).
Proof.
  intros Hpd Had Htarget Hind Hlookup.
  pose proof (IFX_ATTR_SETNOTVALID_P_in_range env attnum s ad Had) as Hmark.
  unfold convertIfxCharacterString, marked_not_valid.
  unfold bind at 1. unfold pg_def. rewrite Hpd. cbv beta iota.
  rewrite Hlookup.
  assert (Hnull : (match indicator ad with INDICATOR_NULL => true | _ => false end)
                  = false) by (destruct (indicator ad); congruence).
  destruct Htarget as [Hbp | [Hvc Hmod]].
  - rewrite Hbp. cbn [oid_in existsb orb andb Z.eqb BPCHAROID TEXTOID VARCHAROID
                       BYTEAOID Pos.eqb].
    repeat first
      [ rewrite Had | rewrite Hnull | rewrite Hmark | progress cbv beta iota
      | progress unfold bind, mapped, remote, get_state, ret,
          IFX_ATTR_ISNULL_P, ifx_def ].
    reflexivity.
  - rewrite Hvc.
    replace (atttypmod pd =? -1) with false by (symmetry; apply Z.eqb_neq; exact Hmod).
    cbn [oid_in existsb orb andb Z.eqb BPCHAROID TEXTOID VARCHAROID
         BYTEAOID Pos.eqb].
    repeat first
      [ rewrite Had | rewrite Hnull | rewrite Hmark | progress cbv beta iota
      | progress unfold bind, mapped, remote, get_state, ret,
          IFX_ATTR_ISNULL_P, ifx_def ].
    reflexivity.
Qed.

(** C7, as amended.  A type input, output or cast lookup that fails in
    [getTypeInputFunction], [getTypeOutputFunction] or [getTypeCastFunction]
    calls the rewind and raises the error next, in that order and with
    nothing between them.  In every conversion routine each [elog] and each
    re-throw has the rewind as the event just before it, and an error caught
    by a [PG_CATCH] block leaves again as the rewind followed by the
    re-throw.  The type lookup that [convertIfxCharacterString] makes itself
    is not fatal: when it fails, the attribute is marked not valid and the
    null datum is returned, with no rewind and no error. *)
Theorem failed_lookup_rewinds_then_raises :
  forall (env : Env),
    (forall inputOid s,
        SearchSysCache_TYPEOID (catalog env) inputOid = None ->
        getTypeInputFunction env inputOid s
        = (Raised {| errmsg := "cache lookup failed for input function for type %u";
                     errargs := [inputOid] |}, s,
           [EvRewind;
            EvElog "cache lookup failed for input function for type %u" [inputOid]])
        /\ getTypeOutputFunction env inputOid s
           = (Raised {| errmsg := "cache lookup failed for output function for type %u";
                        errargs := [inputOid] |}, s,
              [EvRewind;
               EvElog "cache lookup failed for output function for type %u"
                      [inputOid]]))
    /\ (forall sourceOid targetOid s,
           SearchSysCache_CASTSOURCETARGET (catalog env) sourceOid targetOid = None ->
           getTypeCastFunction env sourceOid targetOid s
           = (Raised {| errmsg := "cache lookup failed for cast from %u to %u";
                        errargs := [sourceOid; targetOid] |}, s,
              [EvRewind;
               EvElog "cache lookup failed for cast from %u to %u"
                      [sourceOid; targetOid]]))
    /\ (forall r attnum s,
           rewind_first false (snd (convert r env attnum s)) = true)
    /\ (forall (body : M Datum) s s1 e ev1,
           body s = (Raised e, s1, ev1) ->
           PG_TRY body rewind_and_rethrow s
           = (Raised e, s1, ev1 ++ [EvRewind; EvReThrow]))
    /\ (forall attnum s pd ad,
           zidx (pgAttrDefs s) attnum = Some pd ->
           zidx (ifxAttrDefs (stmt_info s)) (PG_MAPPED_IFX_ATTNUM env s attnum)
             = Some ad ->
           atttypid pd = BPCHAROID
           \/ (atttypid pd = VARCHAROID /\ atttypmod pd <> -1) ->
           indicator ad <> INDICATOR_NULL ->
           SearchSysCache_TYPEOID (catalog env) (atttypid pd) = None ->
           convertIfxCharacterString env attnum s
           = (Ok PointerNull, marked_not_valid env attnum ad s,
              [EvRemote "ifxGetText" (PG_MAPPED_IFX_ATTNUM env s attnum)])).
Proof.
  intros env. split; [| split; [| split; [| split]]].
  - intros inputOid s Hlookup. split.
    + unfold getTypeInputFunction. now rewrite Hlookup.
    + unfold getTypeOutputFunction. now rewrite Hlookup.
  - intros sourceOid targetOid s Hcast.
    unfold getTypeCastFunction. now rewrite Hcast.
  - intros r attnum s. apply rewinds_first_convert.
  - intros body s s1 e ev1. apply caught_error_leaves_after_rewind.
  - intros attnum s pd ad. apply convertIfxCharacterString_lookup_failure.
Qed.

(** A date read from the row while the type cache does not know the target
    type: the lookup rewinds and raises, the [PG_CATCH] block rewinds and
    re-throws. *)
Lemma convertIfxDateString_when_lookup_fails :
  convertIfxDateString demo_env_with_date 0
    (one_column (IFX_TYPE_OTHER 7) DATEOID (-1))
  = (Raised {| errmsg := "cache lookup failed for input function for type %u";
               errargs := [DATEOID] |},
     one_column (IFX_TYPE_OTHER 7) DATEOID (-1),
     [EvRemote "ifxGetDateAsString" 0;
      EvRewind;
      EvElog "cache lookup failed for input function for type %u" [DATEOID];
      EvRewind;
      EvReThrow]).
Proof. reflexivity. Qed.

(** Not every failed lookup is fatal.  Take the lookup inside
    [convertIfxCharacterString]: the type cache does not know the target
    type of a [char(10)] column, and the routine returns the null datum with
    the attribute marked, without a rewind and without an error. *)
Lemma convertIfxCharacterString_lookup_failure_is_not_fatal :
  SearchSysCache_TYPEOID (catalog demo_env) BPCHAROID = None
  /\ convertIfxCharacterString demo_env 0
       (one_column (IFX_TYPE_OTHER 0) BPCHAROID 14)
     = (Ok PointerNull,
        {| stmt_info :=
             {| ifxAttrDefs := [ {| type := IFX_TYPE_OTHER 0;
                                    indicator := INDICATOR_NOT_VALID |} ] |};
           pgAttrDefs := [ {| atttypid := BPCHAROID; atttypmod := 14 |} ];
           values := [ {| val := PointerNull |} ] |},
        [EvRemote "ifxGetText" 0]).
Proof. split; reflexivity. Qed.

End ConvFacts.

(** ** Predicate pushdown *)

Section PushdownFacts.
Import Pushdown.

Variable be : Backend.

Lemma operand_supported_spec (context : IfxPushdownOprContext) (oprarg : Node) :
  operand_supported context oprarg = true <-> plain_operand context oprarg.
Proof.
  unfold plain_operand. split.
  - destruct oprarg as [varno varattno sup | ty v | | | |]; cbn; try discriminate.
    + intros Hok. left. exists varattno.
      apply negb_true_iff, orb_false_iff in Hok as [Hno Hsup].
      apply negb_false_iff, Z.eqb_eq in Hno. apply negb_false_iff, Z.eqb_eq in Hsup.
      now subst.
    + intros _. right. now exists ty, v.
  - intros [[varattno ->] | (ty & v & ->)]; cbn; [| reflexivity].
    now rewrite Z.eqb_refl.
Qed.

Lemma operands_supported_spec (context : IfxPushdownOprContext) (args : list Node) :
  operands_supported context args = true <-> Forall (plain_operand context) args.
Proof.
  induction args as [| a args IH]; cbn.
  - split; [constructor | reflexivity].
  - destruct (operand_supported context a) eqn:Ha.
    + rewrite IH. split.
      * intros Hrest. constructor; [now apply operand_supported_spec | exact Hrest].
      * intros Hall. now inversion Hall.
    + split; [discriminate |].
      intros Hall. inversion Hall as [| ? ? Hhead _]; subst.
      apply operand_supported_spec in Hhead. congruence.
Qed.

Lemma operator_tag_supported (name : string) :
  In name pushdown_operator_names <->
  is_not_supported (operator_tag name) = false.
Proof.
  unfold operator_tag, pushdown_operator_names. cbn [In].
  repeat match goal with
         | |- context [String.eqb name ?lit] =>
           destruct (String.eqb_spec name lit) as [-> | ?]
         end; cbn; try tauto; try (split; [tauto | discriminate]).
  split; [| discriminate]. intuition congruence.
Qed.

(** [mapPushdownOperator] on an operator the cache knows. *)
Lemma mapPushdownOperator_known (oprid : Z) (opr : Form_pg_operator)
    (info : IfxPushdownOprInfo) :
  SearchSysCache_OPEROID be oprid = Some opr ->
  (oprnamespace opr = PG_CATALOG_NAMESPACE ->
   mapPushdownOperator be oprid info
   = OK (operator_tag (oprname opr), set_type info (operator_tag (oprname opr))))
  /\ (oprnamespace opr <> PG_CATALOG_NAMESPACE ->
      mapPushdownOperator be oprid info = OK (IFX_OPR_NOT_SUPPORTED, info)).
Proof.
  intros Hopr. unfold mapPushdownOperator. rewrite Hopr. split.
  - intros ->. rewrite Z.eqb_refl. cbn [negb]. unfold operator_tag.
    repeat match goal with
           | |- context [String.eqb ?n ?lit] => destruct (String.eqb n lit)
           end; reflexivity.
  - intros Hns. apply Z.eqb_neq in Hns. rewrite Hns. reflexivity.
Qed.

Lemma IFX_MARK_PREDICATE_grows (info : IfxPushdownOprInfo)
    (context : IfxPushdownOprContext) :
  IFX_MARK_PREDICATE info context <> context.
Proof.
  intros Heq. apply (f_equal count) in Heq. cbn in Heq. lia.
Qed.

Lemma comparison_accepted (context : IfxPushdownOprContext) (opno : Z)
    (args : list Node) (opr : Form_pg_operator) :
  SearchSysCache_OPEROID be opno = Some opr ->
  accepted_comparison context opr args ->
  walk_node be (T_OpExpr opno args) context
  = OK (false,
        IFX_MARK_PREDICATE
          (fragment be context (operator_tag (oprname opr)) (T_OpExpr opno args))
          context).
Proof.
  intros Hopr (Hname & Hns & Hargs).
  pose proof (mapPushdownOperator_known opno opr
                {| type := None; expr := Some (T_OpExpr opno args);
                   expr_string := None |} Hopr) as [Hcat _].
  cbn [walk_node]. rewrite (Hcat Hns). cbn [bind].
  apply operator_tag_supported in Hname. rewrite Hname. cbn [negb].
  apply operands_supported_spec in Hargs. rewrite Hargs. reflexivity.
Qed.

Lemma comparison_rejected (context : IfxPushdownOprContext) (opno : Z)
    (args : list Node) (opr : Form_pg_operator) :
  SearchSysCache_OPEROID be opno = Some opr ->
  ~ accepted_comparison context opr args ->
  walk_node be (T_OpExpr opno args) context = OK (true, context).
Proof.
  intros Hopr Hnot.
  pose proof (mapPushdownOperator_known opno opr
                {| type := None; expr := Some (T_OpExpr opno args);
                   expr_string := None |} Hopr) as [Hcat Hother].
  cbn [walk_node].
  destruct (Z.eq_dec (oprnamespace opr) PG_CATALOG_NAMESPACE) as [Hns | Hns].
  - rewrite (Hcat Hns). cbn [bind].
    destruct (is_not_supported (operator_tag (oprname opr))) eqn:Htag;
      [reflexivity |]. cbn [negb].
    destruct (operands_supported context args) eqn:Hargs; [| reflexivity].
    exfalso. apply Hnot. repeat split.
    + now apply operator_tag_supported.
    + exact Hns.
    + now apply operands_supported_spec.
  - rewrite (Hother Hns). reflexivity.
Qed.

Lemma accepted_comparison_dec (context : IfxPushdownOprContext)
    (opr : Form_pg_operator) (args : list Node) :
  accepted_comparison context opr args \/ ~ accepted_comparison context opr args.
Proof.
  unfold accepted_comparison.
  destruct (is_not_supported (operator_tag (oprname opr))) eqn:Htag.
  - right. intros (Hname & _). apply operator_tag_supported in Hname. congruence.
  - destruct (Z.eq_dec (oprnamespace opr) PG_CATALOG_NAMESPACE) as [Hns | Hns];
      [| right; tauto].
    destruct (operands_supported context args) eqn:Hargs.
    + left. repeat split; [now apply operator_tag_supported | exact Hns |].
      now apply operands_supported_spec.
    + right. intros (_ & _ & Hall). apply operands_supported_spec in Hall.
      congruence.
Qed.

(** C4.  For an operator the operator cache knows, an [OpExpr] appends be one
    fragment, the node with its operator type and its deparsed text, exactly
    when the operator name is one of [>=], [<=], [<], [>], [=], [<>], [~~],
    the operator lives in pg_catalog, and every operand is a variable of the
    target relation with [varlevelsup = 0] or a constant; in every other
    case the context is returned as it was. *)
Theorem comparison_is_pushed_iff_supported :
  forall (context : IfxPushdownOprContext) (opno : Z) (args : list Node)
         (opr : Form_pg_operator),
    SearchSysCache_OPEROID be opno = Some opr ->
    let node := T_OpExpr opno args in
    let accepted :=
      In (oprname opr) pushdown_operator_names
      /\ oprnamespace opr = PG_CATALOG_NAMESPACE
      /\ Forall (plain_operand context) args in
    (accepted ->
     walk_node be node context
     = OK (false,
           IFX_MARK_PREDICATE
             (fragment be context (operator_tag (oprname opr)) node) context))
    /\ (~ accepted -> walk_node be node context = OK (true, context))
    /\ ((exists b info,
            walk_node be node context = OK (b, IFX_MARK_PREDICATE info context))
        <-> accepted).
Proof.
  intros context opno args opr Hopr node accepted.
  split; [apply comparison_accepted, Hopr |].
  split; [apply comparison_rejected, Hopr |]. split.
  - intros (b & info & Hwalk).
    destruct (accepted_comparison_dec context opr args) as [Hacc | Hnot];
      [exact Hacc |].
    subst node. rewrite (comparison_rejected _ _ _ _ Hopr Hnot) in Hwalk.
    injection Hwalk as _ Hctx.
    symmetry in Hctx. now apply IFX_MARK_PREDICATE_grows in Hctx.
  - intros Hacc. eexists _, _. exact (comparison_accepted _ _ _ _ Hopr Hacc).
Qed.

(** *** Boolean connectives *)

(** Induction over nodes whose list arguments come with the property of
    every element. *)
Lemma Node_list_ind (P : Node -> Prop) :
  (forall varno varattno varlevelsup, P (T_Var varno varattno varlevelsup)) ->
  (forall consttype constvalue, P (T_Const consttype constvalue)) ->
  (forall opno args, Forall P args -> P (T_OpExpr opno args)) ->
  (forall boolop args, Forall P args -> P (T_BoolExpr boolop args)) ->
  (forall arg nulltesttype argisrow,
      P arg -> P (T_NullTest arg nulltesttype argisrow)) ->
  (forall tag, P (T_Other tag)) ->
  forall node, P node.
Proof.
  intros HVar HConst HOp HBool HNull HOther.
  fix IH 1. intros [varno varattno sup | ty v | opno args | boolop args
                   | arg nt row | tag].
  - apply HVar.
  - apply HConst.
  - apply HOp. induction args as [| a args IHargs]; constructor; [apply IH | exact IHargs].
  - apply HBool. induction args as [| a args IHargs]; constructor; [apply IH | exact IHargs].
  - apply HNull, IH.
  - apply HOther.
Qed.

Lemma operands_supported_ids (c c' : IfxPushdownOprContext) (args : list Node) :
  foreign_rtid c = foreign_rtid c' ->
  operands_supported c args = operands_supported c' args.
Proof.
  intros Hid. induction args as [| a args IH]; [reflexivity |].
  cbn. rewrite IH.
  destruct a; cbn; try reflexivity. now rewrite Hid.
Qed.

Lemma walk_node_BoolExpr (boolop : BoolExprType) (args : list Node)
    (context : IfxPushdownOprContext) :
  walk_node be (T_BoolExpr boolop args) context
  = (context' <- walk_operands be boolop args context ;; OK (true, context')).
Proof.
  cbn [walk_node]. f_equal.
  revert context. induction args as [| a args IH]; intros context; [reflexivity |].
  cbn [walk_operands]. destruct (walk_node be a context) as [[b c] | msg];
    [| reflexivity].
  cbn [bind snd]. destruct args as [| a' rest]; [reflexivity |].
  destruct (bool_marker boolop) as [info | msg]; [| reflexivity].
  cbn [bind]. apply IH.
Qed.

Lemma context_eq (relid rtid : Z) (p p' : list IfxPushdownOprInfo) (c c' : Z) :
  p = p' -> c = c' ->
  {| foreign_relid := relid; foreign_rtid := rtid; predicates := p; count := c |}
  = {| foreign_relid := relid; foreign_rtid := rtid; predicates := p'; count := c' |}.
Proof. now intros -> ->. Qed.

(** One round of the loop when another operand follows. *)
Lemma walk_operands_more (boolop : BoolExprType) (a a' : Node)
    (rest : list Node) (context : IfxPushdownOprContext) :
  walk_operands be boolop (a :: a' :: rest) context
  = (walked <- walk_node be a context ;;
     info <- bool_marker boolop ;;
     walk_operands be boolop (a' :: rest)
       (IFX_MARK_PREDICATE info (snd walked))).
Proof. reflexivity. Qed.

(** The loop over the operands appends be to any list as well. *)
Lemma walk_operands_append (boolop : BoolExprType) (args : list Node) :
  Forall (fun a => forall relid rtid, exists r, appends be a relid rtid r) args ->
  forall relid rtid,
  exists r : result (list IfxPushdownOprInfo),
    forall preds cnt,
      walk_operands be boolop args
        {| foreign_relid := relid; foreign_rtid := rtid;
           predicates := preds; count := cnt |}
      = match r with
        | OK infos =>
          OK {| foreign_relid := relid; foreign_rtid := rtid;
                predicates := preds ++ infos;
                count := cnt + Z.of_nat (length infos) |}
        | ERROR msg => ERROR msg
        end.
Proof.
  intros Hargs relid rtid.
  induction Hargs as [| a next Ha Hnext IH].
  - exists (OK []). intros preds cnt. cbn. now rewrite app_nil_r, Z.add_0_r.
  - destruct (Ha relid rtid) as [[[b fs] | msg] Hwalk].
    + destruct next as [| a' rest].
      * exists (OK fs). intros preds cnt. cbn [walk_operands].
        rewrite Hwalk. reflexivity.
      * destruct (bool_marker boolop) as [m | msg] eqn:Hm.
        -- destruct IH as [[infos | msg] Hrest].
           ++ exists (OK (fs ++ m :: infos)). intros preds cnt.
              rewrite walk_operands_more, Hwalk. cbn [bind snd]. rewrite Hm.
              cbn [bind]. unfold IFX_MARK_PREDICATE.
              cbn [foreign_relid foreign_rtid predicates count].
              rewrite Hrest. f_equal. apply context_eq.
              ** now rewrite <- !app_assoc.
              ** rewrite length_app. cbn [length]. lia.
           ++ exists (ERROR msg). intros preds cnt.
              rewrite walk_operands_more, Hwalk. cbn [bind snd]. rewrite Hm.
              cbn [bind]. unfold IFX_MARK_PREDICATE.
              cbn [foreign_relid foreign_rtid predicates count].
              now rewrite Hrest.
        -- exists (ERROR msg). intros preds cnt.
           rewrite walk_operands_more, Hwalk. cbn [bind snd]. now rewrite Hm.
    + exists (ERROR msg). intros preds cnt. cbn [walk_operands].
      now rewrite Hwalk.
Qed.

Lemma walk_node_appends (node : Node) (relid rtid : Z) :
  exists r, appends be node relid rtid r.
Proof.
  revert relid rtid. induction node as
      [varno varattno sup | ty v | opno args _ | boolop args IHargs
      | arg nt row _ | tag] using Node_list_ind; intros relid rtid.
  - exists (OK (false, [])). intros preds cnt. cbn.
    now rewrite app_nil_r, Z.add_0_r.
  - exists (OK (false, [])). intros preds cnt. cbn.
    now rewrite app_nil_r, Z.add_0_r.
  - (* T_OpExpr *)
    set (node := T_OpExpr opno args).
    set (c0 := {| foreign_relid := relid; foreign_rtid := rtid;
                  predicates := []; count := 0 |}).
    destruct (mapPushdownOperator be opno
                {| type := None; expr := Some node; expr_string := None |})
      as [[oprtype info] | msg] eqn:Hmap.
    + destruct (negb (is_not_supported oprtype) && operands_supported c0 args)
        eqn:Hpush.
      * exists (OK (false, [deparse_predicate_node be node c0 info])).
        intros preds cnt. subst node. cbn [walk_node]. rewrite Hmap. cbn [bind].
        apply andb_prop in Hpush as [Htag Hargs]. rewrite Htag.
        rewrite (operands_supported_ids _ c0) by reflexivity. rewrite Hargs.
        reflexivity.
      * exists (OK (true, [])).
        intros preds cnt. subst node. cbn [walk_node]. rewrite Hmap. cbn [bind].
        rewrite app_nil_r, Z.add_0_r.
        destruct (negb (is_not_supported oprtype)); [| reflexivity].
        cbn [andb] in Hpush.
        rewrite (operands_supported_ids _ c0) by reflexivity. rewrite Hpush.
        reflexivity.
    + exists (ERROR msg). intros preds cnt. subst node. cbn [walk_node].
      now rewrite Hmap.
  - (* T_BoolExpr *)
    destruct (walk_operands_append boolop args IHargs relid rtid) as [r Hr].
    destruct r as [infos | msg].
    + exists (OK (true, infos)). intros preds cnt.
      rewrite walk_node_BoolExpr, Hr. reflexivity.
    + exists (ERROR msg). intros preds cnt.
      rewrite walk_node_BoolExpr, Hr. reflexivity.
  - (* T_NullTest *)
    destruct row.
    + exists (OK (true, [])). intros preds cnt. cbn.
      now rewrite app_nil_r, Z.add_0_r.
    + destruct arg as [varno varattno sup | | | | |];
        try (exists (OK (true, [])); intros preds cnt; cbn;
             now rewrite app_nil_r, Z.add_0_r).
      destruct (negb (negb (varno =? rtid) || negb (sup =? 0))) eqn:Hok.
      * eexists (OK (false, [_])). intros preds cnt. cbn [walk_node].
        cbn [foreign_rtid]. rewrite Hok. cbn [negb].
        unfold deparse_predicate_node, IFX_MARK_PREDICATE. cbn. reflexivity.
      * exists (OK (true, [])). intros preds cnt. cbn [walk_node].
        cbn [foreign_rtid]. rewrite Hok. cbn [negb].
        now rewrite app_nil_r, Z.add_0_r.
  - exists (OK (false, [])). intros preds cnt. cbn.
    now rewrite app_nil_r, Z.add_0_r.
Qed.

Lemma collected_appends (context : IfxPushdownOprContext) (a : Node)
    (fs : list IfxPushdownOprInfo) :
  collected be context a = OK fs ->
  exists b, appends be a (foreign_relid context) (foreign_rtid context) (OK (b, fs)).
Proof.
  intros Hcol.
  destruct (walk_node_appends a (foreign_relid context) (foreign_rtid context))
    as [r Hr].
  unfold collected, reset in Hcol. rewrite (Hr [] 0) in Hcol.
  destruct r as [[b infos] | msg]; [| discriminate Hcol].
  cbn in Hcol. injection Hcol as <-. now exists b.
Qed.

(** With every operand appending its list, the loop appends be the lists in
    the order of the operands with the marker between two neighbours. *)
Lemma walk_operands_interleave (boolop : BoolExprType)
    (marker : IfxPushdownOprInfo) (relid rtid : Z) (args : list Node)
    (fss : list (list IfxPushdownOprInfo)) :
  bool_marker boolop = OK marker ->
  Forall2 (fun a fs => exists b, appends be a relid rtid (OK (b, fs))) args fss ->
  forall preds cnt,
    walk_operands be boolop args
      {| foreign_relid := relid; foreign_rtid := rtid;
         predicates := preds; count := cnt |}
    = OK {| foreign_relid := relid; foreign_rtid := rtid;
            predicates := preds ++ interleave marker fss;
            count := cnt + Z.of_nat (length (interleave marker fss)) |}.
Proof.
  intros Hm Hall. induction Hall as [| a fs next fss' [b Ha] Hnext IH];
    intros preds cnt.
  - cbn. now rewrite app_nil_r, Z.add_0_r.
  - destruct Hnext as [| a' fs' rest fss'' Ha' Hrest].
    + cbn [walk_operands interleave]. rewrite Ha. reflexivity.
    + rewrite walk_operands_more, Ha. cbn [bind snd]. rewrite Hm. cbn [bind].
      unfold IFX_MARK_PREDICATE.
      cbn [foreign_relid foreign_rtid predicates count].
      rewrite IH. f_equal. apply context_eq.
      * change (interleave marker (fs :: fs' :: fss''))
          with (fs ++ marker :: interleave marker (fs' :: fss'')).
        now rewrite <- !app_assoc.
      * change (interleave marker (fs :: fs' :: fss''))
          with (fs ++ marker :: interleave marker (fs' :: fss'')).
        rewrite length_app. cbn [length]. lia.
Qed.

Lemma push_all_record (context : IfxPushdownOprContext)
    (infos : list IfxPushdownOprInfo) :
  push_all context infos
  = {| foreign_relid := foreign_relid context;
       foreign_rtid := foreign_rtid context;
       predicates := predicates context ++ infos;
       count := count context + Z.of_nat (length infos) |}.
Proof. reflexivity. Qed.

Lemma bool_connective_walk (context : IfxPushdownOprContext)
    (boolop : BoolExprType) (marker : IfxPushdownOprInfo) (args : list Node)
    (fss : list (list IfxPushdownOprInfo)) :
  bool_marker boolop = OK marker ->
  Forall2 (fun a fs => collected be context a = OK fs) args fss ->
  walk_node be (T_BoolExpr boolop args) context
  = OK (true, push_all context (interleave marker fss)).
Proof.
  intros Hm Hall. rewrite walk_node_BoolExpr.
  destruct context as [relid rtid preds cnt].
  rewrite (walk_operands_interleave boolop marker relid rtid args fss Hm).
  - reflexivity.
  - eapply Forall2_impl; [exact Hall |].
    intros a fs Hcol. apply collected_appends in Hcol. exact Hcol.
Qed.

(** C6.  The walker of a [BoolExpr] walks the operands from left to right
    and appends, after the fragments of each operand but the last, one
    marker of the connective: the list grows by the lists of the operands in
    their order with the marker between two neighbours, and the marker is
    the one of type [IFX_OPR_AND] with text AND for AND, of type
    [IFX_OPR_OR] with text OR for OR and of type [IFX_OPR_NOT] with text NOT
    for NOT, each without an expression.  For [a > 5 AND b = 'x'] over the
    target relation the list grows by the fragment of [a > 5], the AND
    marker and the fragment of [b = 'x']; the text of each of the two
    fragments is what the expression printer returns for the comparison
    with its columns moved to range-table entry 1, which is not empty when
    the printer returns no empty text. *)
Theorem bool_connective_keeps_operand_order :
  forall (context : IfxPushdownOprContext),
    (forall args fss,
        Forall2 (fun a fs => collected be context a = OK fs) args fss ->
        walk_node be (T_BoolExpr AND_EXPR args) context
        = OK (true,
              push_all context
                (interleave {| type := Some IFX_OPR_AND; expr := None;
                               expr_string := Some "AND" |} fss))
        /\ walk_node be (T_BoolExpr OR_EXPR args) context
           = OK (true,
                 push_all context
                   (interleave {| type := Some IFX_OPR_OR; expr := None;
                                  expr_string := Some "OR" |} fss))
        /\ walk_node be (T_BoolExpr NOT_EXPR args) context
           = OK (true,
                 push_all context
                   (interleave {| type := Some IFX_OPR_NOT; expr := None;
                                  expr_string := Some "NOT" |} fss)))
    /\ (SearchSysCache_OPEROID be int4gt
          = Some {| oprname := ">"; oprnamespace := PG_CATALOG_NAMESPACE |} ->
        SearchSysCache_OPEROID be texteq
          = Some {| oprname := "="; oprnamespace := PG_CATALOG_NAMESPACE |} ->
        (forall node dpc, deparse_expression be node dpc <> EmptyString) ->
        let rtid := foreign_rtid context in
        let dpc := (get_rel_name be (foreign_relid context),
                    foreign_relid context) in
        let first := fragment be context IFX_OPR_GT (a_gt_5 rtid) in
        let second := fragment be context IFX_OPR_EQUAL (b_eq_x rtid) in
        walk_node be (a_gt_5_and_b_eq_x rtid) context
        = OK (true,
              push_all context
                [ first;
                  {| type := Some IFX_OPR_AND; expr := None;
                     expr_string := Some "AND" |};
                  second ])
        /\ expr_string first = Some (deparse_expression be (a_gt_5 1) dpc)
        /\ expr_string second = Some (deparse_expression be (b_eq_x 1) dpc)
        /\ deparse_expression be (a_gt_5 1) dpc <> EmptyString
        /\ deparse_expression be (b_eq_x 1) dpc <> EmptyString).
Proof.
  intros context. split.
  - intros args fss Hall.
    split; [| split]; now apply bool_connective_walk.
  - intros Hgt Heq Hprint rtid dpc first second.
    split; [| split; [| split; [| split]]].
    + unfold a_gt_5_and_b_eq_x.
      apply (bool_connective_walk context AND_EXPR _ _ [[first]; [second]]);
        [reflexivity |].
      repeat constructor.
      * unfold collected, a_gt_5.
        rewrite (comparison_accepted (reset context) int4gt _ _ Hgt);
          [reflexivity |].
        split; [cbn; tauto |]. split; [reflexivity |].
        constructor; [left; eexists; reflexivity |].
        constructor; [right; eexists _, _; reflexivity | constructor].
      * unfold collected, b_eq_x.
        rewrite (comparison_accepted (reset context) texteq _ _ Heq);
          [reflexivity |].
        split; [cbn; tauto |]. split; [reflexivity |].
        constructor; [left; eexists; reflexivity |].
        constructor; [right; eexists _, _; reflexivity | constructor].
    + subst first rtid dpc. unfold fragment, a_gt_5.
      cbn [expr_string ChangeVarNodes List.map]. now rewrite !Z.eqb_refl.
    + subst second rtid dpc. unfold fragment, b_eq_x.
      cbn [expr_string ChangeVarNodes List.map]. now rewrite !Z.eqb_refl.
    + apply Hprint.
    + apply Hprint.
Qed.

End PushdownFacts.

Section PushdownExamples.
Import Pushdown.

Lemma print_node_not_empty (node : Node) : print_node node <> EmptyString.
Proof.
  destruct node as [varno varattno sup | ty v | opno args | boolop args
                   | arg nt row | tag]; cbn; try discriminate.
  - destruct (varattno =? 1); [discriminate |].
    destruct (varattno =? 2); discriminate.
  - destruct args as [| l [| r [| x rest]]]; discriminate.
Qed.

Lemma a_gt_5_is_pushed :
  walk_node demo_backend (a_gt_5 3) demo_context
  = OK (false,
        {| foreign_relid := 16384; foreign_rtid := 3;
           predicates := [ {| type := Some IFX_OPR_GT;
                              expr := Some (a_gt_5 3);
                              expr_string := Some "(a > (5))" |} ];
           count := 1 |}).
Proof.
  destruct (comparison_is_pushed_iff_supported demo_backend demo_context
              int4gt [T_Var 3 1 0; T_Const 23 "5"]
              {| oprname := ">"; oprnamespace := PG_CATALOG_NAMESPACE |}
              eq_refl) as [Hpushed _].
  apply Hpushed. split; [cbn; tauto |]. split; [reflexivity |].
  constructor; [left; eexists; reflexivity |].
  constructor; [right; eexists _, _; reflexivity | constructor].
Defined.

Lemma a_gt_5_and_b_eq_x_is_pushed_in_order :
  walk_node demo_backend (a_gt_5_and_b_eq_x 3) demo_context
  = OK (true,
        {| foreign_relid := 16384; foreign_rtid := 3;
           predicates :=
             [ {| type := Some IFX_OPR_GT; expr := Some (a_gt_5 3);
                  expr_string := Some "(a > (5))" |};
               {| type := Some IFX_OPR_AND; expr := None;
                  expr_string := Some "AND" |};
               {| type := Some IFX_OPR_EQUAL; expr := Some (b_eq_x 3);
                  expr_string := Some "(b = ('x'))" |} ];
           count := 3 |})
  /\ walk_node demo_backend (T_BoolExpr OR_EXPR [a_gt_5 3; b_eq_x 3])
       demo_context
     = OK (true,
           {| foreign_relid := 16384; foreign_rtid := 3;
              predicates :=
                [ {| type := Some IFX_OPR_GT; expr := Some (a_gt_5 3);
                     expr_string := Some "(a > (5))" |};
                  {| type := Some IFX_OPR_OR; expr := None;
                     expr_string := Some "OR" |};
                  {| type := Some IFX_OPR_EQUAL; expr := Some (b_eq_x 3);
                     expr_string := Some "(b = ('x'))" |} ];
              count := 3 |})
  /\ walk_node demo_backend
       (T_BoolExpr NOT_EXPR [a_gt_5 3; b_eq_x 3; a_gt_5 3]) demo_context
     = OK (true,
           {| foreign_relid := 16384; foreign_rtid := 3;
              predicates :=
                [ {| type := Some IFX_OPR_GT; expr := Some (a_gt_5 3);
                     expr_string := Some "(a > (5))" |};
                  {| type := Some IFX_OPR_NOT; expr := None;
                     expr_string := Some "NOT" |};
                  {| type := Some IFX_OPR_EQUAL; expr := Some (b_eq_x 3);
                     expr_string := Some "(b = ('x'))" |};
                  {| type := Some IFX_OPR_NOT; expr := None;
                     expr_string := Some "NOT" |};
                  {| type := Some IFX_OPR_GT; expr := Some (a_gt_5 3);
                     expr_string := Some "(a > (5))" |} ];
              count := 5 |}).
Proof.
  destruct (bool_connective_keeps_operand_order demo_backend demo_context)
    as [Hconnective Hexample].
  split; [| split].
  - destruct (Hexample eq_refl eq_refl
                (fun node _ => print_node_not_empty node)) as [Hwalk _].
    exact Hwalk.
  - destruct (Hconnective [a_gt_5 3; b_eq_x 3]
                [[fragment demo_backend demo_context IFX_OPR_GT (a_gt_5 3)];
                 [fragment demo_backend demo_context IFX_OPR_EQUAL (b_eq_x 3)]])
      as (_ & Hor & _); [repeat constructor | exact Hor].
  - destruct (Hconnective [a_gt_5 3; b_eq_x 3; a_gt_5 3]
                [[fragment demo_backend demo_context IFX_OPR_GT (a_gt_5 3)];
                 [fragment demo_backend demo_context IFX_OPR_EQUAL (b_eq_x 3)];
                 [fragment demo_backend demo_context IFX_OPR_GT (a_gt_5 3)]])
      as (_ & _ & Hnot); [repeat constructor | exact Hnot].
Defined.

End PushdownExamples.

(** * Further properties *)

(** ** The caches *)

Section CacheProperties.
Import ConnCache.

(** Initialising leaves an initialised backend with both tables in place,
    and a second initialisation changes nothing: what the backend cached in
    between stays cached. *)
Theorem InformixCacheInit_once :
  forall (b : Backend),
    IfxCacheIsInitialized (InformixCacheInit b) = true
    /\ (IfxCacheIsInitialized b = false ->
        connections (InformixCacheInit b) = Some ∅
        /\ tables (InformixCacheInit b) = Some ∅)
    /\ (forall b', IfxCacheIsInitialized b' = true -> InformixCacheInit b' = b')
    /\ InformixCacheInit (InformixCacheInit b) = InformixCacheInit b.
Proof.
  intros b. unfold InformixCacheInit.
  destruct (IfxCacheIsInitialized b) eqn:Hinit; cbn.
  - rewrite Hinit. repeat split; try discriminate.
    intros b' Hb'. now rewrite Hb'.
  - repeat split. intros b' Hb'. now rewrite Hb'.
Qed.

Lemma InformixCacheInit_once_demo :
  IfxCacheIsInitialized (InformixCacheInit backend_start) = true
  /\ (connections (InformixCacheInit backend_start) = Some ∅
      /\ tables (InformixCacheInit backend_start) = Some ∅)
  /\ InformixCacheInit demo_backend = demo_backend.
Proof.
  destruct (InformixCacheInit_once backend_start)
    as (Hflag & Hempty & Hagain & _).
  split; [exact Hflag |].
  split; [apply Hempty; reflexivity | apply Hagain; reflexivity].
Defined.

(** Adding a connection that is not cached, looking it up and removing it:
    the lookup finds the entry that was written, the removal returns it and
    a later lookup finds nothing; the copies made for the entry stay in
    [TopMemoryContext] after the removal. *)
Theorem ifxConnCache_add_exists_rm :
  forall (oid : Z) (coninfo : IfxConnectionInfo) (b : Backend)
         (conns : gmap string IfxCachedConnection) (sn dir un db : string),
    connections b = Some conns ->
    conns !! conname coninfo = None ->
    servername coninfo = Some sn -> informixdir coninfo = Some dir ->
    username coninfo = Some un -> database coninfo = Some db ->
    exists b1 b2,
      ifxConnCache_add oid coninfo b = Done (conname coninfo, false, b1)
      /\ ifxConnCache_exists (conname coninfo) b1
         = Done (Some (new_entry oid coninfo sn dir un db), true)
      /\ ifxConnCache_rm (conname coninfo) b1
         = Done (Some (new_entry oid coninfo sn dir un db), true, b2)
      /\ ifxConnCache_exists (conname coninfo) b2 = Done (None, false)
      /\ connections b2 = Some conns
      /\ TopMemoryContext b2
         = TopMemoryContext b ++ copied coninfo sn dir un db.
Proof.
  intros oid coninfo b conns sn dir un db Hinit Hnew Hsn Hdir Hun Hdb.
  assert (Hadd : ifxConnCache_add oid coninfo b =
            Done (conname coninfo, false,
                  {| IfxCacheIsInitialized := IfxCacheIsInitialized b;
                     connections :=
                       Some (<[conname coninfo :=
                                 new_entry oid coninfo sn dir un db]> conns);
                     tables := tables b;
                     TopMemoryContext :=
                       TopMemoryContext b ++ copied coninfo sn dir un db |})).
  { unfold ifxConnCache_add. rewrite Hinit, Hnew, Hsn, Hdir, Hun, Hdb.
    cbn [pstrdup bind]. unfold pstrdup_opt, copied, new_entry.
    destruct (db_locale coninfo), (client_locale coninfo); cbn;
      rewrite <- ?app_assoc; reflexivity. }
  eexists _, _. split; [exact Hadd |].
  unfold ifxConnCache_exists, ifxConnCache_rm. cbn [connections].
  rewrite lookup_insert_eq. split; [reflexivity |]. split; [reflexivity |].
  cbn [connections TopMemoryContext]. rewrite lookup_delete_eq.
  rewrite delete_insert_eq, delete_id by exact Hnew.
  repeat split.
Qed.

Lemma ifxConnCache_add_exists_rm_demo :
  exists b1 b2,
    ifxConnCache_add 16384 demo_coninfo (InformixCacheInit backend_start)
      = Done ("bob-stores-ol_srv", false, b1)
    /\ ifxConnCache_exists "bob-stores-ol_srv" b1
       = Done (Some (new_entry 16384 demo_coninfo "ol_srv" "/opt/informix"
                               "bob" "stores"), true)
    /\ ifxConnCache_rm "bob-stores-ol_srv" b1
       = Done (Some (new_entry 16384 demo_coninfo "ol_srv" "/opt/informix"
                               "bob" "stores"), true, b2)
    /\ ifxConnCache_exists "bob-stores-ol_srv" b2 = Done (None, false)
    /\ connections b2 = Some ∅
    /\ TopMemoryContext b2
       = ["ol_srv"; "/opt/informix"; "bob"; "stores"; "en_US.utf8"].
Proof.
  apply (ifxConnCache_add_exists_rm 16384 demo_coninfo
           (InformixCacheInit backend_start) ∅
           "ol_srv" "/opt/informix" "bob" "stores"); reflexivity.
Defined.

Lemma plan_scans_nonneg (calls : list IfxConnectionInfo) :
  0 <= plan_scans calls.
Proof.
  induction calls as [| c rest IH]; cbn [plan_scans]; [lia |].
  destruct (is_plan_scan (scan_mode c)); lia.
Qed.

Lemma with_usage_same (item : IfxCachedConnection) :
  with_usage item (con_usage item) = item.
Proof. now destruct item. Qed.

Lemma with_usage_twice (item : IfxCachedConnection) (u v : Z) :
  with_usage (with_usage item u) v = with_usage item v.
Proof. reflexivity. Qed.

(** Any number of later calls for a cached connection, each with whatever
    parameters and scan mode: every call succeeds, the usage counter ends
    as the old one plus the number of calls made with [IFX_PLAN_SCAN], the
    rest of the entry, every other connection, the table cache and
    [TopMemoryContext] are as before. *)
Theorem ifxConnCache_add_each_counts_plan_scans :
  forall (oid : Z) (key : string) (calls : list IfxConnectionInfo)
         (b : Backend) (conns : gmap string IfxCachedConnection)
         (item : IfxCachedConnection),
    connections b = Some conns ->
    conns !! key = Some item ->
    Forall (fun coninfo => conname coninfo = key) calls ->
    - INT_MAX - 1 <= con_usage item ->
    con_usage item + plan_scans calls <= INT_MAX ->
    exists b' conns',
      ifxConnCache_add_each oid calls b = Done b'
      /\ connections b' = Some conns'
      /\ conns' !! key
         = Some (with_usage item (con_usage item + plan_scans calls))
      /\ (forall other, other <> key -> conns' !! other = conns !! other)
      /\ tables b' = tables b
      /\ TopMemoryContext b' = TopMemoryContext b
      /\ IfxCacheIsInitialized b' = IfxCacheIsInitialized b.
Proof.
  intros oid key calls.
  induction calls as [| c rest IH]; intros b conns item Hinit Hitem Hkey Hlo Hhi.
  - exists b, conns. cbn [ifxConnCache_add_each plan_scans].
    rewrite Z.add_0_r, with_usage_same. repeat split; assumption.
  - apply Forall_cons in Hkey as [Hc Hrest].
    cbn [plan_scans] in Hhi |- *.
    pose proof (plan_scans_nonneg rest) as Hnn.
    cbn [ifxConnCache_add_each]. unfold ifxConnCache_add.
    rewrite Hinit, Hc, Hitem.
    destruct (is_plan_scan (scan_mode c)); cbn [bind snd].
    + rewrite usage_incr_below_max by lia.
      edestruct (IH {| IfxCacheIsInitialized := IfxCacheIsInitialized b;
                       connections :=
                         Some (<[key := with_usage item (con_usage item + 1)]>
                                 conns);
                       tables := tables b;
                       TopMemoryContext := TopMemoryContext b |}
                    (<[key := with_usage item (con_usage item + 1)]> conns)
                    (with_usage item (con_usage item + 1)))
        as (b' & conns' & Hrun & Hconns & Hentry & Hothers & Htbl & Hmem & Hflag);
        [reflexivity | apply lookup_insert_eq | exact Hrest
         | cbn [with_usage con_usage]; lia | cbn [with_usage con_usage]; lia |].
      exists b', conns'. split; [exact Hrun |]. split; [exact Hconns |].
      split.
      { rewrite Hentry, with_usage_twice. cbn [with_usage con_usage].
        do 2 f_equal. lia. }
      split.
      { intros other Hother. rewrite Hothers by exact Hother.
        apply lookup_insert_ne. congruence. }
      repeat split; assumption.
    + destruct (IH b conns item Hinit Hitem Hrest Hlo ltac:(lia))
        as (b' & conns' & Hrun & Hconns & Hentry & Hrest').
      exists b', conns'. split; [exact Hrun |]. split; [exact Hconns |].
      split; [| exact Hrest'].
      rewrite Hentry. do 2 f_equal.
Qed.

Lemma ifxConnCache_add_each_demo :
  exists b' conns',
    ifxConnCache_add_each 16399 [demo_coninfo; demo_lookup; demo_coninfo]
      demo_backend = Done b'
    /\ connections b' = Some conns'
    /\ conns' !! "bob-stores-ol_srv"
       = Some (with_usage (new_entry 16384 demo_coninfo "ol_srv"
                             "/opt/informix" "bob" "stores") (1 + 2))
    /\ (forall other, other <> "bob-stores-ol_srv" ->
                      conns' !! other = demo_connections !! other)
    /\ tables b' = Some ∅
    /\ TopMemoryContext b'
       = ["ol_srv"; "/opt/informix"; "bob"; "stores"; "en_US.utf8"]
    /\ IfxCacheIsInitialized b' = true.
Proof.
  apply (ifxConnCache_add_each_counts_plan_scans 16399 "bob-stores-ol_srv"
           [demo_coninfo; demo_lookup; demo_coninfo] demo_backend
           demo_connections
           (new_entry 16384 demo_coninfo "ol_srv" "/opt/informix"
              "bob" "stores")).
  - reflexivity.
  - vm_compute. reflexivity.
  - repeat constructor.
  - vm_compute. intros Hc; discriminate Hc.
  - vm_compute. intros Hc; discriminate Hc.
Defined.

(** A call of [ifxConnCache_add] that returns has touched one connection
    name only: the entry it returns is under the caller's connection name,
    [found] tells whether that name was cached before, every other name has
    the entry it had, the table cache and the initialisation flag are as
    before, and [TopMemoryContext] has only grown. *)
Theorem ifxConnCache_add_touches_one_name :
  forall (oid : Z) (coninfo : IfxConnectionInfo) (b b' : Backend)
         (name : string) (found : bool),
    ifxConnCache_add oid coninfo b = Done (name, found, b') ->
    name = conname coninfo
    /\ (exists conns conns',
           connections b = Some conns /\ connections b' = Some conns'
           /\ found = bool_decide (is_Some (conns !! conname coninfo))
           /\ is_Some (conns' !! conname coninfo)
           /\ forall other, other <> conname coninfo ->
                            conns' !! other = conns !! other)
    /\ tables b' = tables b
    /\ IfxCacheIsInitialized b' = IfxCacheIsInitialized b
    /\ exists added, TopMemoryContext b' = TopMemoryContext b ++ added.
Proof.
  intros oid coninfo b b' name found. unfold ifxConnCache_add.
  destruct (connections b) as [conns |] eqn:Hinit; [| discriminate].
  destruct (conns !! conname coninfo) as [item |] eqn:Hitem.
  - destruct (is_plan_scan (scan_mode coninfo)); intros [= <- <- <-].
    + split; [reflexivity |]. split.
      { exists conns, (<[conname coninfo := usage_incr item]> conns).
        cbn [connections]. rewrite Hitem, lookup_insert_eq.
        repeat split; eauto.
        intros other Hother. apply lookup_insert_ne. congruence. }
      repeat split. exists []. cbn. now rewrite app_nil_r.
    + split; [reflexivity |]. split.
      { exists conns, conns. rewrite Hitem. repeat split; eauto. }
      repeat split. exists []. now rewrite app_nil_r.
  - destruct (servername coninfo) as [sn |]; [| discriminate].
    destruct (informixdir coninfo) as [dir |]; [| discriminate].
    destruct (username coninfo) as [un |]; [| discriminate].
    destruct (database coninfo) as [db |]; [| discriminate].
    cbn [pstrdup bind]. unfold pstrdup_opt.
    destruct (db_locale coninfo), (client_locale coninfo);
      intros [= <- <- <-]; cbn [connections tables TopMemoryContext
                                IfxCacheIsInitialized];
      (split; [reflexivity |]);
      (split;
        [eexists conns, _; rewrite Hitem, lookup_insert_eq;
         split; [reflexivity |]; split; [reflexivity |];
         split; [reflexivity |]; split; [eauto |];
         intros other Hother; apply lookup_insert_ne; congruence |]);
      (split; [reflexivity |]); (split; [reflexivity |]);
      rewrite <- ?app_assoc; eexists; reflexivity.
Qed.

Lemma ifxConnCache_add_touches_one_name_demo :
  exists b',
    ifxConnCache_add 16399 demo_coninfo demo_backend
      = Done ("bob-stores-ol_srv", true, b')
    /\ tables b' = Some ∅
    /\ IfxCacheIsInitialized b' = true.
Proof.
  eexists. split; [reflexivity |].
  destruct (ifxConnCache_add_touches_one_name 16399 demo_coninfo demo_backend
              _ "bob-stores-ol_srv" true eq_refl)
    as (_ & _ & Htbl & Hflag & _).
  split; [exact Htbl | exact Hflag].
Defined.

(** The table cache never replaces a name: once a call for a table has
    returned, a later call for the same table returns the same entry and
    leaves the backend as it is, whatever connection name it passes. *)
Theorem ifxFTCache_add_first_name_stays :
  forall (L L' : nat) (raw raw' : list ascii) (oid : Z)
         (conname conname' : string) (b b1 : Backend) (entry : Z),
    ifxFTCache_add L raw oid conname b = Done (entry, b1) ->
    entry = oid
    /\ ifxFTCache_add L' raw' oid conname' b1 = Done (oid, b1)
    /\ connections b1 = connections b
    /\ TopMemoryContext b1 = TopMemoryContext b
    /\ exists tbl tbl', tables b = Some tbl /\ tables b1 = Some tbl'
         /\ forall other, other <> oid -> tbl' !! other = tbl !! other.
Proof.
  intros L L' raw raw' oid conname conname' b b1 entry.
  unfold ifxFTCache_add at 1.
  destruct (tables b) as [tbl |] eqn:Htbl; [| discriminate].
  destruct (tbl !! oid) as [item |] eqn:Hitem.
  - intros [= <- <-]. split; [reflexivity |]. split.
    { unfold ifxFTCache_add. now rewrite Htbl, Hitem. }
    repeat split. exists tbl, tbl. repeat split. exact Htbl.
  - destruct (bzero raw L) as [zeroed |]; [| discriminate]. cbn [bind].
    destruct (StrNCpy zeroed conname (strlen conname)) as [name |];
      [| discriminate].
    cbn [bind]. intros [= <- <-]. split; [reflexivity |]. split.
    { unfold ifxFTCache_add. cbn [tables]. now rewrite lookup_insert_eq. }
    repeat split. eexists tbl, _. cbn [tables]. repeat split.
    intros other Hother. apply lookup_insert_ne. congruence.
Qed.

Lemma ifxFTCache_add_first_name_stays_demo :
  exists b1,
    ifxFTCache_add 4 (replicate 4 "x"%char) 16384 "abc"
      (InformixCacheInit backend_start) = Done (16384, b1)
    /\ ifxFTCache_add 4 (replicate 4 "y"%char) 16384 "other" b1
       = Done (16384, b1).
Proof.
  eexists. split; [reflexivity |].
  apply (ifxFTCache_add_first_name_stays 4 4 (replicate 4 "x"%char)
           (replicate 4 "y"%char) 16384 "abc" "other"
           (InformixCacheInit backend_start) _ 16384 eq_refl).
Defined.

End CacheProperties.

(** ** Options *)

Section FdwProperties.
Import Fdw.

(** [ifxIsValidOption] looks at the catalog only. *)
Lemma ifxIsValidOption_spec :
  forall (option : string) (context : Z),
    ifxIsValidOption option context = true <-> known_catalog context.
Proof.
  intros option context.
  unfold known_catalog, ifxIsValidOption, ifx_valid_options.
  cbn [ifxIsValidOption_from].
  unfold ForeignServerRelationId, UserMappingRelationId, ForeignTableRelationId.
  destruct (Z.eqb_spec context 1417) as [-> | H1]; [cbn; tauto |].
  destruct (Z.eqb_spec context 1418) as [-> | H2]; [cbn; tauto |].
  destruct (Z.eqb_spec context 3118) as [-> | H3]; [cbn; tauto |].
  cbn. split; [discriminate | tauto].
Qed.

Lemma ifxGetOptionDups_other_name (libc : Libc) (coninfo : IfxConnectionInfo)
    (def : DefElem) :
  defname def ∉ checked_names ->
  ifxGetOptionDups libc coninfo def = OK coninfo.
Proof.
  unfold checked_names. intros Hname.
  repeat (apply not_elem_of_cons in Hname as [? Hname]).
  assert (Hcmp : forall name, defname def <> name ->
                              (strcmp (defname def) name =? 0) = false).
  { intros name Hne. unfold strcmp.
    destruct (String.compare (defname def) name) eqn:Hc; try reflexivity.
    apply String.compare_eq_iff in Hc. contradiction. }
  unfold ifxGetOptionDups. rewrite !Hcmp by assumption. reflexivity.
Qed.

(** For a catalog of the table of valid options the validator accepts every
    list of options whose names are not among those checked for duplicates,
    whether the table lists them or not and however often they occur. *)
Theorem ifx_fdw_validator_accepts_unlisted_names :
  forall (libc : Libc) (options : list DefElem) (catalogOid : Z),
    known_catalog catalogOid ->
    Forall (fun def => defname def ∉ checked_names) options ->
    ifx_fdw_validator libc options catalogOid = OK tt.
Proof.
  intros libc options catalogOid Hcat Hnames. unfold ifx_fdw_validator.
  generalize coninfo_zero.
  induction Hnames as [| def rest Hdef _ IH]; intros coninfo; [reflexivity |].
  cbn [ifx_fdw_validator_from].
  replace (ifxIsValidOption (defname def) catalogOid) with true
    by (symmetry; now apply ifxIsValidOption_spec).
  cbn [negb]. rewrite ifxGetOptionDups_other_name by exact Hdef.
  apply IH.
Qed.

Lemma ifx_fdw_validator_accepts_unlisted_names_demo :
  ifx_fdw_validator demo_libc
    [ {| defname := "no_such_option"; arg := "1" |};
      {| defname := "informixserver"; arg := "a" |};
      {| defname := "informixserver"; arg := "b" |} ]
    ForeignTableRelationId = OK tt.
Proof.
  apply ifx_fdw_validator_accepts_unlisted_names.
  - right. right. reflexivity.
  - repeat constructor; vm_compute; intros Hin;
      repeat (apply elem_of_cons in Hin as [Hin | Hin]; [discriminate Hin |]);
      now apply elem_of_nil in Hin.
Defined.


Lemma ifxFdwOptionsToStringBuf_elsewhere (context : Z) :
  ~ known_catalog context -> ifxFdwOptionsToStringBuf context = EmptyString.
Proof.
  unfold known_catalog, ifxFdwOptionsToStringBuf, ifx_valid_options.
  unfold ForeignServerRelationId, UserMappingRelationId, ForeignTableRelationId.
  intros Hcat. cbn [ifxFdwOptionsToStringBuf_from].
  destruct (Z.eqb_spec context 1417); [tauto |].
  destruct (Z.eqb_spec context 1418); [tauto |].
  destruct (Z.eqb_spec context 3118); [tauto |].
  reflexivity.
Qed.

(** For any other catalog the validator rejects the first option of the
    list, whatever its name, and the hint names no valid option. *)
Theorem ifx_fdw_validator_rejects_every_option_elsewhere :
  forall (libc : Libc) (def : DefElem) (rest : list DefElem) (catalogOid : Z),
    ~ known_catalog catalogOid ->
    ifx_fdw_validator libc (def :: rest) catalogOid
    = ERROR {| errcode := ERRCODE_FDW_INVALID_OPTION_NAME;
               errmsg := "invalid option " +:+ dquote +:+ defname def
                         +:+ dquote;
               errhint := Some "Valid options in this context are: <none>" |}.
Proof.
  intros libc def rest catalogOid Hcat.
  unfold ifx_fdw_validator. cbn [ifx_fdw_validator_from].
  destruct (ifxIsValidOption (defname def) catalogOid) eqn:Hvalid.
  - apply ifxIsValidOption_spec in Hvalid. contradiction.
  - cbn [negb]. now rewrite ifxFdwOptionsToStringBuf_elsewhere.
Qed.

Lemma ifx_fdw_validator_rejects_every_option_elsewhere_demo :
  ifx_fdw_validator demo_libc [ {| defname := "database"; arg := "stores" |} ]
    2328
  = ERROR {| errcode := ERRCODE_FDW_INVALID_OPTION_NAME;
             errmsg := "invalid option " +:+ dquote +:+ "database" +:+ dquote;
             errhint := Some "Valid options in this context are: <none>" |}.
Proof.
  apply (ifx_fdw_validator_rejects_every_option_elsewhere demo_libc
           {| defname := "database"; arg := "stores" |} [] 2328).
  vm_compute. intros [Hc | [Hc | Hc]]; discriminate Hc.
Defined.

(** With a [strtof] that returns zero when it reads nothing, the number
    check of [estimated_rows] and [connection_costs] rejects no value: the
    option is stored whatever its text. *)
Theorem ifxGetOptionDups_accepts_every_number :
  forall (libc : Libc) (coninfo : IfxConnectionInfo) (def : DefElem),
    strtof_zero_when_nothing_read libc ->
    (defname def = "estimated_rows"
     -> ifxGetOptionDups libc coninfo def
        = OK (set_estimated_rows coninfo (fst (strtof libc (arg def)))))
    /\ (defname def = "connection_costs"
        -> ifxGetOptionDups libc coninfo def
           = OK (set_connection_costs coninfo (fst (strtof libc (arg def))))).
Proof.
  intros libc coninfo def Hlibc.
  assert (Hcheck : forall f used,
             strtof libc (arg def) = (f, used) ->
             (used =? 0)%nat && float_lt0 f = false).
  { intros f used Hs. destruct (Nat.eqb_spec used 0) as [-> |]; [| reflexivity].
    specialize (Hlibc (arg def)). rewrite Hs in Hlibc. cbn in Hlibc.
    now rewrite Hlibc. }
  split; intros Hname; unfold ifxGetOptionDups; rewrite Hname;
    cbn [strcmp String.compare Ascii.compare]; cbn -[strtof];
    unfold defGetString;
    destruct (strtof libc (arg def)) as [f used] eqn:Hs;
    cbn [fst]; rewrite (Hcheck f used eq_refl); reflexivity.
Qed.

Lemma ifxGetOptionDups_accepts_every_number_demo :
  ifxGetOptionDups demo_libc coninfo_zero
    {| defname := "estimated_rows"; arg := "many" |}
  = OK (set_estimated_rows coninfo_zero FZero).
Proof.
  destruct (ifxGetOptionDups_accepts_every_number demo_libc coninfo_zero
              {| defname := "estimated_rows"; arg := "many" |}) as [Hrows _].
  - intros s _. reflexivity.
  - apply Hrows. reflexivity.
Defined.


(** ** Reading the options *)

Lemma strcmp_eqb (a b : string) : (strcmp a b =? 0) = String.eqb a b.
Proof.
  unfold strcmp. destruct (String.eqb_spec a b) as [-> | Hne].
  - pose proof (String.compare_antisym b b) as Hc.
    destruct (String.compare b b); [reflexivity | discriminate Hc ..].
  - destruct (String.compare a b) eqn:Hc; try reflexivity.
    apply String.compare_eq_iff in Hc. contradiction.
Qed.

Lemma ifxGetOptions_round_members (libc : Libc) (c : IfxConnectionInfo)
    (d : DefElem) :
  let c' := ifxGetOptions_round libc c d in
  servername c' = (if String.eqb (defname d) "informixserver"
                   then Some (arg d) else servername c)
  /\ database c' = (if String.eqb (defname d) "database"
                    then Some (arg d) else database c)
  /\ username c' = (if String.eqb (defname d) "username"
                    then Some (arg d) else username c)
  /\ password c' = (if String.eqb (defname d) "password"
                    then Some (arg d) else password c)
  /\ tablename c' = (if String.eqb (defname d) "table"
                     then Some (arg d) else tablename c)
  /\ query c' = (if String.eqb (defname d) "query"
                 then Some (arg d) else query c)
  /\ conname c' = conname c.
Proof.
  unfold ifxGetOptions_round. rewrite !strcmp_eqb. unfold defGetString.
  destruct (String.eqb (defname d) "informixserver"),
           (String.eqb (defname d) "database"),
           (String.eqb (defname d) "username"),
           (String.eqb (defname d) "password"),
           (String.eqb (defname d) "table"),
           (String.eqb (defname d) "query"),
           (String.eqb (defname d) "estimated_rows"),
           (String.eqb (defname d) "connection_costs");
    cbn; repeat split.
Qed.

Lemma read_member_cons (name : string) (d : DefElem) (rest : list DefElem)
    (before : option string) :
  read_member name (d :: rest) before
  = read_member name rest
      (if String.eqb (defname d) name then Some (arg d) else before).
Proof.
  unfold read_member. cbn [last_value].
  destruct (last_value name rest); [reflexivity |].
  now destruct (String.eqb (defname d) name).
Qed.

(** [ifxGetOptions] gives each pointer member the value of the last option
    that names it, over the options of the table, then the server, then the
    user mapping, the server being named by [informixserver]; a member that
    no option names keeps what the caller's struct held. *)
Theorem ifxGetOptions_takes_the_last_value :
  forall (libc : Libc) (table_options server_options user_options : list DefElem)
         (coninfo : IfxConnectionInfo),
    let options := table_options ++ server_options ++ user_options in
    let read := ifxGetOptions libc table_options server_options user_options
                              coninfo in
    servername read = read_member "informixserver" options (servername coninfo)
    /\ database read = read_member "database" options (database coninfo)
    /\ username read = read_member "username" options (username coninfo)
    /\ password read = read_member "password" options (password coninfo)
    /\ tablename read = read_member "table" options (tablename coninfo)
    /\ query read = read_member "query" options (query coninfo)
    /\ conname read = conname coninfo.
Proof.
  intros libc table_options server_options user_options coninfo options read.
  subst read. unfold ifxGetOptions. fold options. clearbody options.
  revert coninfo.
  induction options as [| d rest IH]; intros coninfo.
  - cbn. repeat split.
  - cbn [fold_left]. rewrite !read_member_cons.
    destruct (ifxGetOptions_round_members libc coninfo d)
      as (<- & <- & <- & <- & <- & <- & <-).
    apply IH.
Qed.


(** ** Connection names *)

Lemma string_app_assoc (a b c : string) : (a +:+ b) +:+ c = a +:+ (b +:+ c).
Proof.
  induction a as [| x a IH]; [reflexivity |].
  change (String x ((a +:+ b) +:+ c) = String x (a +:+ b +:+ c)).
  now f_equal.
Qed.

Lemma list_ascii_of_string_app (a b : string) :
  list_ascii_of_string (a +:+ b)
  = list_ascii_of_string a ++ list_ascii_of_string b.
Proof.
  induction a as [| x a IH]; [reflexivity |].
  change (x :: list_ascii_of_string (a +:+ b)
          = x :: (list_ascii_of_string a ++ list_ascii_of_string b)).
  now f_equal.
Qed.

(** The connection name does not tell the connection: a dash in the user
    name or in the database name may be read as the separator, so that two
    connections to different databases under different users get the same
    name. *)
Theorem ifxGenerateConnName_is_ambiguous :
  forall (c c' : IfxConnectionInfo) (u x d s : string),
    username c = Some (u +:+ "-" +:+ x) -> database c = Some d ->
    servername c = Some s ->
    username c' = Some u -> database c' = Some (x +:+ "-" +:+ d) ->
    servername c' = Some s ->
    ifxGenerateConnName c = ifxGenerateConnName c'
    /\ ifxGenerateConnName c
       = OK (u +:+ "-" +:+ x +:+ "-" +:+ d +:+ "-" +:+ s).
Proof.
  intros c c' u x d s Hu Hd Hs Hu' Hd' Hs'. unfold ifxGenerateConnName.
  rewrite Hu, Hd, Hs, Hu', Hd', Hs'.
  rewrite !string_app_assoc. split; reflexivity.
Qed.

Lemma ifxGenerateConnName_is_ambiguous_demo :
  ifxGenerateConnName
    (set_servername (set_database (set_username coninfo_zero "a-b") "c") "s")
  = ifxGenerateConnName
      (set_servername (set_database (set_username coninfo_zero "a") "b-c") "s")
  /\ ifxGenerateConnName
       (set_servername (set_database (set_username coninfo_zero "a-b") "c") "s")
     = OK "a-b-c-s".
Proof.
  apply (ifxGenerateConnName_is_ambiguous _ _ "a" "b" "c" "s");
    reflexivity.
Defined.

Lemma cstring_at_first_NUL (buf : list ascii) (k : nat) :
  Forall (fun c => c <> NUL) (take k buf) ->
  buf !! k = Some NUL ->
  cstring buf = string_of_list_ascii (take k buf).
Proof.
  intros Hfront Hnul.
  rewrite <- (take_drop_middle buf k NUL Hnul) at 1.
  now apply cstring_stops_at_NUL.
Qed.

Lemma StrNCpy_into_zeroed (L : nat) (name : string) :
  ConnCache.nul_free name ->
  exists buf,
    ConnCache.StrNCpy (replicate (L + 1) NUL) name L = ConnCache.Done buf
    /\ cstring buf = cut (L - 1) name.
Proof.
  unfold ConnCache.nul_free, cut. intros Hfree.
  set (l := list_ascii_of_string name) in *.
  unfold ConnCache.StrNCpy. destruct L as [| n].
  - cbn. eexists. split; reflexivity.
  - replace (0 <? S n)%nat with true by reflexivity.
    unfold ConnCache.strncpy. fold l.
    rewrite length_replicate.
    replace (S n <=? S n + 1)%nat with true
      by (symmetry; apply Nat.leb_le; lia).
    cbn [ConnCache.bind]. eexists. split; [reflexivity |].
    replace (S n - 1)%nat with n by lia.
    rewrite drop_replicate.
    replace (S n + 1 - S n)%nat with 1%nat by lia.
    change (replicate 1 NUL) with [NUL].
    set (copy := take (S n) (l ++ replicate (S n) NUL)).
    assert (Hcopy : length copy = S n).
    { subst copy. rewrite length_take, length_app, length_replicate. lia. }
    set (k := (length l `min` n)%nat).
    assert (Hfront : take k (<[n := NUL]> (copy ++ [NUL])) = take n l).
    { rewrite take_insert_ge by lia.
      rewrite take_app_le by lia. subst copy.
      rewrite take_take. replace (k `min` S n)%nat with k by lia.
      rewrite take_app_le by lia.
      destruct (Nat.le_gt_cases (length l) n) as [Hshort | Hlong].
      - rewrite !take_ge by lia. reflexivity.
      - now replace k with n by lia. }
    rewrite (cstring_at_first_NUL _ k).
    + now rewrite Hfront.
    + rewrite Hfront. now apply Forall_take.
    + destruct (Nat.eq_dec k n) as [-> | Hne].
      * apply list_lookup_insert_eq. rewrite length_app, Hcopy. cbn. lia.
      * rewrite list_lookup_insert_ne by lia.
        rewrite lookup_app_l by lia. subst copy.
        rewrite lookup_take_lt by lia.
        rewrite lookup_app_r by lia.
        replace (k - length l)%nat with 0%nat by lia. reflexivity.
Qed.

(** [ifxMakeConnectionInfo] keeps the first [IFX_CONNAME_LEN - 1] characters
    of the generated name, so that connections whose names differ later
    share a name; and the plan values it returns are the defaults, whatever
    [estimated_rows] and [connection_costs] the options gave. *)
Theorem ifxMakeConnectionInfo_cuts_the_name :
  forall (libc : Libc) (IFX_CONNAME_LEN : nat) (palloced : IfxConnectionInfo)
         (table_options server_options user_options : list DefElem)
         (name : string),
    let read := ifxGetOptions libc table_options server_options user_options
                              palloced in
    ifxGenerateConnName read = OK name ->
    ConnCache.nul_free name ->
    exists coninfo,
      ifxMakeConnectionInfo libc IFX_CONNAME_LEN palloced
        table_options server_options user_options = OK coninfo
      /\ conname coninfo = cut (IFX_CONNAME_LEN - 1) name
      /\ planData coninfo
         = {| estimated_rows := FPositive; connection_costs := FPositive |}
      /\ servername coninfo = servername read
      /\ database coninfo = database read
      /\ username coninfo = username read
      /\ password coninfo = password read
      /\ tablename coninfo = tablename read
      /\ query coninfo = query read.
Proof.
  intros libc L palloced topts sopts uopts name read Hname Hfree.
  unfold ifxMakeConnectionInfo. fold read. rewrite Hname. cbn [bind].
  destruct (StrNCpy_into_zeroed L name Hfree) as (buf & -> & Hbuf).
  eexists. split; [reflexivity |]. rewrite Hbuf. repeat split.
Qed.

Lemma ifxMakeConnectionInfo_cuts_the_name_demo :
  exists coninfo,
    ifxMakeConnectionInfo demo_libc 8 stale_coninfo
      [ {| defname := "database"; arg := "stores" |};
        {| defname := "estimated_rows"; arg := "5" |} ]
      [ {| defname := "informixserver"; arg := "ol_srv" |} ]
      [ {| defname := "username"; arg := "bob" |} ] = OK coninfo
    /\ conname coninfo = "bob-sto"
    /\ planData coninfo
       = {| estimated_rows := FPositive; connection_costs := FPositive |}
    /\ servername coninfo = Some "ol_srv"
    /\ database coninfo = Some "stores"
    /\ username coninfo = Some "bob"
    /\ password coninfo = Some "stale password"
    /\ tablename coninfo = Some "stale table"
    /\ query coninfo = Some "stale query".
Proof.
  apply (ifxMakeConnectionInfo_cuts_the_name demo_libc 8 stale_coninfo
           [ {| defname := "database"; arg := "stores" |};
             {| defname := "estimated_rows"; arg := "5" |} ]
           [ {| defname := "informixserver"; arg := "ol_srv" |} ]
           [ {| defname := "username"; arg := "bob" |} ]
           "bob-stores-ol_srv").
  - reflexivity.
  - repeat constructor; intros Hc; discriminate Hc.
Defined.

(** ** The query of a scan *)

(** Without a [query] option the query is [SELECT * FROM] and the table
    name, in full: the buffer of [strlen(tablename) + 15] bytes holds the
    text and its NUL with no byte to spare. *)
Theorem ifxBeginForeignScan_query_selects_the_table :
  forall (palloced : list ascii) (coninfo : IfxConnectionInfo) (t : string),
    query coninfo = None ->
    tablename coninfo = Some t ->
    length palloced = (strlen t + 15)%nat ->
    ConnCache.nul_free t ->
    ifxBeginForeignScan_query palloced coninfo = OK ("SELECT * FROM " +:+ t)
    /\ (strlen ("SELECT * FROM " +:+ t) + 1 = length palloced)%nat.
Proof.
  intros palloced coninfo t Hq Ht Hlen Hfree.
  assert (Hout : length (list_ascii_of_string ("SELECT * FROM " +:+ t))
                 = (strlen t + 14)%nat).
  { rewrite list_ascii_of_string_app, length_app,
      !length_list_ascii_of_string. unfold strlen. cbn. lia. }
  split.
  - unfold ifxBeginForeignScan_query, snprintf_s. rewrite Hq, Ht, Hlen.
    rewrite Nat.ltb_irrefl.
    replace (strlen t + 15)%nat with (S (strlen t + 14)) by lia.
    rewrite take_ge by lia. cbn [bind]. f_equal.
    rewrite cstring_stops_at_NUL.
    + apply string_of_list_ascii_of_string.
    + rewrite list_ascii_of_string_app. apply Forall_app. split; [| exact Hfree].
      repeat constructor; intros Hc; discriminate Hc.
  - unfold strlen in *. rewrite <- length_list_ascii_of_string, Hout, Hlen.
    unfold strlen. lia.
Qed.

Lemma ifxBeginForeignScan_query_selects_the_table_demo :
  ifxBeginForeignScan_query (replicate 24 "?"%char)
    (set_tablename coninfo_zero "customers")
  = OK "SELECT * FROM customers"
  /\ (strlen "SELECT * FROM customers" + 1
      = length (replicate 24 "?"%char))%nat.
Proof.
  apply (ifxBeginForeignScan_query_selects_the_table (replicate 24 "?"%char)
           (set_tablename coninfo_zero "customers") "customers").
  - reflexivity.
  - reflexivity.
  - reflexivity.
  - repeat constructor; intros Hc; discriminate Hc.
Defined.

End FdwProperties.

(** ** The scan *)

Section FdwScanProperties.
Import Fdw.

(** ** Local column definitions *)

Lemma wr_keeps_no_descriptor (defs defs' : list (ptr PgAttrDef)) (i : Z) :
  Forall no_descriptor defs ->
  wr defs i Null = OK defs' ->
  Forall no_descriptor defs'.
Proof.
  unfold wr, zset. intros Hdefs.
  destruct ((0 <=? i) && (i <? Z.of_nat (length defs))); [| discriminate].
  intros [= <-]. apply Forall_insert; [exact Hdefs | now right].
Qed.

Lemma ifxPgColumnData_loop_all_dropped (tuples : list Form_pg_attribute) :
  forall (attrIndex pgAttrCount : Z) (defs defs' : list (ptr PgAttrDef)),
    Forall no_descriptor defs ->
    ifxPgColumnData_loop tuples attrIndex pgAttrCount defs = OK defs' ->
    Forall (fun t => pg_attisdropped t = true) tuples
    /\ Forall no_descriptor defs'.
Proof.
  induction tuples as [| t rest IH]; intros attrIndex pgAttrCount defs defs' Hdefs.
  - intros [= <-]. split; [constructor | exact Hdefs].
  - cbn [ifxPgColumnData_loop].
    destruct (pg_attisdropped t) eqn:Hdropped.
    + destruct (wr defs (attrIndex + 1 - 1) Null) as [defs1 | |] eqn:Hwr;
        try discriminate.
      cbn [bind]. intros Hloop.
      destruct (IH _ _ defs1 defs' (wr_keeps_no_descriptor _ _ _ Hdefs Hwr) Hloop)
        as [Hrest Hcells].
      split; [now constructor | exact Hcells].
    + destruct (attrIndex + 1 >=? pgAttrCount); [discriminate |].
      unfold rd. destruct (zidx defs (attrIndex + 1 - 1)) as [cell |] eqn:Hcell;
        [| discriminate].
      cbn [bind].
      assert (Hno : no_descriptor cell).
      { unfold zidx in Hcell.
        destruct (attrIndex + 1 - 1 <? 0); [discriminate |].
        eapply Forall_lookup_1; eassumption. }
      destruct Hno as [-> | ->]; discriminate.
Qed.

(** [ifxPgColumnData] returns only for a table all of whose columns are
    dropped: no cell of [pgAttrDefs] ever gets a descriptor to point at, so
    the first column that is not dropped ends the call in an error or a
    fault, and a call that returns leaves no descriptor in the array. *)
Theorem ifxPgColumnData_returns_for_dropped_columns_only :
  forall (cells_per_def : nat) (relnatts : Z) (tuples : list Form_pg_attribute)
         (pgAttrCount : Z) (pgAttrDefs : list (ptr PgAttrDef)),
    ifxPgColumnData cells_per_def relnatts tuples = OK (pgAttrCount, pgAttrDefs) ->
    Forall (fun t => pg_attisdropped t = true) tuples
    /\ pgAttrCount = relnatts
    /\ Forall no_descriptor pgAttrDefs.
Proof.
  intros cells relnatts tuples n defs. unfold ifxPgColumnData.
  destruct (wr _ (relnatts + 1) Null) as [defs0 | |] eqn:Hwr; try discriminate.
  cbn [bind].
  destruct (ifxPgColumnData_loop tuples 0 relnatts defs0) as [defs1 | |] eqn:Hloop;
    try discriminate.
  cbn [bind]. intros [= <- <-].
  destruct (ifxPgColumnData_loop_all_dropped tuples 0 relnatts defs0 defs1)
    as [Hall Hcells]; [| exact Hloop | now repeat split].
  eapply wr_keeps_no_descriptor; [| exact Hwr].
  apply Forall_replicate. now left.
Qed.

Lemma ifxPgColumnData_returns_for_dropped_columns_only_demo :
  Forall (fun t => pg_attisdropped t = true) [dropped_column 1; dropped_column 2]
  /\ 2 = 2
  /\ Forall no_descriptor
       [Null; Null; Wild; Null; Wild; Wild; Wild; Wild; Wild].
Proof.
  apply (ifxPgColumnData_returns_for_dropped_columns_only 3 2
           [dropped_column 1; dropped_column 2]).
  reflexivity.
Defined.

(** ** Column values *)

(** With the position of a column counted from 1, as the remote side counts
    it, [ifxColumnValueByAttNum] reads an INTEGER or SERIAL column into the
    [IfxValue] that the cell of [values] before that position points at,
    with the column's descriptor, and touches nothing else of the state;
    a cell that points at no [IfxValue] is dereferenced all the same, and a
    position past [values] is read outside the array.  A column of any
    other type is an error. *)
Theorem ifxColumnValueByAttNum_counts_from_one :
  forall (Cursor : Type) (api : Esql Cursor)
         (state : IfxFdwExecutionState Cursor) (attnum : Z) (d : IfxAttrDef),
    zidx (ifxAttrDefs (stmt_info state)) (attnum - 1) = Some d ->
    match type d with
    | IFX_INTEGER | IFX_SERIAL =>
      match zidx (values state) (attnum - 1) with
      | Some (Some _) =>
        ifxColumnValueByAttNum api state attnum
        = OK (with_values state
                (<[Z.to_nat (attnum - 1) :=
                     Some {| val := ifxGetInt api (stmt_info state) attnum;
                             def := Some d |}]> (values state)))
      | Some None => ifxColumnValueByAttNum api state attnum = FAULT NullPointer
      | None => ifxColumnValueByAttNum api state attnum = FAULT OutOfBounds
      end
    | IFX_TYPE_OTHER _ =>
      exists e, ifxColumnValueByAttNum api state attnum = ERROR e
    end.
Proof.
  intros Cursor api state attnum d Hd.
  unfold ifxColumnValueByAttNum, rd. rewrite Hd. cbn [bind].
  assert (Hwr : forall cell v,
             zidx (values state) (attnum - 1) = Some cell ->
             wr (values state) (attnum - 1) v
             = OK (<[Z.to_nat (attnum - 1) := v]> (values state))).
  { intros cell v Hcell. unfold wr.
    now rewrite (zset_of_zidx _ _ cell v Hcell). }
  destruct (type d); [| | eexists; reflexivity];
    destruct (zidx (values state) (attnum - 1)) as [[old |] |] eqn:Hcell;
    cbn [bind]; try reflexivity;
    rewrite (Hwr _ _ eq_refl); reflexivity.
Qed.

Lemma ifxColumnValueByAttNum_counts_from_one_demo :
  ifxColumnValueByAttNum demo_api
    (with_values (scan_state [int_column; int_column] 2 [Null; Null])
       [Some {| val := 0; def := None |}; Some {| val := 0; def := None |};
        None]) 2
  = OK (with_values
          (with_values (scan_state [int_column; int_column] 2 [Null; Null])
             [Some {| val := 0; def := None |};
              Some {| val := 0; def := None |}; None])
          [Some {| val := 0; def := None |};
           Some {| val := 42; def := Some int_column |}; None]).
Proof.
  apply (ifxColumnValueByAttNum_counts_from_one unit demo_api
           (with_values (scan_state [int_column; int_column] 2 [Null; Null])
              [Some {| val := 0; def := None |};
               Some {| val := 0; def := None |}; None]) 2 int_column).
  reflexivity.
Defined.

(** ** Row iteration *)

Lemma ifxIterateForeignScan_assigns_no_cell_demo :
  tts_nvalid {| tts_isempty := false; tts_nvalid := 1;
                tts_values := [None]; tts_isnull := [None] |}
  = ifxAttrCount
      (stmt_info (with_values (scan_state [int_column] 1 [Null]) [None; None]))
  /\ [@None bool] = replicate (Z.to_nat 1) None
  /\ [@None Z] = replicate (Z.to_nat 1) None.
Proof.
  apply (ifxIterateForeignScan_assigns_no_cell demo_api
           (scan_state [int_column] 1 [Null])
           (with_values (scan_state [int_column] 1 [Null]) [None; None])
           fresh_slot
           {| tts_isempty := false; tts_nvalid := 1;
              tts_values := [None]; tts_isnull := [None] |});
    reflexivity.
Defined.

Lemma ifxIterateForeignScan_loop_uses_ifxGetInt_only
    {Cursor : Type} (api api' : Esql Cursor) (fuel : nat) :
  (forall si n, ifxGetInt api si n = ifxGetInt api' si n) ->
  forall (i : Z) (state : IfxFdwExecutionState Cursor) (slot : TupleTableSlot),
    ifxIterateForeignScan_loop api fuel i state slot
    = ifxIterateForeignScan_loop api' fuel i state slot.
Proof.
  intros Hsame. induction fuel as [| fuel IH]; intros i state slot;
    [reflexivity |].
  cbn [ifxIterateForeignScan_loop].
  assert (Hcol : ifxColumnValueByAttNum api state i
                 = ifxColumnValueByAttNum api' state i).
  { unfold ifxColumnValueByAttNum. now rewrite Hsame. }
  rewrite Hcol.
  destruct (ifxColumnValueByAttNum api' state i) as [state1 | |];
    [| reflexivity ..].
  cbn [bind].
  destruct (rd (pgAttrDefs state1) i) as [[| |] | |]; cbn [bind];
    try reflexivity.
  - destruct (slot_store slot i true NullDatum); cbn [bind];
      [apply IH | reflexivity ..].
  - destruct (rd (ifxAttrDefs (stmt_info state1)) i) as [ifxdef | |];
      cbn [bind]; try reflexivity.
    destruct (indicator ifxdef).
    + destruct (slot_store slot i true NullDatum); cbn [bind];
        [apply IH | reflexivity ..].
    + destruct (rd (values state1) i) as [[v |] | |]; cbn [bind];
        try reflexivity.
      destruct (slot_store slot i false (val v)); cbn [bind];
        [apply IH | reflexivity ..].
Qed.

(** [ifxIterateForeignScan] reports no error of the fetch: whatever class
    of SQLSTATE other than not-found the fetch left, the scan goes on to
    read the columns exactly as after a fetch that succeeded. *)
Theorem ifxIterateForeignScan_ignores_fetch_errors :
  forall (Cursor : Type) (api : Esql Cursor)
         (state : IfxFdwExecutionState Cursor) (tupleSlot : TupleTableSlot)
         (errclass : IfxSqlStateClass) (si : IfxStatementInfo Cursor),
    ifxSetException api (ifxFetchRowFromCursor api (stmt_info state))
      = (errclass, si) ->
    is_not_found errclass = false ->
    ifxIterateForeignScan api state tupleSlot
    = ifxIterateForeignScan
        {| ifxFetchRowFromCursor := ifxFetchRowFromCursor api;
           ifxSetException := fun _ => (IFX_SUCCESS, si);
           ifxGetInt := ifxGetInt api |}
        state tupleSlot.
Proof.
  intros Cursor api state tupleSlot errclass si Hfetch Hfound.
  unfold ifxIterateForeignScan. rewrite Hfetch, Hfound.
  cbn [ifxSetException ifxFetchRowFromCursor is_not_found].
  apply ifxIterateForeignScan_loop_uses_ifxGetInt_only. reflexivity.
Qed.

Lemma ifxIterateForeignScan_ignores_fetch_errors_demo :
  ifxIterateForeignScan failing_api (scan_state [int_column] 1 [Null])
    fresh_slot
  = ifxIterateForeignScan
      {| ifxFetchRowFromCursor := ifxFetchRowFromCursor failing_api;
         ifxSetException :=
           fun _ => (IFX_SUCCESS,
                     stmt_info (scan_state [int_column] 1 [Null]));
         ifxGetInt := ifxGetInt failing_api |}
      (scan_state [int_column] 1 [Null]) fresh_slot.
Proof.
  apply (ifxIterateForeignScan_ignores_fetch_errors unit failing_api
           (scan_state [int_column] 1 [Null]) fresh_slot IFX_RT_ERROR);
    reflexivity.
Defined.

End FdwScanProperties.

(** ** Single conversion routines *)

Section ConvProperties.
Import Conv.

(** Running a routine on a state: the definitions are unfolded and the
    tests rewritten with [rw] until nothing moves. *)
Ltac conv_run rw :=
  repeat first
    [ rw
    | progress cbv beta iota
    | progress cbn [fst snd app negb orb andb is_IFX_SMALLINT is_IFX_INTEGER
                    is_IFX_SERIAL is_IFX_INT8 is_IFX_SERIAL8 is_IFX_INFX_INT8]
    | progress unfold bind, ret, mapped, remote, get_state, pg_def, ifx_def,
        PG_ATTRTYPE_P, PG_ATTRTYPEMOD_P, IFX_ATTRTYPE_P, IFX_ATTR_ISNULL_P,
        IFX_ATTR_IS_VALID_P, PG_TRY,
        PG_RE_THROW, rewind_and_rethrow, ifxRewindCallstack, emit, elog_ERROR,
        OidFunctionCall, getTypeInputFunction, getTypeCastFunction ].

Lemma wide_target_is_no_int (t : Z) :
  oid_in t [INT8OID; TEXTOID; VARCHAROID; BPCHAROID] = true ->
  (t =? INT2OID) = false /\ (t =? INT4OID) = false.
Proof.
  unfold oid_in, INT8OID, TEXTOID, VARCHAROID, BPCHAROID, INT2OID, INT4OID.
  cbn [existsb]. intros Hin.
  repeat (apply orb_true_iff in Hin as [Hin | Hin];
          [apply Z.eqb_eq in Hin; subst; split; reflexivity |]).
  discriminate Hin.
Qed.

(** For a target of type int8, text, varchar or bpchar, [convertIfxInt]
    takes every source type but INTEGER and the 8-byte types for a 2-byte
    integer: a SERIAL column is read with [ifxGetInt2] and cast from
    [INT2OID]. *)
Theorem convertIfxInt_reads_serial_as_int2 :
  forall (env : Env) (attnum : Z) (s : IfxFdwExecutionState)
         (pgdef : PgAttrDef) (ad : IfxAttrDef) (castfunc : Z) (d : Datum),
    let column := PG_MAPPED_IFX_ATTNUM env s attnum in
    zidx (pgAttrDefs s) attnum = Some pgdef ->
    oid_in (atttypid pgdef) [INT8OID; TEXTOID; VARCHAROID; BPCHAROID] = true ->
    zidx (ifxAttrDefs (stmt_info s)) column = Some ad ->
    is_eight_bytes (type ad) = false ->
    is_IFX_INTEGER (type ad) = false ->
    SearchSysCache_CASTSOURCETARGET (catalog env) INT2OID (atttypid pgdef)
      = Some castfunc ->
    fmgr (catalog env) castfunc
         [Int16Datum (ifxGetInt2 (esql env) (stmt_info s) column)] = inl d ->
    convertIfxInt env attnum s
    = (Ok d, s, [EvRemote "ifxGetInt2" column; EvFmgr castfunc]).
Proof.
  intros env attnum s pgdef ad castfunc d column Hpg Hwide Had Height Hint
         Hcast Hcall.
  subst column. unfold is_eight_bytes in Height.
  destruct (wide_target_is_no_int _ Hwide) as [Hno2 Hno4].
  unfold convertIfxInt.
  conv_run ltac:(first [rewrite Hpg | rewrite Hno2 | rewrite Hno4
                        | rewrite Hwide | rewrite Had | rewrite Height
                        | rewrite Hint | rewrite Hcast | rewrite Hcall]).
  change (INT2OID =? INT4OID) with false.
  conv_run ltac:(first [rewrite Hpg | rewrite Hcall]).
  reflexivity.
Qed.

Lemma convertIfxInt_reads_serial_as_int2_demo :
  convertIfxInt full_env 0 (one_column IFX_SERIAL TEXTOID (-1))
  = (Ok (FmgrDatum (INT2OID + TEXTOID)), one_column IFX_SERIAL TEXTOID (-1),
     [EvRemote "ifxGetInt2" 0; EvFmgr (INT2OID + TEXTOID)]).
Proof.
  apply (convertIfxInt_reads_serial_as_int2 full_env 0
           (one_column IFX_SERIAL TEXTOID (-1))
           {| atttypid := TEXTOID; atttypmod := -1 |}
           {| type := IFX_SERIAL; indicator := INDICATOR_NOT_NULL |});
    reflexivity.
Defined.


(** When the remote side hands no text for an 8-byte integer,
    [convertIfxInt] raises its own error and leaves the state alone; the
    call stack is rewound twice on the way, before the [elog] and again in
    the handler that re-throws it. *)
Theorem convertIfxInt_rewinds_twice_without_int8_text :
  forall (env : Env) (attnum : Z) (s : IfxFdwExecutionState)
         (pgdef : PgAttrDef) (ad : IfxAttrDef),
    let column := PG_MAPPED_IFX_ATTNUM env s attnum in
    zidx (pgAttrDefs s) attnum = Some pgdef ->
    oid_in (atttypid pgdef) [INT8OID; TEXTOID; VARCHAROID; BPCHAROID] = true ->
    zidx (ifxAttrDefs (stmt_info s)) column = Some ad ->
    (type ad = IFX_INT8 \/ type ad = IFX_SERIAL8)
      /\ ifxGetInt8 (esql env) (stmt_info s) column = None
    \/ type ad = IFX_INFX_INT8
       /\ ifxGetBigInt (esql env) (stmt_info s) column = None ->
    exists call,
      convertIfxInt env attnum s
      = (Raised {| errmsg := "could not convert informix int8 value";
                   errargs := [] |},
         s,
         [EvRemote call column; EvRewind;
          EvElog "could not convert informix int8 value" [];
          EvRewind; EvReThrow]).
Proof.
  intros env attnum s pgdef ad column Hpg Hwide Had Hsrc. subst column.
  destruct (wide_target_is_no_int _ Hwide) as [Hno2 Hno4].
  unfold convertIfxInt.
  destruct Hsrc as [[[Hty | Hty] Hget] | [Hty Hget]];
    eexists;
    conv_run ltac:(first [rewrite Hpg | rewrite Hno2 | rewrite Hno4
                          | rewrite Hwide | rewrite Had | rewrite Hty
                          | rewrite Hget]);
    reflexivity.
Qed.

Lemma convertIfxInt_rewinds_twice_without_int8_text_demo :
  exists call,
    convertIfxInt full_env 0 (one_column IFX_INT8 INT8OID (-1))
    = (Raised {| errmsg := "could not convert informix int8 value";
                 errargs := [] |},
       one_column IFX_INT8 INT8OID (-1),
       [EvRemote call 0; EvRewind;
        EvElog "could not convert informix int8 value" [];
        EvRewind; EvReThrow]).
Proof.
  apply (convertIfxInt_rewinds_twice_without_int8_text full_env 0
           (one_column IFX_INT8 INT8OID (-1))
           {| atttypid := INT8OID; atttypmod := -1 |}
           {| type := IFX_INT8; indicator := INDICATOR_NOT_NULL |}).
  - reflexivity.
  - reflexivity.
  - reflexivity.
  - left. split; [left |]; reflexivity.
Defined.

(** The two direct conversions of [convertIfxInt] look at no catalog and
    leave the state alone: a SMALLINT column for an int2 target is read with
    [ifxGetInt2], and a SMALLINT, INTEGER or SERIAL column for an int4
    target with [ifxGetInt4]. *)
Theorem convertIfxInt_direct_conversions :
  forall (env : Env) (attnum : Z) (s : IfxFdwExecutionState)
         (pgdef : PgAttrDef) (ad : IfxAttrDef),
    let column := PG_MAPPED_IFX_ATTNUM env s attnum in
    zidx (pgAttrDefs s) attnum = Some pgdef ->
    zidx (ifxAttrDefs (stmt_info s)) column = Some ad ->
    (atttypid pgdef = INT2OID -> type ad = IFX_SMALLINT ->
     convertIfxInt env attnum s
     = (Ok (Int16Datum (ifxGetInt2 (esql env) (stmt_info s) column)), s,
        [EvRemote "ifxGetInt2" column]))
    /\ (atttypid pgdef = INT4OID ->
        type ad = IFX_SMALLINT \/ type ad = IFX_INTEGER \/ type ad = IFX_SERIAL ->
        convertIfxInt env attnum s
        = (Ok (Int32Datum (ifxGetInt4 (esql env) (stmt_info s) column)), s,
           [EvRemote "ifxGetInt4" column])).
Proof.
  intros env attnum s pgdef ad column Hpg Had. subst column.
  split.
  - intros Ht Hty. unfold convertIfxInt.
    conv_run ltac:(first [rewrite Hpg | rewrite Ht | rewrite Had | rewrite Hty
                          | rewrite Z.eqb_refl]).
    reflexivity.
  - intros Ht Hty. unfold convertIfxInt.
    destruct Hty as [Hty | [Hty | Hty]];
      conv_run ltac:(first [rewrite Hpg | rewrite Ht | rewrite Had
                            | rewrite Hty | rewrite Z.eqb_refl
                            | progress change (INT4OID =? INT2OID) with false]);
      reflexivity.
Qed.

Lemma convertIfxInt_direct_conversions_demo :
  convertIfxInt full_env 0 (one_column IFX_SERIAL INT4OID (-1))
  = (Ok (Int32Datum 70000), one_column IFX_SERIAL INT4OID (-1),
     [EvRemote "ifxGetInt4" 0]).
Proof.
  destruct (convertIfxInt_direct_conversions full_env 0
              (one_column IFX_SERIAL INT4OID (-1))
              {| atttypid := INT4OID; atttypmod := -1 |}
              {| type := IFX_SERIAL; indicator := INDICATOR_NOT_NULL |}
              eq_refl eq_refl) as [_ Hint4].
  apply Hint4; [reflexivity | right; right; reflexivity].
Defined.

(** [convertIfxBoolean] does not use the column mapping: the value is read
    from the remote column with the number of the local attribute, whatever
    column that attribute is mapped to; for a boolean or char target the
    result is the boolean datum 0 when the value is 0 and 1 for every other
    value, and the state is left alone. *)
Theorem convertIfxBoolean_reads_the_unmapped_column :
  forall (env : Env) (attnum : Z) (s : IfxFdwExecutionState)
         (pgdef : PgAttrDef),
    zidx (pgAttrDefs s) attnum = Some pgdef ->
    oid_in (atttypid pgdef) [BOOLOID; CHAROID] = true ->
    convertIfxBoolean env attnum s
    = (Ok (BoolDatum
             (if ifxGetBool (esql env) (stmt_info s) attnum =? 0
              then 0 else 1)),
       s, [EvRemote "ifxGetBool" attnum]).
Proof.
  intros env attnum s pgdef Hpg Ht. unfold convertIfxBoolean.
  conv_run ltac:(first [rewrite Hpg | rewrite Ht]).
  reflexivity.
Qed.

Lemma convertIfxBoolean_reads_the_unmapped_column_demo :
  convertIfxBoolean (shifted_env 2) 0
    (one_column (IFX_TYPE_OTHER 45) BOOLOID (-1))
  = (Ok (BoolDatum 1), one_column (IFX_TYPE_OTHER 45) BOOLOID (-1),
     [EvRemote "ifxGetBool" 0]).
Proof.
  apply (convertIfxBoolean_reads_the_unmapped_column (shifted_env 2) 0
           (one_column (IFX_TYPE_OTHER 45) BOOLOID (-1))
           {| atttypid := BOOLOID; atttypmod := -1 |});
    reflexivity.
Defined.

(** The three routines that read a formatted string, for a target type
    they accept: a NULL string from the remote side gives the null datum
    with no lookup at all; otherwise the type input function of the target
    is called with the string, and what it returns is the result, while an
    error it raises is re-thrown as it is after one rewind.  The state is
    the same afterwards in every case. *)
Theorem formatted_string_conversion :
  forall (env : Env) (r : routine) (call : string)
         (get : IfxStatementInfo -> Z -> option string)
         (attnum : Z) (s : IfxFdwExecutionState) (pgdef : PgAttrDef)
         (source : IfxSourceType),
    let column := PG_MAPPED_IFX_ATTNUM env s attnum in
    formatted_source env r = Some (call, get) ->
    zidx (pgAttrDefs s) attnum = Some pgdef ->
    compatible r source (atttypid pgdef) = true ->
    convert r env attnum s
    = match get (stmt_info s) column with
      | None => (Ok PointerNull, s, [EvRemote call column])
      | Some text =>
        match SearchSysCache_TYPEOID (catalog env) (atttypid pgdef) with
        | None =>
          (Raised {| errmsg := "cache lookup failed for input function for type %u";
                     errargs := [atttypid pgdef] |}, s,
           [EvRemote call column; EvRewind;
            EvElog "cache lookup failed for input function for type %u"
                   [atttypid pgdef];
            EvRewind; EvReThrow])
        | Some type_tuple =>
          match fmgr (catalog env) (typinput type_tuple)
                     [CStringDatum text; ObjectIdDatum InvalidOid;
                      Int32Datum (atttypmod pgdef)] with
          | inl d =>
            (Ok d, s, [EvRemote call column; EvFmgr (typinput type_tuple)])
          | inr e =>
            (Raised e, s,
             [EvRemote call column; EvFmgr (typinput type_tuple);
              EvRewind; EvReThrow])
          end
        end
      end.
Proof.
  intros env r call get attnum s pgdef source column Hsrc Hpg Hok.
  subst column.
  match goal with
  | |- _ = ?rhs =>
    assert (Hrun : forall labels,
               oid_in (atttypid pgdef) labels = true ->
               convert_formatted_string env labels call get attnum s = rhs)
  end.
  { intros labels Hlabels. unfold convert_formatted_string.
    conv_run ltac:(first [rewrite Hpg | rewrite Hlabels]).
    destruct (get (stmt_info s) (PG_MAPPED_IFX_ATTNUM env s attnum))
      as [text |]; [| reflexivity].
    conv_run ltac:(first [rewrite Hpg | rewrite Hlabels]).
    destruct (SearchSysCache_TYPEOID (catalog env) (atttypid pgdef))
      as [type_tuple |]; [| reflexivity].
    conv_run ltac:(first [rewrite Hpg | rewrite Hlabels]).
    destruct (fmgr (catalog env) (typinput type_tuple) _); reflexivity. }
  destruct r; try discriminate Hsrc; injection Hsrc as <- <-;
    cbn [convert compatible] in *;
    unfold convertIfxDateString, convertIfxTimestampString, convertIfxDecimal;
    now apply Hrun.
Qed.

Lemma formatted_string_conversion_demo :
  convert DateString raising_env 0 (one_column (IFX_TYPE_OTHER 7) DATEOID (-1))
  = (Raised {| errmsg := "invalid input syntax"; errargs := [] |},
     one_column (IFX_TYPE_OTHER 7) DATEOID (-1),
     [EvRemote "ifxGetDateAsString" 0; EvFmgr (DATEOID + 1000);
      EvRewind; EvReThrow]).
Proof.
  apply (formatted_string_conversion raising_env DateString
           "ifxGetDateAsString" (ifxGetDateAsString (esql raising_env))
           0 (one_column (IFX_TYPE_OTHER 7) DATEOID (-1))
           {| atttypid := DATEOID; atttypmod := -1 |} (IFX_TYPE_OTHER 7));
    reflexivity.
Defined.


(** Keeping a datum and reading it back, when the column mapping does not
    look at the kept values. *)
Lemma keep_and_return (env : Env) (attnum : Z) (d : Datum)
    (s : IfxFdwExecutionState) (old : IfxValue) :
  zidx (values s) (PG_MAPPED_IFX_ATTNUM env s attnum) = Some old ->
  PG_MAPPED_IFX_ATTNUM env (with_value env attnum d s) attnum
  = PG_MAPPED_IFX_ATTNUM env s attnum ->
  (IFX_SETVAL_P env attnum d ;;; IFX_GETVAL_P env attnum) s
  = (Ok d, with_value env attnum d s, []).
Proof.
  intros Hold Hmap. unfold bind, IFX_SETVAL_P, IFX_GETVAL_P, set_value.
  rewrite (zset_of_zidx _ _ old) by exact Hold.
  fold (with_value env attnum d s). rewrite Hmap.
  cbn [values with_value].
  rewrite (zidx_insert_same _ _ old) by exact Hold. reflexivity.
Qed.




Lemma bytea_of_whole_string (val : string) :
  bytea_of val (Z.of_nat (strlen val)) = ByteaDatum val.
Proof.
  unfold bytea_of, strlen. rewrite Nat2Z.id.
  rewrite take_app_length' by (symmetry; apply length_list_ascii_of_string).
  now rewrite string_of_list_ascii_of_string.
Qed.

(** The conversions [convertIfxCharacterString] does itself.  The string is
    read first in every case; a NULL indicator gives the null datum; a text
    target gets the string as a text datum, a bytea target and a varchar
    target without a typmod get it as a binary datum of the same bytes.
    The datum is kept for the mapped attribute and nothing else changes. *)
Theorem convertIfxCharacterString_direct_conversions :
  forall (env : Env) (attnum : Z) (s : IfxFdwExecutionState)
         (pgdef : PgAttrDef) (ad : IfxAttrDef) (old : IfxValue),
    let column := PG_MAPPED_IFX_ATTNUM env s attnum in
    let val := ifxGetText (esql env) (stmt_info s) column in
    zidx (pgAttrDefs s) attnum = Some pgdef ->
    zidx (ifxAttrDefs (stmt_info s)) column = Some ad ->
    zidx (values s) column = Some old ->
    (forall d, PG_MAPPED_IFX_ATTNUM env (with_value env attnum d s) attnum
               = column) ->
    (indicator ad = INDICATOR_NULL ->
     oid_in (atttypid pgdef) [TEXTOID; VARCHAROID; BPCHAROID; BYTEAOID] = true ->
     convertIfxCharacterString env attnum s
     = (Ok PointerNull, s, [EvRemote "ifxGetText" column]))
    /\ (indicator ad <> INDICATOR_NULL ->
        atttypid pgdef = TEXTOID ->
        convertIfxCharacterString env attnum s
        = (Ok (TextDatum val), with_value env attnum (TextDatum val) s,
           [EvRemote "ifxGetText" column]))
    /\ (indicator ad <> INDICATOR_NULL ->
        atttypid pgdef = BYTEAOID
        \/ atttypid pgdef = VARCHAROID /\ atttypmod pgdef = -1 ->
        convertIfxCharacterString env attnum s
        = (Ok (ByteaDatum val), with_value env attnum (ByteaDatum val) s,
           [EvRemote "ifxGetText" column])).
Proof.
  intros env attnum s pgdef ad old column val Hpg Had Hold Hmap.
  subst column val.
  assert (Hkeep : forall d,
             (let (p, ev1) := IFX_SETVAL_P env attnum d s in
              let (r, s1) := p in
              match r with
              | Ok a => let (p0, ev2) := IFX_GETVAL_P env attnum s1 in
                        let (r0, s2) := p0 in (r0, s2, ev1 ++ ev2)
              | Raised e => (Raised e, s1, ev1)
              | Fault => (Fault, s1, ev1)
              end) = (Ok d, with_value env attnum d s, [])).
  { intros d. exact (keep_and_return env attnum d s old Hold (Hmap d)). }
  assert (Hnot : indicator ad <> INDICATOR_NULL ->
                 match indicator ad with INDICATOR_NULL => true | _ => false end
                 = false).
  { now destruct (indicator ad). }
  split; [| split].
  - intros Hnull Hlabels. unfold convertIfxCharacterString.
    conv_run ltac:(first [rewrite Hpg | rewrite Hlabels | rewrite Had
                          | rewrite Hnull]).
    reflexivity.
  - intros Hind Ht. apply Hnot in Hind. unfold convertIfxCharacterString.
    conv_run ltac:(first [rewrite Hpg | rewrite Ht | rewrite Had | rewrite Hind
                          | progress cbn [oid_in existsb]
                          | rewrite Z.eqb_refl | rewrite Hkeep]).
    reflexivity.
  - intros Hind Ht. apply Hnot in Hind. unfold convertIfxCharacterString.
    rewrite <- bytea_of_whole_string.
    destruct Ht as [Ht | [Ht Hmod]];
      conv_run ltac:(first [rewrite Hpg | rewrite Ht | rewrite Hmod
                            | rewrite Had | rewrite Hind
                            | progress cbn [oid_in existsb]
                            | rewrite Z.eqb_refl
                            | progress change (BYTEAOID =? TEXTOID) with false
                            | progress change (VARCHAROID =? TEXTOID) with false
                            | progress change (VARCHAROID =? BYTEAOID) with false
                            | rewrite orb_true_r
                            | rewrite Hkeep]);
      reflexivity.
Qed.

Lemma convertIfxCharacterString_direct_conversions_demo :
  convertIfxCharacterString full_env 0
    (one_column (IFX_TYPE_OTHER 13) VARCHAROID (-1))
  = (Ok (ByteaDatum "abc"),
     with_value full_env 0 (ByteaDatum "abc")
       (one_column (IFX_TYPE_OTHER 13) VARCHAROID (-1)),
     [EvRemote "ifxGetText" 0]).
Proof.
  destruct (convertIfxCharacterString_direct_conversions full_env 0
              (one_column (IFX_TYPE_OTHER 13) VARCHAROID (-1))
              {| atttypid := VARCHAROID; atttypmod := -1 |}
              {| type := IFX_TYPE_OTHER 13; indicator := INDICATOR_NOT_NULL |}
              {| val := PointerNull |} eq_refl eq_refl eq_refl
              (fun _ => eq_refl)) as (_ & _ & Hbinary).
  apply Hbinary.
  - intros Hc. discriminate Hc.
  - right. split; reflexivity.
Defined.

End ConvProperties.

(** ** The predicate walker *)

Section WalkerProperties.
Import Pushdown.

(** A null test is pushed down exactly when it is not a test of a row and
    its argument is a column of the target relation of the current query
    level; unlike in a comparison, a constant argument is not accepted.
    What is not pushed leaves the context as it is. *)
Theorem null_test_is_pushed_iff_on_a_column :
  forall (be : Backend) (context : IfxPushdownOprContext) (arg : Node)
         (nulltesttype : NullTestType) (argisrow : bool),
    let node := T_NullTest arg nulltesttype argisrow in
    let tag := match nulltesttype with
               | IS_NULL => IFX_IS_NULL
               | IS_NOT_NULL => IFX_IS_NOT_NULL
               end in
    let accepted :=
      argisrow = false
      /\ exists varattno, arg = T_Var (foreign_rtid context) varattno 0 in
    (accepted ->
     walk_node be node context
     = OK (false, IFX_MARK_PREDICATE (fragment be context tag node) context))
    /\ (~ accepted -> walk_node be node context = OK (true, context)).
Proof.
  intros be context arg nt row node tag accepted. subst node tag accepted.
  split.
  - intros [-> [varattno ->]]. cbn [walk_node]. rewrite Z.eqb_refl. cbn.
    now destruct nt.
  - intros Hnot. cbn [walk_node]. destruct row; [reflexivity |].
    destruct arg as [varno varattno sup | | | | |]; try reflexivity.
    destruct (Z.eqb_spec varno (foreign_rtid context)) as [-> | Hno];
      [| reflexivity].
    destruct (Z.eqb_spec sup 0) as [-> | Hsup]; [| reflexivity].
    exfalso. apply Hnot. split; [reflexivity | now exists varattno].
Qed.

Lemma null_test_is_pushed_iff_on_a_column_demo :
  walk_node demo_backend (T_NullTest (T_Var 3 2 0) IS_NOT_NULL false)
    demo_context
  = OK (false,
        IFX_MARK_PREDICATE
          (fragment demo_backend demo_context IFX_IS_NOT_NULL
             (T_NullTest (T_Var 3 2 0) IS_NOT_NULL false)) demo_context)
  /\ walk_node demo_backend (T_NullTest (T_Const 23 "5") IS_NULL false)
       demo_context
     = OK (true, demo_context).
Proof.
  split.
  - apply (null_test_is_pushed_iff_on_a_column demo_backend demo_context
             (T_Var 3 2 0) IS_NOT_NULL false).
    split; [reflexivity | now exists 2].
  - apply (null_test_is_pushed_iff_on_a_column demo_backend demo_context
             (T_Const 23 "5") IS_NULL false).
    intros [_ [varattno Hc]]. discriminate Hc.
Defined.

(** Whatever node is walked, a walk that returns has only appended to the
    list: the fragments that were there are still there in front, the
    relation ids are the same, and the counter has grown by the number of
    fragments appended, so that it stays the length of the list when it was
    that before. *)
Theorem walk_only_appends :
  forall (be : Backend) (node : Node) (context context' : IfxPushdownOprContext)
         (b : bool),
    walk_node be node context = OK (b, context') ->
    exists infos,
      context' = push_all context infos
      /\ (count context = Z.of_nat (length (predicates context)) ->
          count context' = Z.of_nat (length (predicates context'))).
Proof.
  intros be node [relid rtid preds cnt] context' b Hwalk.
  destruct (walk_node_appends be node relid rtid) as [r Hr].
  rewrite (Hr preds cnt) in Hwalk.
  destruct r as [[b' infos] | msg]; [| discriminate Hwalk].
  injection Hwalk as _ <-. exists infos. split; [reflexivity |].
  cbn. intros ->. rewrite length_app. lia.
Qed.

Lemma walk_only_appends_demo :
  exists infos,
    IFX_MARK_PREDICATE
      (fragment demo_backend demo_context IFX_OPR_GT (a_gt_5 3)) demo_context
    = push_all demo_context infos
    /\ (count demo_context = Z.of_nat (length (predicates demo_context)) ->
        count (IFX_MARK_PREDICATE
                 (fragment demo_backend demo_context IFX_OPR_GT (a_gt_5 3))
                 demo_context)
        = Z.of_nat
            (length
               (predicates
                  (IFX_MARK_PREDICATE
                     (fragment demo_backend demo_context IFX_OPR_GT (a_gt_5 3))
                     demo_context)))).
Proof.
  apply (walk_only_appends demo_backend (a_gt_5 3) demo_context _ false).
  reflexivity.
Defined.

(** A connective over one operand leaves no trace: no marker is appended,
    so the list after [NOT x] is the list after [x]; a connective over no
    operand appends nothing. *)
Theorem single_operand_connective_appends_no_marker :
  forall (be : Backend) (boolop : BoolExprType) (operand : Node)
         (context : IfxPushdownOprContext),
    walk_node be (T_BoolExpr boolop [operand]) context
    = match walk_node be operand context with
      | OK (_, context') => OK (true, context')
      | ERROR msg => ERROR msg
      end
    /\ collected be context (T_BoolExpr boolop [operand])
       = collected be context operand
    /\ walk_node be (T_BoolExpr boolop []) context = OK (true, context).
Proof.
  intros be boolop operand context.
  assert (Hone : forall c,
             walk_node be (T_BoolExpr boolop [operand]) c
             = match walk_node be operand c with
               | OK (_, c') => OK (true, c')
               | ERROR msg => ERROR msg
               end).
  { intros c. cbn [walk_node].
    destruct (walk_node be operand c) as [[b c'] | msg]; reflexivity. }
  split; [apply Hone |]. split; [| reflexivity].
  unfold collected. rewrite Hone.
  destruct (walk_node be operand (reset context)) as [[b c'] | msg];
    reflexivity.
Qed.

(** A connective the walker does not know is an error only when it has two
    operands or more: the error is raised where the marker would be made,
    after the first operand was walked. *)
Theorem unknown_connective_fails_at_the_first_marker :
  forall (be : Backend) (tag : Z) (first second : Node) (rest : list Node)
         (context : IfxPushdownOprContext) (walked : bool * IfxPushdownOprContext),
    walk_node be first context = OK walked ->
    walk_node be (T_BoolExpr (BOOLOP_OTHER tag) (first :: second :: rest)) context
    = ERROR "unsupported boolean expression type"
    /\ walk_node be (T_BoolExpr (BOOLOP_OTHER tag) [first]) context
       = OK (true, snd walked).
Proof.
  intros be tag first second rest context walked Hfirst.
  split.
  - rewrite walk_node_BoolExpr, walk_operands_more, Hfirst. reflexivity.
  - cbn [walk_node]. rewrite Hfirst. reflexivity.
Qed.

Lemma unknown_connective_fails_at_the_first_marker_demo :
  walk_node demo_backend
    (T_BoolExpr (BOOLOP_OTHER 3) [a_gt_5 3; b_eq_x 3]) demo_context
  = ERROR "unsupported boolean expression type"
  /\ walk_node demo_backend (T_BoolExpr (BOOLOP_OTHER 3) [a_gt_5 3])
       demo_context
     = OK (true,
           snd (false,
                IFX_MARK_PREDICATE
                  (fragment demo_backend demo_context IFX_OPR_GT (a_gt_5 3))
                  demo_context)).
Proof.
  apply (unknown_connective_fails_at_the_first_marker demo_backend 3
           (a_gt_5 3) (b_eq_x 3) [] demo_context).
  reflexivity.
Defined.

Lemma collected_error_appends (be : Backend) (context : IfxPushdownOprContext)
    (a : Node) (msg : string) :
  collected be context a = ERROR msg ->
  appends be a (foreign_relid context) (foreign_rtid context) (ERROR msg).
Proof.
  intros Hcol.
  destruct (walk_node_appends be a (foreign_relid context)
              (foreign_rtid context)) as [r Hr].
  unfold collected, reset in Hcol. rewrite (Hr [] 0) in Hcol.
  destruct r as [[b infos] | msg']; [discriminate Hcol |].
  now injection Hcol as ->.
Qed.

Lemma walk_operands_first_error (be : Backend) (boolop : BoolExprType)
    (marker : IfxPushdownOprInfo) (relid rtid : Z) (before : list Node)
    (fss : list (list IfxPushdownOprInfo)) (a : Node) (after : list Node)
    (msg : string) :
  bool_marker boolop = OK marker ->
  Forall2 (fun x fs => exists b, appends be x relid rtid (OK (b, fs)))
          before fss ->
  appends be a relid rtid (ERROR msg) ->
  forall preds cnt,
    walk_operands be boolop (before ++ a :: after)
      {| foreign_relid := relid; foreign_rtid := rtid;
         predicates := preds; count := cnt |}
    = ERROR msg.
Proof.
  intros Hm Hall Ha. induction Hall as [| x fs next fss' [b Hx] _ IH];
    intros preds cnt.
  - cbn [app walk_operands]. rewrite Ha. reflexivity.
  - change ((x :: next) ++ a :: after) with (x :: (next ++ a :: after)).
    destruct (next ++ a :: after) as [| y more] eqn:Hnext.
    + now destruct next.
    + rewrite walk_operands_more, Hx. cbn [bind snd]. rewrite Hm.
      cbn [bind]. unfold IFX_MARK_PREDICATE.
      cbn [foreign_relid foreign_rtid predicates count]. apply IH.
Qed.

(** An error inside an operand of a connective ends the whole walk with
    that error: after operands that were walked, the first operand that
    fails, for one because an operator in it is not in the operator cache,
    decides the result, and no operand after it is looked at. *)
Theorem connective_stops_at_the_first_error :
  forall (be : Backend) (context : IfxPushdownOprContext)
         (boolop : BoolExprType) (marker : IfxPushdownOprInfo)
         (before : list Node) (fss : list (list IfxPushdownOprInfo))
         (failing : Node) (after : list Node) (msg : string),
    bool_marker boolop = OK marker ->
    Forall2 (fun x fs => collected be context x = OK fs) before fss ->
    collected be context failing = ERROR msg ->
    walk_node be (T_BoolExpr boolop (before ++ failing :: after)) context
    = ERROR msg.
Proof.
  intros be context boolop marker before fss failing after msg Hm Hall Hfail.
  rewrite walk_node_BoolExpr.
  destruct context as [relid rtid preds cnt].
  rewrite (walk_operands_first_error be boolop marker relid rtid before fss
             failing after msg Hm); [reflexivity | | ].
  - eapply Forall2_impl; [exact Hall |].
    intros x fs Hcol. now apply collected_appends in Hcol.
  - now apply collected_error_appends in Hfail.
Qed.

Lemma connective_stops_at_the_first_error_demo :
  walk_node demo_backend
    (T_BoolExpr OR_EXPR
       ([a_gt_5 3] ++ T_OpExpr 4711 [T_Var 3 1 0; T_Const 23 "5"]
                   :: [b_eq_x 3])) demo_context
  = ERROR "cache lookup failed for operator %u".
Proof.
  apply (connective_stops_at_the_first_error demo_backend demo_context OR_EXPR
           {| type := Some IFX_OPR_OR; expr := None; expr_string := Some "OR" |}
           [a_gt_5 3]
           [[fragment demo_backend demo_context IFX_OPR_GT (a_gt_5 3)]]).
  - reflexivity.
  - repeat constructor.
  - reflexivity.
Defined.

End WalkerProperties.
